(** * CRONOS speech-to-speech engine: VAD state machine, barge-in detector,
      transcription gate, debounce coalescer and interrupt handler.

    Shallow embedding of [src/sts_engine.py] (class [STSEngine]) and of the
    voice-input part of [src/sts_orchestrator.py] (class
    [CronoSTSOrchestrator]): debounce, interrupt handler, listening mode
    (stand-by, snooze, push-to-talk) and the wording of timer durations.

    Modelling conventions.
    - Python [int] is [Z]. A Python [float] is the rational [Q] it denotes;
      the arithmetic on energies (the two moving averages and the thresholds
      derived from them) is IEEE 754 binary64, each operation rounded to
      nearest, ties to even, with gradual underflow ([fl]); no value is
      taken to reach the overflow threshold [2^1024]. The energy of a frame
      is a [float], as the signatures of [_process_frame] and
      [_is_barge_in_speech] declare. Comparisons are exact, as in Python,
      and boolean, so that every definition runs.
    - [time.time()] is an explicit argument, one per clock read; clock reads
      and their sums and differences are exact rationals.
    - [str] is [string], each character read as one code point below 256.
    - Work handed to the thread pool, callbacks and external calls are
      recorded, in order, in an effect log carried by the state; a callback
      is taken to return.
    - The tasks of the asyncio event loop are a list in the orchestrator's
      state; [_voice_debounce_task] refers to one of them by its position,
      and the loop wakes every task that is due, referred to or not. *)

From Stdlib Require Import String Ascii ZArith QArith Qminmax Lqa Lia Bool List.
From Stdlib Require Import DecimalString Qround Qabs Qpower.
Import ListNotations.

Local Open Scope Z_scope.

(** ** Small helpers shared by both modules *)

(** [a < b] on floats. *)
Definition Qltb (a b : Q) : bool := negb (Qle_bool b a).

(** Truthiness of a Python float: [0.0] is falsy. *)
Definition Qtruthy (a : Q) : bool := negb (Qeq_bool a 0).

(** Python's two-argument [max]: the first argument wins ties. *)
Definition py_max (a b : Q) : Q := if Qltb a b then b else a.

(** *** Python [float] arithmetic: IEEE 754 binary64 *)

Definition pow2 (e : Z) : Q := Qpower 2 e.

(** For [q > 0], the exponent [e] with [2^e <= q < 2^(e+1)]. *)
Definition floor_log2 (q : Q) : Z :=
  let e0 := Z.log2 (Qnum q) - Z.log2 (Zpos (Qden q)) in
  if Qle_bool (pow2 e0) q then e0 else e0 - 1.

(** The nearest integer, ties to the even one. *)
Definition round_half_even (q : Q) : Z :=
  let f := Qfloor q in
  match (q - inject_Z f ?= 1 # 2)%Q with
  | Lt => f
  | Gt => f + 1
  | Eq => if Z.even f then f else f + 1
  end.

(** The binary64 number nearest to [q]: 53 significant bits, the exponent of
    the leading bit no lower than -1022 (below that the spacing stays
    [2^-1074]). *)
Definition fl (q : Q) : Q :=
  if Qeq_bool q 0 then 0%Q
  else
    let e := Z.max (floor_log2 (Qabs q)) (-1022) in
    let ulp := pow2 (e - 52) in
    Qred (inject_Z (round_half_even (q / ulp)) * ulp).

Arguments fl : simpl never.

(** [a + b], [a - b] and [a * b] on floats. *)
Definition fadd (a b : Q) : Q := fl (a + b).
Definition fsub (a b : Q) : Q := fl (a - b).
Definition fmul (a b : Q) : Q := fl (a * b).

(** Half the relative spacing of the normal numbers, and half the spacing of
    the subnormal ones. *)
Definition unit_roundoff : Q := pow2 (-53).
Definition eta : Q := pow2 (-1075).

(** [collections.deque(maxlen=n).append(x)]: when the deque is full the
    leftmost element is dropped; a deque of capacity 0 stays empty. *)
Definition deque_append {A : Type} (maxlen : nat) (d : list A) (x : A) : list A :=
  if (maxlen =? 0)%nat then d
  else if (maxlen <=? length d)%nat then tl d ++ [x]
  else d ++ [x].

(** *** Python [str] operations, on code points below 256 *)

(** [str.isspace] for one character: TAB..CR, FS..US, space, NEL, NBSP. *)
Definition is_space (c : ascii) : bool :=
  let n := nat_of_ascii c in
  ((9 <=? n) && (n <=? 13) || (28 <=? n) && (n <=? 32)
   || (n =? 133) || (n =? 160))%nat.

(** [str.lower] for one character: A..Z and the accented capitals
    U+00C0..U+00DE (without the multiplication sign U+00D7) move up by 32. *)
Definition lower_char (c : ascii) : ascii :=
  let n := nat_of_ascii c in
  if ((65 <=? n) && (n <=? 90)
      || (192 <=? n) && (n <=? 222) && negb (n =? 215))%nat
  then ascii_of_nat (n + 32) else c.

Fixpoint drop_spaces (l : list ascii) : list ascii :=
  match l with
  | c :: l' => if is_space c then drop_spaces l' else l
  | [] => []
  end.

(** [strip()] on the list of characters: leading, then trailing spaces. *)
Definition strip_list (l : list ascii) : list ascii :=
  rev (drop_spaces (rev (drop_spaces l))).

(** [s.strip()] *)
Definition py_strip (s : string) : string :=
  string_of_list_ascii (strip_list (list_ascii_of_string s)).

(** [s.lower()] *)
Definition py_lower (s : string) : string :=
  string_of_list_ascii (map lower_char (list_ascii_of_string s)).

(** [s.split()]: the maximal runs of non-space characters; [cur] is the run
    being read, reversed. *)
Fixpoint split_ws (l cur : list ascii) : list string :=
  match l with
  | c :: l' =>
      if is_space c then
        match cur with
        | [] => split_ws l' []
        | _ => string_of_list_ascii (rev cur) :: split_ws l' []
        end
      else split_ws l' (c :: cur)
  | [] =>
      match cur with
      | [] => []
      | _ => [string_of_list_ascii (rev cur)]
      end
  end.

Definition py_split (s : string) : list string :=
  split_ws (list_ascii_of_string s) [].

(** [s.endswith(suffix)] *)
Definition py_endswith (s suffix : string) : bool :=
  prefix (string_of_list_ascii (rev (list_ascii_of_string suffix)))
         (string_of_list_ascii (rev (list_ascii_of_string s))).

(** [sep.join(parts)] *)
Definition py_join (sep : string) (parts : list string) : string :=
  String.concat sep parts.

(** Truthiness of a [str]: the empty string is falsy. *)
Definition str_truthy (s : string) : bool := negb (String.eqb s "").

(** A character list that starts with a non-space character. *)
Definition head_ok (l : list ascii) : Prop :=
  match l with
  | c :: _ => is_space c = false
  | [] => False
  end.

(** A character list that neither starts nor ends with a space. *)
Definition clean (l : list ascii) : Prop := head_ok l /\ head_ok (rev l).

(** ** The audio engine, [src/sts_engine.py] *)

Module STS.

(** *** Configuration (module-level constants) *)

(** The three values read from the environment; everything else is a literal
    in the source. *)
Record Config := {
  SILENCE_THRESHOLD : Z;     (* CRONO_SILENCE_THRESHOLD, default 250 *)
  SPEECH_START_FRAMES : Z;   (* CRONO_SPEECH_START_FRAMES, default 2 *)
  SILENCE_END_FRAMES : Z     (* CRONO_SILENCE_END_FRAMES, default 16 *)
}.

Definition default_config : Config :=
  {| SILENCE_THRESHOLD := 250; SPEECH_START_FRAMES := 2; SILENCE_END_FRAMES := 16 |}.

Definition SAMPLE_RATE : Z := 16000.
Definition FRAME_DURATION_MS : Z := 30.
Definition FRAME_SIZE : Z := SAMPLE_RATE * FRAME_DURATION_MS / 1000.
Definition MAX_RECORDING_FRAMES : nat := 500.

Definition BARGE_IN_GUARD_MS : Q := 250.
Definition BARGE_IN_COOLDOWN_MS : Q := 350.
Definition BARGE_IN_MULTIPLIER : Q := fl 1.6.
Definition BARGE_IN_DELTA : Q := 200.
Definition TTS_BASELINE_EMA_ALPHA : Q := fl 0.15.

Definition NOISE_FLOOR_EMA_ALPHA : Q := fl 0.08.
Definition NOISE_FLOOR_MULTIPLIER : Q := fl 1.8.
Definition NOISE_FLOOR_MARGIN : Q := 40.

(** *** Data *)

(** A frame is a block of signed 16-bit samples. *)
Definition Frame := list Z.

(** [np.concatenate(list(self.audio_buffer))] *)
Definition np_concatenate (frames : list Frame) : list Z := concat frames.

(** What the engine hands to the outside, in program order. *)
Inductive Effect :=
| Submit_transcribe (frames : list Frame) (audio_data : list Z)
    (* self._executor.submit(self._transcribe_async, audio_data.copy()) *)
| Submit_on_speech_start
    (* self._executor.submit(self.on_speech_start) *)
| Call_on_interrupt.
    (* self.on_interrupt() *)

(** The attributes of [STSEngine] that the frame path reads or writes. *)
Record Engine := {
  is_speaking : bool;
  is_listening : bool;
  interrupt_requested : bool;
  audio_buffer : list Frame;
  tts_audio_playing : bool;
  on_speech_start : bool;      (* is a callback registered? *)
  on_interrupt : bool;         (* is a callback registered? *)
  _speech_frames : Z;
  _silence_frames : Z;
  _is_recording : bool;
  _echo_threshold_boost : Q;
  _tts_energy_ema : Q;
  _tts_energy_initialized : bool;
  _tts_started_at : Q;
  _ignore_until : Q;
  _noise_floor_ema : Q;
  _noise_floor_initialized : bool;
  _total_frames : Z;
  _detected_speech_count : Z;
  last_energy : Q;
  effects : list Effect
}.

(** [STSEngine.__init__] *)
Definition init : Engine := {|
  is_speaking := false;
  is_listening := true;
  interrupt_requested := false;
  audio_buffer := [];
  tts_audio_playing := false;
  on_speech_start := false;
  on_interrupt := false;
  _speech_frames := 0;
  _silence_frames := 0;
  _is_recording := false;
  _echo_threshold_boost := 200;
  _tts_energy_ema := 0;
  _tts_energy_initialized := false;
  _tts_started_at := 0;
  _ignore_until := 0;
  _noise_floor_ema := 0;
  _noise_floor_initialized := false;
  _total_frames := 0;
  _detected_speech_count := 0;
  last_energy := 0;
  effects := []
|}.

(** Attribute assignments. *)
Definition with_speaking (st : Engine) (b : bool) : Engine :=
  {| is_speaking := b; is_listening := is_listening st;
     interrupt_requested := interrupt_requested st; audio_buffer := audio_buffer st;
     tts_audio_playing := b; on_speech_start := on_speech_start st;
     on_interrupt := on_interrupt st; _speech_frames := _speech_frames st;
     _silence_frames := _silence_frames st; _is_recording := _is_recording st;
     _echo_threshold_boost := _echo_threshold_boost st;
     _tts_energy_ema := _tts_energy_ema st;
     _tts_energy_initialized := _tts_energy_initialized st;
     _tts_started_at := _tts_started_at st; _ignore_until := _ignore_until st;
     _noise_floor_ema := _noise_floor_ema st;
     _noise_floor_initialized := _noise_floor_initialized st;
     _total_frames := _total_frames st;
     _detected_speech_count := _detected_speech_count st;
     last_energy := last_energy st; effects := effects st |}.

Definition with_listening (st : Engine) (b : bool) : Engine :=
  {| is_speaking := is_speaking st; is_listening := b;
     interrupt_requested := interrupt_requested st; audio_buffer := audio_buffer st;
     tts_audio_playing := tts_audio_playing st; on_speech_start := on_speech_start st;
     on_interrupt := on_interrupt st; _speech_frames := _speech_frames st;
     _silence_frames := _silence_frames st; _is_recording := _is_recording st;
     _echo_threshold_boost := _echo_threshold_boost st;
     _tts_energy_ema := _tts_energy_ema st;
     _tts_energy_initialized := _tts_energy_initialized st;
     _tts_started_at := _tts_started_at st; _ignore_until := _ignore_until st;
     _noise_floor_ema := _noise_floor_ema st;
     _noise_floor_initialized := _noise_floor_initialized st;
     _total_frames := _total_frames st;
     _detected_speech_count := _detected_speech_count st;
     last_energy := last_energy st; effects := effects st |}.

Definition with_callbacks (st : Engine) (start interrupt : bool) : Engine :=
  {| is_speaking := is_speaking st; is_listening := is_listening st;
     interrupt_requested := interrupt_requested st; audio_buffer := audio_buffer st;
     tts_audio_playing := tts_audio_playing st; on_speech_start := start;
     on_interrupt := interrupt; _speech_frames := _speech_frames st;
     _silence_frames := _silence_frames st; _is_recording := _is_recording st;
     _echo_threshold_boost := _echo_threshold_boost st;
     _tts_energy_ema := _tts_energy_ema st;
     _tts_energy_initialized := _tts_energy_initialized st;
     _tts_started_at := _tts_started_at st; _ignore_until := _ignore_until st;
     _noise_floor_ema := _noise_floor_ema st;
     _noise_floor_initialized := _noise_floor_initialized st;
     _total_frames := _total_frames st;
     _detected_speech_count := _detected_speech_count st;
     last_energy := last_energy st; effects := effects st |}.

(** The segmenter's own variables: recording flag, buffer and both counters. *)
Definition with_vad (st : Engine) (rec : bool) (buf : list Frame) (sp si : Z) : Engine :=
  {| is_speaking := is_speaking st; is_listening := is_listening st;
     interrupt_requested := interrupt_requested st; audio_buffer := buf;
     tts_audio_playing := tts_audio_playing st; on_speech_start := on_speech_start st;
     on_interrupt := on_interrupt st; _speech_frames := sp;
     _silence_frames := si; _is_recording := rec;
     _echo_threshold_boost := _echo_threshold_boost st;
     _tts_energy_ema := _tts_energy_ema st;
     _tts_energy_initialized := _tts_energy_initialized st;
     _tts_started_at := _tts_started_at st; _ignore_until := _ignore_until st;
     _noise_floor_ema := _noise_floor_ema st;
     _noise_floor_initialized := _noise_floor_initialized st;
     _total_frames := _total_frames st;
     _detected_speech_count := _detected_speech_count st;
     last_energy := last_energy st; effects := effects st |}.

(** The TTS baseline and its two time stamps. *)
Definition with_tts (st : Engine) (ema : Q) (initialized : bool) (started until : Q) : Engine :=
  {| is_speaking := is_speaking st; is_listening := is_listening st;
     interrupt_requested := interrupt_requested st; audio_buffer := audio_buffer st;
     tts_audio_playing := tts_audio_playing st; on_speech_start := on_speech_start st;
     on_interrupt := on_interrupt st; _speech_frames := _speech_frames st;
     _silence_frames := _silence_frames st; _is_recording := _is_recording st;
     _echo_threshold_boost := _echo_threshold_boost st;
     _tts_energy_ema := ema;
     _tts_energy_initialized := initialized;
     _tts_started_at := started; _ignore_until := until;
     _noise_floor_ema := _noise_floor_ema st;
     _noise_floor_initialized := _noise_floor_initialized st;
     _total_frames := _total_frames st;
     _detected_speech_count := _detected_speech_count st;
     last_energy := last_energy st; effects := effects st |}.

Definition with_noise_floor (st : Engine) (ema : Q) (initialized : bool) : Engine :=
  {| is_speaking := is_speaking st; is_listening := is_listening st;
     interrupt_requested := interrupt_requested st; audio_buffer := audio_buffer st;
     tts_audio_playing := tts_audio_playing st; on_speech_start := on_speech_start st;
     on_interrupt := on_interrupt st; _speech_frames := _speech_frames st;
     _silence_frames := _silence_frames st; _is_recording := _is_recording st;
     _echo_threshold_boost := _echo_threshold_boost st;
     _tts_energy_ema := _tts_energy_ema st;
     _tts_energy_initialized := _tts_energy_initialized st;
     _tts_started_at := _tts_started_at st; _ignore_until := _ignore_until st;
     _noise_floor_ema := ema;
     _noise_floor_initialized := initialized;
     _total_frames := _total_frames st;
     _detected_speech_count := _detected_speech_count st;
     last_energy := last_energy st; effects := effects st |}.

(** Statistics, the interrupt flag and the effect log. *)
Definition with_out (st : Engine) (irq : bool) (total detected : Z) (energy : Q)
    (effs : list Effect) : Engine :=
  {| is_speaking := is_speaking st; is_listening := is_listening st;
     interrupt_requested := irq; audio_buffer := audio_buffer st;
     tts_audio_playing := tts_audio_playing st; on_speech_start := on_speech_start st;
     on_interrupt := on_interrupt st; _speech_frames := _speech_frames st;
     _silence_frames := _silence_frames st; _is_recording := _is_recording st;
     _echo_threshold_boost := _echo_threshold_boost st;
     _tts_energy_ema := _tts_energy_ema st;
     _tts_energy_initialized := _tts_energy_initialized st;
     _tts_started_at := _tts_started_at st; _ignore_until := _ignore_until st;
     _noise_floor_ema := _noise_floor_ema st;
     _noise_floor_initialized := _noise_floor_initialized st;
     _total_frames := total;
     _detected_speech_count := detected;
     last_energy := energy; effects := effs |}.

Definition emit (st : Engine) (e : Effect) : Engine :=
  with_out st (interrupt_requested st) (_total_frames st) (_detected_speech_count st)
    (last_energy st) (effects st ++ [e]).

(** *** Operations *)

Section Operations.

Variable cfg : Config.

(** [STSEngine.set_speaking]; [now] is the value of [time.time()]. *)
Definition set_speaking (st : Engine) (speaking : bool) (now : Q) : Engine :=
  let st := with_speaking st speaking in
  if speaking then
    with_tts st (_tts_energy_ema st) false now (_ignore_until st)
  else
    with_tts st 0 false (_tts_started_at st) (now + BARGE_IN_COOLDOWN_MS / 1000)%Q.

(** [STSEngine.request_interrupt] *)
Definition request_interrupt (st : Engine) : Engine :=
  let st := with_out st true (_total_frames st) (_detected_speech_count st)
              (last_energy st) (effects st) in
  if on_interrupt st then emit st Call_on_interrupt else st.

(** [STSEngine.set_listening] *)
Definition set_listening (st : Engine) (listening : bool) : Engine :=
  let st := with_listening st listening in
  if negb (is_listening st) then with_vad st false [] 0 0 else st.

(** [(self._noise_floor_ema * NOISE_FLOOR_MULTIPLIER) + NOISE_FLOOR_MARGIN] *)
Definition adaptive_threshold (st : Engine) : Q :=
  fadd (fmul (_noise_floor_ema st) NOISE_FLOOR_MULTIPLIER) NOISE_FLOOR_MARGIN.

(** [STSEngine._get_effective_threshold]. [base] starts as the [int]
    [SILENCE_THRESHOLD]; [max] replaces it by the float only when that is
    strictly greater ([raised]). The boost is an [int]: adding it to the
    [int] is exact, adding it to the float rounds. *)
Definition _get_effective_threshold (st : Engine) : Q :=
  let base := inject_Z (SILENCE_THRESHOLD cfg) in
  let raised := _noise_floor_initialized st && Qltb base (adaptive_threshold st) in
  let base :=
    if _noise_floor_initialized st
    then py_max base (adaptive_threshold st)
    else base in
  if is_speaking st
  then if raised then fadd base (_echo_threshold_boost st)
       else (base + _echo_threshold_boost st)%Q
  else base.

(** [STSEngine.get_vad_threshold] *)
Definition get_vad_threshold (st : Engine) : Q := _get_effective_threshold st.

(** [STSEngine._is_barge_in_speech]; returns the verdict and the engine with
    its TTS baseline updated. *)
Definition _is_barge_in_speech (st : Engine) (energy base_threshold now : Q)
  : bool * Engine :=
  if Qtruthy (_tts_started_at st)
     && Qltb (now - _tts_started_at st) (BARGE_IN_GUARD_MS / 1000)%Q
  then (false, st)
  else
    let ema :=
      if negb (_tts_energy_initialized st) then energy
      else fadd (fmul (fsub 1 TTS_BASELINE_EMA_ALPHA) (_tts_energy_ema st))
                (fmul TTS_BASELINE_EMA_ALPHA energy) in
    let st := with_tts st ema true (_tts_started_at st) (_ignore_until st) in
    let dynamic_threshold :=
      py_max base_threshold
             (fadd (fmul (_tts_energy_ema st) BARGE_IN_MULTIPLIER) BARGE_IN_DELTA) in
    (Qltb dynamic_threshold energy, st).

(** The guard window of [_is_barge_in_speech] is over at time [now]. *)
Definition guard_expired (st : Engine) (now : Q) : bool :=
  negb (Qtruthy (_tts_started_at st)
        && Qltb (now - _tts_started_at st) (BARGE_IN_GUARD_MS / 1000)%Q).

(** Successive calls of [_is_barge_in_speech], one per frame, each with its
    energy, base threshold and clock read; the verdicts come oldest first. *)
Fixpoint barge_in_run (st : Engine) (calls : list (Q * Q * Q)) : list bool * Engine :=
  match calls with
  | [] => ([], st)
  | (energy, base_threshold, now) :: calls' =>
      let '(v, st) := _is_barge_in_speech st energy base_threshold now in
      let '(vs, st) := barge_in_run st calls' in
      (v :: vs, st)
  end.

(** A simulated echo: calls of [_is_barge_in_speech] in which the energy of
    each frame is the baseline tracked at that moment; [e0] is the energy of
    the frame that initializes the baseline, and each read gives the base
    threshold and the clock. *)
Fixpoint simulated_echo (st : Engine) (e0 : Q) (reads : list (Q * Q))
  : list (Q * Q * Q) :=
  match reads with
  | [] => []
  | (base_threshold, now) :: reads' =>
      let energy := if _tts_energy_initialized st then _tts_energy_ema st else e0 in
      (energy, base_threshold, now)
      :: simulated_echo (snd (_is_barge_in_speech st energy base_threshold now)) e0 reads'
  end.

(** [STSEngine._finish_recording]. Concatenating the buffer and submitting
    it to the executor are taken to succeed (the source catches and logs an
    exception of either). *)
Definition _finish_recording (st : Engine) : Engine :=
  let st := with_vad st false (audio_buffer st) 0 0 in
  let buffer_size := length (audio_buffer st) in
  let st :=
    if (5 <? buffer_size)%nat
    then emit st (Submit_transcribe (audio_buffer st) (np_concatenate (audio_buffer st)))
    else st in
  with_vad st (_is_recording st) [] (_speech_frames st) (_silence_frames st).

(** The block that occurs three times in [_process_frame]:
    drop a recording in progress and zero both counters. *)
Definition reset_segmenter (st : Engine) : Engine :=
  let st := if _is_recording st
            then with_vad st false [] (_speech_frames st) (_silence_frames st)
            else st in
  with_vad st (_is_recording st) (audio_buffer st) 0 0.

(** The noise-floor update at the head of [_process_frame]. *)
Definition update_noise_floor (st : Engine) (energy : Q) : Engine :=
  if negb (is_speaking st) && negb (_is_recording st) then
    if negb (_noise_floor_initialized st) then with_noise_floor st energy true
    else if Qle_bool energy (fmul (fl (inject_Z (SILENCE_THRESHOLD cfg))) (fl 1.2)) then
      with_noise_floor st
        (fadd (fmul (fsub 1 NOISE_FLOOR_EMA_ALPHA) (_noise_floor_ema st))
              (fmul NOISE_FLOOR_EMA_ALPHA energy)) true
    else st
  else st.

(** The classification step of [_process_frame]. *)
Definition classify (st : Engine) (energy threshold t_guard : Q) : bool * Engine :=
  if is_speaking st then _is_barge_in_speech st energy threshold t_guard
  else (Qltb threshold energy, st).

(** The segmenter proper: the part of [_process_frame] below the
    classification. The call of [on_interrupt] is recorded as an effect and
    taken to return; were it to raise, the exception would leave
    [_process_frame] there (the audio loop prints it and reads the next
    frame), with every attribute as given here and [on_speech_start] not
    submitted. *)
Definition segment (st : Engine) (frame : Frame) (is_speech : bool) : Engine :=
  if is_speaking st && negb is_speech then reset_segmenter st
  else if negb (_is_recording st) then
    if is_speech then
      let st := with_vad st (_is_recording st) (audio_buffer st)
                  (_speech_frames st + 1) (_silence_frames st) in
      if SPEECH_START_FRAMES cfg <=? _speech_frames st then
        let st := with_vad st true (deque_append MAX_RECORDING_FRAMES [] frame)
                    (_speech_frames st) 0 in
        let st := with_out st (interrupt_requested st) (_total_frames st)
                    (_detected_speech_count st + 1) (last_energy st) (effects st) in
        let st := if is_speaking st then request_interrupt st else st in
        if on_speech_start st then emit st Submit_on_speech_start else st
      else st
    else
      with_vad st (_is_recording st) (audio_buffer st)
        (Z.max 0 (_speech_frames st - 1)) (_silence_frames st)
  else
    let st := with_vad st (_is_recording st)
                (deque_append MAX_RECORDING_FRAMES (audio_buffer st) frame)
                (_speech_frames st) (_silence_frames st) in
    let st :=
      if is_speech then
        with_vad st (_is_recording st) (audio_buffer st) (_speech_frames st) 0
      else
        let st := with_vad st (_is_recording st) (audio_buffer st)
                    (_speech_frames st) (_silence_frames st + 1) in
        if SILENCE_END_FRAMES cfg <=? _silence_frames st
        then _finish_recording st else st in
    if (MAX_RECORDING_FRAMES <=? length (audio_buffer st))%nat
    then _finish_recording st else st.

(** [STSEngine._process_frame]; [t_cool] and [t_guard] are the two clock
    reads, in the cooldown test and inside [_is_barge_in_speech]. *)
Definition _process_frame (st : Engine) (frame : Frame)
    (energy threshold t_cool t_guard : Q) : Engine :=
  let st := with_out st (interrupt_requested st) (_total_frames st)
              (_detected_speech_count st) energy (effects st) in
  if negb (is_listening st) then reset_segmenter st
  else if Qtruthy (_ignore_until st) && Qltb t_cool (_ignore_until st)
  then reset_segmenter st
  else
    let st := update_noise_floor st energy in
    let '(is_speech, st) := classify st energy threshold t_guard in
    segment st frame is_speech.

(** One turn of the loop in [_audio_loop] for a frame read from the stream;
    [energy] is the result of [_calculate_energy(frame)]. An empty frame is
    skipped. *)
Definition audio_loop_step (st : Engine) (frame : Frame)
    (energy t_cool t_guard : Q) : Engine :=
  if (length frame =? 0)%nat then st
  else
    let threshold := _get_effective_threshold st in
    let st := with_out st (interrupt_requested st) (_total_frames st + 1)
                (_detected_speech_count st) (last_energy st) (effects st) in
    _process_frame st frame energy threshold t_cool t_guard.

(** *** Runs *)

(** What can happen to an engine: the capture thread processes a frame,
    another thread calls a public setter (both under [_vad_lock]), or the
    owner assigns the callback attributes [on_speech_start] and
    [on_interrupt] (set or [None]). *)
Inductive Event :=
| Ev_frame (frame : Frame) (energy t_cool t_guard : Q)
| Ev_set_speaking (speaking : bool) (now : Q)
| Ev_set_listening (listening : bool)
| Ev_set_callbacks (speech_start interrupt : bool).

Definition step (st : Engine) (ev : Event) : Engine :=
  match ev with
  | Ev_frame frame energy t_cool t_guard => audio_loop_step st frame energy t_cool t_guard
  | Ev_set_speaking speaking now => set_speaking st speaking now
  | Ev_set_listening listening => set_listening st listening
  | Ev_set_callbacks speech_start interrupt => with_callbacks st speech_start interrupt
  end.

Definition run (st : Engine) (evs : list Event) : Engine := fold_left step evs st.

(** How [_process_frame] classified a frame: not at all (listening off or
    cooldown), as speech, or as silence. *)
Inductive Class := Skipped | Speech | Silence.

Definition Class_eqb (a b : Class) : bool :=
  match a, b with
  | Skipped, Skipped | Speech, Speech | Silence, Silence => true
  | _, _ => false
  end.

Definition frame_class (st : Engine) (energy threshold t_cool t_guard : Q) : Class :=
  let st := with_out st (interrupt_requested st) (_total_frames st)
              (_detected_speech_count st) energy (effects st) in
  if negb (is_listening st) then Skipped
  else if Qtruthy (_ignore_until st) && Qltb t_cool (_ignore_until st) then Skipped
  else if fst (classify (update_noise_floor st energy) energy threshold t_guard)
  then Speech else Silence.

(** The engine as it enters the segmenter when the frame is classified:
    last energy stored, noise floor and TTS baseline updated. *)
Definition classified (st : Engine) (energy threshold t_guard : Q) : Engine :=
  let st := with_out st (interrupt_requested st) (_total_frames st)
              (_detected_speech_count st) energy (effects st) in
  snd (classify (update_noise_floor st energy) energy threshold t_guard).

(** The class of the frame an event carries, if it carries one that is
    processed. *)
Definition event_class (st : Engine) (ev : Event) : option Class :=
  match ev with
  | Ev_frame frame energy t_cool t_guard =>
      if (length frame =? 0)%nat then None
      else
        Some (frame_class
                (with_out st (interrupt_requested st) (_total_frames st + 1)
                   (_detected_speech_count st) (last_energy st) (effects st))
                energy (_get_effective_threshold st) t_cool t_guard)
  | _ => None
  end.

(** Classes of the frames of a run, most recent first. *)
Fixpoint history (st : Engine) (evs : list Event) (past : list Class) : list Class :=
  match evs with
  | [] => past
  | ev :: evs' =>
      history (step st ev) evs'
        (match event_class st ev with Some c => c :: past | None => past end)
  end.

(** Classes of the events of a run, oldest first ([None] for a setter or a
    skipped empty frame). *)
Fixpoint classes (st : Engine) (evs : list Event) : list (option Class) :=
  match evs with
  | [] => []
  | ev :: evs' => event_class st ev :: classes (step st ev) evs'
  end.

(** The frames processed in a list of events, oldest first. *)
Fixpoint frames_of (evs : list Event) : list Frame :=
  match evs with
  | Ev_frame frame _ _ _ :: evs' =>
      if (length frame =? 0)%nat then frames_of evs' else frame :: frames_of evs'
  | _ :: evs' => frames_of evs'
  | [] => []
  end.

(** Number of leading entries of [h] equal to [c]: with [h] most recent
    first, the length of the current run of consecutive [c] frames. *)
Fixpoint streak (c : Class) (h : list Class) : nat :=
  match h with
  | x :: h' => if Class_eqb x c then S (streak c h') else 0%nat
  | [] => 0%nat
  end.

(** The buffers handed to transcription, oldest first. *)
Fixpoint dispatched (effs : list Effect) : list (list Frame) :=
  match effs with
  | Submit_transcribe frames _ :: effs' => frames :: dispatched effs'
  | _ :: effs' => dispatched effs'
  | [] => []
  end.

End Operations.

(** What the segmenter properties look at: recording flag, buffer, the two
    counters, the TTS flag and the buffers submitted so far. *)
Definition view (st : Engine)
  : bool * list Frame * Z * Z * bool * list (list Frame) :=
  (_is_recording st, audio_buffer st, _speech_frames st, _silence_frames st,
   is_speaking st, dispatched (effects st)).

(** Buffer exclusivity: recording exactly when the buffer is non-empty. *)
Definition buffer_exclusive (st : Engine) : Prop :=
  _is_recording st = true <-> audio_buffer st <> [].

(** The number of speech frames of a stretch of frames less the number of
    its silence frames. *)
Fixpoint surplus (l : list Class) : Z :=
  match l with
  | [] => 0
  | Speech :: l' => surplus l' + 1
  | Silence :: l' => surplus l' - 1
  | Skipped :: l' => surplus l'
  end.

(** The speech credit of the frames seen, [h] most recent first: one up for
    a speech frame, one down (not below 0) for a silence frame, back to 0 at
    a skipped frame. It is the largest surplus among the stretches of frames
    that end with the most recent one and hold no skipped frame
    ([credit_spec]). *)
Fixpoint credit (h : list Class) : Z :=
  match h with
  | [] => 0
  | Speech :: h' => credit h' + 1
  | Silence :: h' => Z.max 0 (credit h' - 1)
  | Skipped :: h' => 0
  end.

(** The counters never run ahead of the frames seen: while recording, the
    silence counter is at most the current run of silence frames; while not
    recording, the speech counter is at most the speech surplus, it is 0 or
    below [SPEECH_START_FRAMES], and it is one short of
    [SPEECH_START_FRAMES] only just after a speech frame. *)
Definition hysteresis_inv (cfg : Config) (st : Engine) (h : list Class) : Prop :=
  (_is_recording st = true -> _silence_frames st <= Z.of_nat (streak Silence h))
  /\ (_is_recording st = false ->
      _speech_frames st <= credit h
      /\ (_speech_frames st = 0
          \/ (_speech_frames st < SPEECH_START_FRAMES cfg
              /\ (_speech_frames st = SPEECH_START_FRAMES cfg - 1 ->
                  (1 <= streak Speech h)%nat)))).

(** The entry half of the hysteresis property, as the specification words
    it: a frame step takes the engine into RECORDING only when the last
    [SPEECH_START_FRAMES] frames, this one included, were all classified as
    speech. *)
Definition enters_after_confirmation (cfg : Config) : Prop :=
  forall (evs : list Event) (frame : Frame) (energy t_cool t_guard : Q),
    let ev := Ev_frame frame energy t_cool t_guard in
    let st := run cfg init evs in
    _is_recording st = false ->
    _is_recording (step cfg st ev) = true ->
    SPEECH_START_FRAMES cfg <= Z.of_nat (streak Speech (history cfg init (evs ++ [ev]) [])).

(** The exit half, as the specification words it: a frame step takes the
    engine out of RECORDING only when the last [SILENCE_END_FRAMES] frames,
    this one included, were all classified as silence, or when the buffer
    reaches [MAX_RECORDING_FRAMES]. *)
Definition exits_after_confirmation (cfg : Config) : Prop :=
  forall (evs : list Event) (frame : Frame) (energy t_cool t_guard : Q),
    let ev := Ev_frame frame energy t_cool t_guard in
    let st := run cfg init evs in
    _is_recording st = true ->
    _is_recording (step cfg st ev) = false ->
    SILENCE_END_FRAMES cfg <= Z.of_nat (streak Silence (history cfg init (evs ++ [ev]) []))
    \/ (MAX_RECORDING_FRAMES
        <= length (deque_append MAX_RECORDING_FRAMES (audio_buffer st) frame))%nat.

(** *** Sample runs *)

(** A normal turn on a fresh engine with the default configuration: one
    speech frame at energy 300 (it also initializes the noise floor), eleven
    at energy 1000, sixteen silent ones. *)
Definition normal_turn : list Event :=
  Ev_frame [1] 300 1 1
  :: map (fun n => Ev_frame [n] 1000 1 1) [2; 3; 4; 5; 6; 7; 8; 9; 10; 11; 12]
  ++ map (fun n => Ev_frame [n] 0 1 1)
       [13; 14; 15; 16; 17; 18; 19; 20; 21; 22; 23; 24; 25; 26; 27; 28].

(** The callbacks are registered and TTS starts at time 100; after the guard
    window a quiet frame sets the baseline, then two loud frames confirm a
    barge-in. *)
Definition barge_in_turn : list Event :=
  [Ev_set_callbacks true true;
   Ev_set_speaking true 100;
   Ev_frame [0] 0 101 101;
   Ev_frame [1] 1000 101 101;
   Ev_frame [2] 1000 101 101].

(** Speech, speech, one dip, speech: the run before the frame that starts a
    recording when three frames are needed to confirm. *)
Definition attack_with_dip : list Event :=
  [Ev_frame [1] 300 1 1;
   Ev_frame [2] 1000 1 1;
   Ev_frame [3] 0 1 1;
   Ev_frame [4] 1000 1 1].

Definition three_frame_config : Config :=
  {| SILENCE_THRESHOLD := 250; SPEECH_START_FRAMES := 3; SILENCE_END_FRAMES := 16 |}.

(** Only three silence frames end a recording. *)
Definition short_silence_config : Config :=
  {| SILENCE_THRESHOLD := 250; SPEECH_START_FRAMES := 2; SILENCE_END_FRAMES := 3 |}.

(** Two speech frames, then two silence frames. *)
Definition micro_noise : list Event :=
  [Ev_frame [1] 300 1 1;
   Ev_frame [2] 1000 1 1;
   Ev_frame [3] 0 1 1;
   Ev_frame [4] 0 1 1].

(** TTS playing an echo of constant energy 50. *)
Definition quiet_echo : list Event :=
  [Ev_set_speaking true 100; Ev_frame [0] 50 101 101].

(** *** The transcription gate *)

(** What the provider call [groq_client.audio.transcriptions.create] does:
    it returns a transcription with a text, or it raises (network or provider
    error; a malformed response raises inside the same [try]). *)
Inductive ProviderReply :=
| Reply (text : string)
| Provider_raises.

Inductive GateEffect :=
| Call_provider (wav_samples : list Z)
| Log_error
| Log_warning
| Log_transcript (text : string)
| Call_on_speech_end (text : string).

Definition hallucinations : list string :=
  ["obrigado"; "muito obrigado"; "de nada"; "valeu";
   "thank you"; "thanks for watching"; "you're welcome";
   "thanks"; "bye"; "tchau"; "..."; "[silncio]"; "[pausa]"]%string.

(** [text in hallucinations] *)
Definition in_hallucinations (text : string) : bool :=
  existsb (String.eqb text) hallucinations.

(** [STSEngine._transcribe_async]. [groq_client] tells whether the module
    has a client, [on_speech_end] whether a callback is registered, [reply]
    what the provider does if it is called. The result is the list of
    effects, in order. *)
Definition _transcribe_async (groq_client on_speech_end : bool)
    (audio_data : list Z) (reply : ProviderReply) : list GateEffect :=
  if negb groq_client then [Log_error]
  else if (length audio_data =? 0)%nat then [Log_warning]
  else
    match reply with
    | Provider_raises => [Call_provider audio_data; Log_error]
    | Reply raw =>
        let text := py_lower (py_strip raw) in
        if in_hallucinations text || (String.length text <? 2)%nat
        then [Call_provider audio_data]
        else
          [Call_provider audio_data; Log_transcript text]
          ++ (if on_speech_end then [Call_on_speech_end text] else [])
    end.

(** The texts passed to [on_speech_end]. *)
Fixpoint emitted (effs : list GateEffect) : list string :=
  match effs with
  | Call_on_speech_end text :: effs' => text :: emitted effs'
  | _ :: effs' => emitted effs'
  | [] => []
  end.

(** The number of provider calls. *)
Fixpoint provider_calls (effs : list GateEffect) : nat :=
  match effs with
  | Call_provider _ :: effs' => S (provider_calls effs')
  | _ :: effs' => provider_calls effs'
  | [] => 0%nat
  end.

End STS.

(** ** Voice input in the orchestrator, [src/sts_orchestrator.py] *)

Module Orch.

(** What the orchestrator does to the outside, in program order. *)
Inductive Effect :=
| Process_user_input (text : string)   (* await self._process_user_input(text) *)
| Stop_speaking                        (* streaming_tts.stop_speaking() *)
| Log (message : string).              (* self._log(message) *)

(** A task created on the event loop by
    [asyncio.create_task(self._debounce_voice_flush(window))]: it sleeps
    until [wakes_at]; [task_done] once it has run or was cancelled. *)
Record Task := {
  wakes_at : Q;
  task_done : bool
}.

(** The attributes of [CronoSTSOrchestrator] used by the voice-input path,
    and the tasks of the event loop, oldest first. [_voice_debounce_task]
    refers to one of the loop's tasks, by its position in [_loop_tasks]: the
    attribute and the loop share the task object, and the loop keeps a task
    to which the attribute no longer refers. *)
Record Orchestrator := {
  _tts_active : bool;
  _last_interrupt_at : Q;
  _interrupt_cooldown_sec : Q;
  _debounce_window : Q;           (* CRONO_LLM_DEBOUNCE_SEC, default 0.9 *)
  _debounce_max_parts : Z;        (* CRONO_LLM_DEBOUNCE_MAX_PARTS, default 4 *)
  _debounce_short_window : Q;     (* CRONO_LLM_DEBOUNCE_SHORT_SEC, default 1.6 *)
  _voice_buffer_parts : list string;
  _voice_debounce_task : option nat;
  _loop_tasks : list Task;
  effects : list Effect
}.

(** The values [__init__] gives these attributes, with the defaults of the
    environment; no task has been created yet. *)
Definition init : Orchestrator := {|
  _tts_active := false;
  _last_interrupt_at := 0;
  _interrupt_cooldown_sec := 1.2;
  _debounce_window := 0.9;
  _debounce_max_parts := 4;
  _debounce_short_window := 1.6;
  _voice_buffer_parts := [];
  _voice_debounce_task := None;
  _loop_tasks := [];
  effects := []
|}.

Definition with_voice (o : Orchestrator) (parts : list string) (effs : list Effect)
  : Orchestrator :=
  {| _tts_active := _tts_active o;
     _last_interrupt_at := _last_interrupt_at o;
     _interrupt_cooldown_sec := _interrupt_cooldown_sec o;
     _debounce_window := _debounce_window o;
     _debounce_max_parts := _debounce_max_parts o;
     _debounce_short_window := _debounce_short_window o;
     _voice_buffer_parts := parts;
     _voice_debounce_task := _voice_debounce_task o;
     _loop_tasks := _loop_tasks o;
     effects := effs |}.

Definition with_tasks (o : Orchestrator) (task : option nat) (tasks : list Task)
  : Orchestrator :=
  {| _tts_active := _tts_active o;
     _last_interrupt_at := _last_interrupt_at o;
     _interrupt_cooldown_sec := _interrupt_cooldown_sec o;
     _debounce_window := _debounce_window o;
     _debounce_max_parts := _debounce_max_parts o;
     _debounce_short_window := _debounce_short_window o;
     _voice_buffer_parts := _voice_buffer_parts o;
     _voice_debounce_task := task;
     _loop_tasks := tasks;
     effects := effects o |}.

Definition with_interrupt (o : Orchestrator) (active : bool) (last : Q)
    (effs : list Effect) : Orchestrator :=
  {| _tts_active := active;
     _last_interrupt_at := last;
     _interrupt_cooldown_sec := _interrupt_cooldown_sec o;
     _debounce_window := _debounce_window o;
     _debounce_max_parts := _debounce_max_parts o;
     _debounce_short_window := _debounce_short_window o;
     _voice_buffer_parts := _voice_buffer_parts o;
     _voice_debounce_task := _voice_debounce_task o;
     _loop_tasks := _loop_tasks o;
     effects := effs |}.

(** *** Debounce *)

(** [CronoSTSOrchestrator._flush_voice_buffer] *)
Definition _flush_voice_buffer (o : Orchestrator) : Orchestrator :=
  match _voice_buffer_parts o with
  | [] => o
  | parts =>
      let merged := py_strip (py_join " " parts) in
      let o := with_voice o [] (effects o) in
      if str_truthy merged
      then with_voice o (_voice_buffer_parts o) (effects o ++ [Process_user_input merged])
      else o
  end.

(** [text.endswith("...") or text.endswith(<second literal>)]. The second
    literal of the source contains U+20AC, which no string of the model
    contains, so that disjunct is [false] on every modelled string. *)
Definition trailing_marker (text : string) : bool :=
  py_endswith text "..." || false.

(** The window chosen by [_enqueue_voice_input] for a fragment. *)
Definition window_for (o : Orchestrator) (text : string) : Q :=
  let short_tokens := (length (py_split text) <=? 3)%nat in
  let trailing := trailing_marker text in
  if short_tokens || trailing then _debounce_short_window o else _debounce_window o.

(** A task that has run or was cancelled. *)
Definition finished (t : Task) : Task :=
  {| wakes_at := wakes_at t; task_done := true |}.

(** [task.cancel()] on the loop's task at position [i]: its sleep raises
    [CancelledError], which [_debounce_voice_flush] answers by returning. *)
Fixpoint cancel (tasks : list Task) (i : nat) : list Task :=
  match tasks, i with
  | [], _ => []
  | t :: tasks', O => finished t :: tasks'
  | t :: tasks', S i' => t :: cancel tasks' i'
  end.

(** [if self._voice_debounce_task and not self._voice_debounce_task.done():
    self._voice_debounce_task.cancel()] *)
Definition cancel_pending (tasks : list Task) (task : option nat) : list Task :=
  match task with
  | Some i =>
      match nth_error tasks i with
      | Some t => if negb (task_done t) then cancel tasks i else tasks
      | None => tasks
      end
  | None => tasks
  end.

(** [CronoSTSOrchestrator._enqueue_voice_input], started at time [now]. The
    flush at the cap returns without touching the pending task. *)
Definition _enqueue_voice_input (o : Orchestrator) (text : string) (now : Q)
  : Orchestrator :=
  let text := py_strip text in
  if negb (str_truthy text) then o
  else if Qle_bool (_debounce_window o) 0 then
    with_voice o (_voice_buffer_parts o) (effects o ++ [Process_user_input text])
  else
    let window := window_for o text in
    let o := with_voice o (_voice_buffer_parts o ++ [text]) (effects o) in
    if _debounce_max_parts o <=? Z.of_nat (length (_voice_buffer_parts o))
    then _flush_voice_buffer o
    else
      let o := with_tasks o (_voice_debounce_task o)
                 (cancel_pending (_loop_tasks o) (_voice_debounce_task o)) in
      with_tasks o (Some (length (_loop_tasks o)))
        (_loop_tasks o ++ [{| wakes_at := (now + window)%Q; task_done := false |}]).

(** A sleeping task whose wake time the clock has reached. *)
Definition due (now : Q) (t : Task) : bool :=
  negb (task_done t) && Qle_bool (wakes_at t) now.

(** What the loop does to a task at time [now]. *)
Definition wake (now : Q) (t : Task) : Task :=
  if due now t then finished t else t.

(** [CronoSTSOrchestrator._debounce_voice_flush]: the event loop resumes
    every sleeping task of its own whose wake time the clock has reached,
    whether or not [_voice_debounce_task] still refers to it; each of them
    then runs [_flush_voice_buffer] and is done (the pipeline call is one
    recorded effect). *)
Definition wake_due (o : Orchestrator) (now : Q) : Orchestrator :=
  let woken := filter (due now) (_loop_tasks o) in
  let o := with_tasks o (_voice_debounce_task o) (map (wake now) (_loop_tasks o)) in
  fold_left (fun o _ => _flush_voice_buffer o) woken o.

(** What the event loop sees, in time order: a transcript fragment arrives,
    or time passes with nothing arriving. A timer that is due runs first. *)
Inductive Event :=
| Fragment (now : Q) (text : string)
| Idle_until (now : Q).

Definition step (o : Orchestrator) (ev : Event) : Orchestrator :=
  match ev with
  | Fragment now text => _enqueue_voice_input (wake_due o now) text now
  | Idle_until now => wake_due o now
  end.

Definition run (o : Orchestrator) (evs : list Event) : Orchestrator :=
  fold_left step evs o.

(** The utterances forwarded to the intent pipeline, oldest first. *)
Fixpoint forwarded (effs : list Effect) : list string :=
  match effs with
  | Process_user_input text :: effs' => text :: forwarded effs'
  | _ :: effs' => forwarded effs'
  | [] => []
  end.

(** No sleeping task of the loop is due at time [now]. *)
Definition timer_quiet (o : Orchestrator) (now : Q) : bool :=
  forallb (fun t => task_done t || Qltb now (wakes_at t)) (_loop_tasks o).

(** Every task of [tasks] but the one at position [task], if any, is
    done. *)
Fixpoint others_done (tasks : list Task) (task : option nat) : bool :=
  match tasks with
  | [] => true
  | t :: tasks' =>
      match task with
      | Some O => forallb task_done tasks'
      | Some (S i) => task_done t && others_done tasks' (Some i)
      | None => task_done t && others_done tasks' None
      end
  end.

(** At most one debounce timer is pending: every task of the loop to which
    [_voice_debounce_task] does not refer is done. *)
Definition single_timer (o : Orchestrator) : bool :=
  others_done (_loop_tasks o) (_voice_debounce_task o).

(** Fragments, given with their arrival times, that each arrive before the
    timer started by the previous one fires, the timer of the last one
    having fired by time [T]. *)
Fixpoint within_window (o : Orchestrator) (frags : list (Q * string)) (T : Q) : Prop :=
  match frags with
  | [] => True
  | (t, text) :: rest =>
      match rest with
      | [] => (t + window_for o (py_strip text) <= T)%Q
      | (t', _) :: _ =>
          (t' < t + window_for o (py_strip text))%Q /\ within_window o rest T
      end
  end.

Definition arrivals (frags : list (Q * string)) : list Event :=
  map (fun f => Fragment (fst f) (snd f)) frags.

(** The fragments of the coalescing example, 200 ms apart. *)
Definition oi_tudo_bem : list (Q * string) :=
  [(0%Q, "oi"%string); (0.2%Q, "tudo"%string); (0.4%Q, "bem?"%string)].

(** A later burst, after the timer of the example has fired at time 2. *)
Definition after_oi_tudo_bem : Orchestrator :=
  run init (arrivals oi_tudo_bem ++ [Idle_until 2]).

Definition e_voce : list (Q * string) :=
  [(3%Q, "e"%string); (3.2%Q, "voce?"%string)].

(** Four fragments reach the cap: the fourth is flushed with the others in
    its own call, which leaves the timer started by the third (due at time
    1.8) pending. *)
Definition after_cap : Orchestrator :=
  run init [Fragment 0 "um"; Fragment 0.1 "dois"; Fragment 0.2 "tres";
            Fragment 0.3 "quatro"].

(** A burst whose second fragment arrives after time 1.8. *)
Definition cinco_seis : list (Q * string) :=
  [(1%Q, "cinco"%string); (1.9%Q, "seis"%string)].

(** *** Interrupt *)

Inductive Outcome := Returned | Raised.

(** [CronoSTSOrchestrator._on_interrupt]. [engine_is_speaking] is
    [self.sts_engine.is_speaking], [now] the clock read, and
    [stop_raises] tells whether the external [stop_speaking()] raises. *)
Definition _on_interrupt (o : Orchestrator) (engine_is_speaking : bool) (now : Q)
    (stop_raises : bool) : Orchestrator * Outcome :=
  if Qltb (now - _last_interrupt_at o) (_interrupt_cooldown_sec o) then (o, Returned)
  else
    let o := with_interrupt o (_tts_active o) now (effects o) in
    if negb (_tts_active o || engine_is_speaking) then (o, Returned)
    else
      let o := with_interrupt o (_tts_active o) (_last_interrupt_at o)
                 (effects o ++ [Stop_speaking]) in
      if stop_raises then (o, Raised)
      else
        (with_interrupt o (_tts_active o) (_last_interrupt_at o)
           (effects o ++ [Log " Interrupcao detectada!"]), Returned).

(** [STSEngine.request_interrupt] on an engine whose [on_interrupt] is the
    orchestrator's [_on_interrupt] (as wired in the orchestrator's
    constructor). *)
Definition request_interrupt (e : STS.Engine) (o : Orchestrator) (now : Q)
    (stop_raises : bool) : STS.Engine * Orchestrator * Outcome :=
  let e := STS.request_interrupt e in
  if STS.on_interrupt e then
    let '(o, r) := _on_interrupt o (STS.is_speaking e) now stop_raises in (e, o, r)
  else (e, o, Returned).

(** [TaskOrchestrator._validate], the second phase of [execute_pipeline]: a
    set [interrupt_requested] is consumed and the request in hand dropped
    ([False]). *)
Definition _validate (e : STS.Engine) : STS.Engine * bool :=
  if STS.interrupt_requested e
  then (STS.with_out e false (STS._total_frames e) (STS._detected_speech_count e)
          (STS.last_energy e) (STS.effects e), false)
  else (e, true).

(** An orchestrator whose TTS is playing. *)
Definition playing : Orchestrator := with_interrupt init true 0 [].

(** Number of [stop_speaking()] calls. *)
Fixpoint stops (effs : list Effect) : nat :=
  match effs with
  | Stop_speaking :: effs' => S (stops effs')
  | _ :: effs' => stops effs'
  | [] => 0%nat
  end.

End Orch.

(** ** Further vocabulary for runs of the engine *)

Module Runs.

Import STS.

(** Number of [self.on_interrupt()] calls. *)
Fixpoint interrupts (effs : list Effect) : nat :=
  match effs with
  | Call_on_interrupt :: effs' => S (interrupts effs')
  | _ :: effs' => interrupts effs'
  | [] => 0%nat
  end.

(** Number of [on_speech_start] calls handed to the thread pool. *)
Fixpoint speech_starts (effs : list Effect) : nat :=
  match effs with
  | Submit_on_speech_start :: effs' => S (speech_starts effs')
  | _ :: effs' => speech_starts effs'
  | [] => 0%nat
  end.

(** The event carries a frame that is processed (not an empty read). *)
Definition processed_frame (ev : Event) : bool :=
  match ev with
  | Ev_frame frame _ _ _ => negb (length frame =? 0)%nat
  | _ => false
  end.

(** The event is a frame whose energy is at most [level]. *)
Definition frame_up_to (level : Q) (ev : Event) : Prop :=
  exists frame energy t_cool t_guard,
    ev = Ev_frame frame energy t_cool t_guard /\ (energy <= level)%Q.

(** A buffer the finalize path may submit: more than 5 frames, at most the
    cap. *)
Definition submittable (buf : list Frame) : Prop :=
  (5 < length buf <= MAX_RECORDING_FRAMES)%nat.

(** An idle engine in a quiet room: listening, no TTS, no cooldown, not
    recording, nothing buffered or emitted. *)
Definition quiet_idle (st : Engine) : Prop :=
  is_speaking st = false /\ is_listening st = true
  /\ Qtruthy (_ignore_until st) = false
  /\ _is_recording st = false /\ audio_buffer st = []
  /\ _speech_frames st = 0 /\ effects st = [].

(** The step takes the engine from not recording to recording. *)
Definition enters_recording (st st' : Engine) : bool :=
  negb (_is_recording st) && _is_recording st'.

(** Two loud frames on a new engine: the second one starts a recording. *)
Definition speech_onset : list Event :=
  [Ev_frame [1] 300 1 1; Ev_frame [2] 1000 1 1].

(** 499 more loud frames, numbered from 3. *)
Definition long_utterance : list Event :=
  map (fun n => Ev_frame [Z.of_nat n] 1000 1 1) (seq 3 499).

(** A quiet room: an empty read, then frames at energies up to 250. *)
Definition room_tone : list Event :=
  [Ev_frame [] 0 1 1; Ev_frame [1] 123 2 2; Ev_frame [2] 250 3 3;
   Ev_frame [3] 123 4 4; Ev_frame [4] 7 5 5].

(** A new engine on which TTS has started at time 100. *)
Definition tts_started : Engine := set_speaking init true 100.

End Runs.

(** ** Further vocabulary for runs of the orchestrator *)

Module Voice.

Import Orch.

(** The fragments [_enqueue_voice_input] accepts from a run of events, as it
    stores them: stripped, the empty ones left out. *)
Definition accepted (evs : list Event) : list string :=
  flat_map (fun ev =>
              match ev with
              | Fragment _ text =>
                  if str_truthy (py_strip text) then [py_strip text] else []
              | Idle_until _ => []
              end) evs.

(** All the transcript text the orchestrator holds or has passed on, in
    order: the forwarded utterances, then the pending fragments. *)
Definition transcript (o : Orchestrator) : string :=
  py_join " " (forwarded (effects o) ++ _voice_buffer_parts o).

(** The pending list as [_enqueue_voice_input] leaves it: stripped non-empty
    fragments, and none at all when the debounce is switched off. *)
Definition buffer_ok (o : Orchestrator) : Prop :=
  Forall (fun p => clean (list_ascii_of_string p)) (_voice_buffer_parts o)
  /\ (Qle_bool (_debounce_window o) 0 = true -> _voice_buffer_parts o = []).

(** The number of fragments the pending list can hold before a flush is
    forced. *)
Definition cap (o : Orchestrator) : Z := Z.max 1 (_debounce_max_parts o).

(** The attributes [_on_user_speech_end] works on; [_event_loop] tells
    whether the event loop has been set. *)
Record Listener := {
  _voice_active : bool;
  _recent_transcripts : list string;    (* deque(maxlen=8) *)
  _event_loop : bool
}.

(** [CronoSTSOrchestrator._on_user_speech_end]: the new attributes and the
    text with which [_enqueue_voice_input] is scheduled on the event loop,
    if it is. *)
Definition _on_user_speech_end (s : Listener) (text : string)
  : Listener * option string :=
  if negb (str_truthy text) || negb (str_truthy (py_strip text)) then
    ({| _voice_active := false;
        _recent_transcripts := _recent_transcripts s;
        _event_loop := _event_loop s |}, None)
  else
    let recent := deque_append 8 (_recent_transcripts s) (py_strip text) in
    ({| _voice_active := false;
        _recent_transcripts := recent;
        _event_loop := _event_loop s |},
     if _event_loop s then Some text else None).

(** An orchestrator with the debounce switched off
    ([CRONO_LLM_DEBOUNCE_SEC=0]). *)
Definition no_debounce : Orchestrator := {|
  _tts_active := false;
  _last_interrupt_at := 0;
  _interrupt_cooldown_sec := 1.2;
  _debounce_window := 0;
  _debounce_max_parts := 4;
  _debounce_short_window := 1.6;
  _voice_buffer_parts := [];
  _voice_debounce_task := None;
  _loop_tasks := [];
  effects := []
|}.

(** Fragments, one of them blank, with pauses long and short, and a burst of
    five that reaches the cap. *)
Definition chatter : list Event :=
  [Fragment 0 "oi"; Fragment 0.2 "  "; Idle_until 0.3; Fragment 0.4 " tudo bem ";
   Idle_until 4;
   Fragment 5 "um"; Fragment 5.1 "dois"; Fragment 5.2 "tres"; Fragment 5.3 "quatro";
   Fragment 5.4 "cinco"].

(** A listener with an event loop. *)
Definition listener : Listener :=
  {| _voice_active := true; _recent_transcripts := []; _event_loop := true |}.

(** Successive calls of [_on_interrupt], each with the engine's
    [is_speaking], its clock read and whether [stop_speaking()] raises. *)
Fixpoint interrupt_calls (o : Orchestrator) (calls : list (bool * Q * bool))
  : Orchestrator :=
  match calls with
  | [] => o
  | (spk, now, raises) :: calls' =>
      interrupt_calls (fst (_on_interrupt o spk now raises)) calls'
  end.

End Voice.

(** ** Listening mode: stand-by, snooze and push-to-talk,
       [src/sts_orchestrator.py] *)

Module Mode.

(** Which of the methods probed with [hasattr] the UI object has. *)
Record Ui := {
  has_set_standby_state : bool;
  has_set_snooze_state : bool;
  has_set_ptt_state : bool
}.

(** Calls that leave the orchestrator. *)
Inductive Effect :=
| Ui_set_standby_state (state : bool)
| Ui_set_snooze_state (state : bool)
| Ui_set_ptt_state (state : bool)
| Speak (text : string)
| Log (message : string).

(** The attributes of [CronoSTSOrchestrator] used by the mode setters and
    the push-to-talk hooks. [sts_engine] is the engine singleton, which the
    capture thread and the TTS wrappers also act on. *)
Record Orchestrator := {
  ui : option Ui;
  standby : bool;
  snooze : bool;
  _ptt_enabled : bool;
  _ptt_is_down : bool;
  _ptt_key : string;
  last_interaction_time : Q;
  sts_engine : STS.Engine;
  effects : list Effect
}.

Definition with_mode (o : Orchestrator) (sb sn : bool) : Orchestrator :=
  {| ui := ui o; standby := sb; snooze := sn;
     _ptt_enabled := _ptt_enabled o; _ptt_is_down := _ptt_is_down o;
     _ptt_key := _ptt_key o; last_interaction_time := last_interaction_time o;
     sts_engine := sts_engine o; effects := effects o |}.

Definition with_ptt (o : Orchestrator) (enabled down : bool) : Orchestrator :=
  {| ui := ui o; standby := standby o; snooze := snooze o;
     _ptt_enabled := enabled; _ptt_is_down := down;
     _ptt_key := _ptt_key o; last_interaction_time := last_interaction_time o;
     sts_engine := sts_engine o; effects := effects o |}.

Definition with_engine (o : Orchestrator) (e : STS.Engine) : Orchestrator :=
  {| ui := ui o; standby := standby o; snooze := snooze o;
     _ptt_enabled := _ptt_enabled o; _ptt_is_down := _ptt_is_down o;
     _ptt_key := _ptt_key o; last_interaction_time := last_interaction_time o;
     sts_engine := e; effects := effects o |}.

Definition with_time (o : Orchestrator) (t : Q) : Orchestrator :=
  {| ui := ui o; standby := standby o; snooze := snooze o;
     _ptt_enabled := _ptt_enabled o; _ptt_is_down := _ptt_is_down o;
     _ptt_key := _ptt_key o; last_interaction_time := t;
     sts_engine := sts_engine o; effects := effects o |}.

Definition emit (o : Orchestrator) (e : Effect) : Orchestrator :=
  {| ui := ui o; standby := standby o; snooze := snooze o;
     _ptt_enabled := _ptt_enabled o; _ptt_is_down := _ptt_is_down o;
     _ptt_key := _ptt_key o; last_interaction_time := last_interaction_time o;
     sts_engine := sts_engine o; effects := effects o ++ [e] |}.

(** [self.ui and hasattr(self.ui, <method>)] *)
Definition ui_has (o : Orchestrator) (method : Ui -> bool) : bool :=
  match ui o with
  | Some u => method u
  | None => false
  end.

(** [self._log(message)] *)
Definition _log (o : Orchestrator) (message : string) : Orchestrator :=
  emit o (Log message).

(** [self._speak(text)]: nothing for an empty text; what it does with a
    text (logging, memory, the TTS call) is one recorded effect. *)
Definition _speak (o : Orchestrator) (text : string) : Orchestrator :=
  if str_truthy text then emit o (Speak text) else o.

(** [try: self.last_interaction_time = asyncio.get_event_loop().time()
    except Exception: pass]; [loop_time] is [None] when the read raises. *)
Definition touch (o : Orchestrator) (loop_time : option Q) : Orchestrator :=
  match loop_time with
  | Some t => with_time o t
  | None => o
  end.

(** The two messages of [set_snooze]; the first holds U+00E3. *)
Definition snooze_on_message : string :=
  ("Modo soneca ativado. Vou pausar respostas e a Vis"
   ++ String (ascii_of_nat 227)
        "o, mas posso acordar com seu comando.")%string.

Definition snooze_off_message : string :=
  "Modo soneca desativado. Estou de volta.".

Section Operations.

(** Whether the [keyboard] module could be imported (the module-level
    [kb]). *)
Variable kb : bool.

Variable cfg : STS.Config.

(** [CronoSTSOrchestrator._apply_listening_mode] *)
Definition _apply_listening_mode (o : Orchestrator) : Orchestrator :=
  if standby o then with_engine o (STS.set_listening (sts_engine o) true)
  else if snooze o then with_engine o (STS.set_listening (sts_engine o) true)
  else if _ptt_enabled o
  then with_engine o (STS.set_listening (sts_engine o) (_ptt_is_down o))
  else with_engine o (STS.set_listening (sts_engine o) true).

(** [CronoSTSOrchestrator.set_standby]; its [speak] argument is not used by
    the body. *)
Definition set_standby (o : Orchestrator) (enabled : bool) (loop_time : option Q)
  : Orchestrator :=
  let o := with_mode o enabled (snooze o) in
  let o := if standby o then with_mode o (standby o) false else o in
  let o := _apply_listening_mode o in
  let o := if ui_has o has_set_standby_state
           then emit o (Ui_set_standby_state (standby o)) else o in
  let o := if ui_has o has_set_snooze_state && standby o
           then emit o (Ui_set_snooze_state false) else o in
  touch o loop_time.

(** [CronoSTSOrchestrator.set_snooze] *)
Definition set_snooze (o : Orchestrator) (enabled speak : bool)
    (loop_time : option Q) : Orchestrator :=
  let o := with_mode o (standby o) enabled in
  let o := if snooze o then with_mode o false (snooze o) else o in
  let o := if ui_has o has_set_snooze_state
           then emit o (Ui_set_snooze_state (snooze o)) else o in
  let o := if ui_has o has_set_standby_state && snooze o
           then emit o (Ui_set_standby_state false) else o in
  let o := _apply_listening_mode o in
  let o := touch o loop_time in
  if speak then
    if snooze o then _speak o snooze_on_message else _speak o snooze_off_message
  else o.

(** [CronoSTSOrchestrator._on_ptt_down] *)
Definition _on_ptt_down (o : Orchestrator) : Orchestrator :=
  if negb (_ptt_enabled o) then o
  else if standby o || snooze o then o
  else if _ptt_is_down o then o
  else
    let o := with_ptt o (_ptt_enabled o) true in
    let o := _apply_listening_mode o in
    _log o (" PTT: ouvindo (" ++ _ptt_key o ++ " pressionado)").

(** [CronoSTSOrchestrator._on_ptt_up] *)
Definition _on_ptt_up (o : Orchestrator) : Orchestrator :=
  if negb (_ptt_enabled o) then o
  else if negb (_ptt_is_down o) then o
  else
    let o := with_ptt o (_ptt_enabled o) false in
    let o := _apply_listening_mode o in
    _log o (" PTT: mudo (" ++ _ptt_key o ++ " liberado)").

(** [CronoSTSOrchestrator.set_ptt_enabled] *)
Definition set_ptt_enabled (o : Orchestrator) (enabled speak : bool) : Orchestrator :=
  if enabled && negb kb then
    let o := with_ptt o false false in
    let o := if ui_has o has_set_ptt_state
             then emit o (Ui_set_ptt_state false) else o in
    _speak o "Nao consigo ativar PTT sem o modulo keyboard."
  else
    let o := with_ptt o enabled (_ptt_is_down o) in
    let o := if negb (_ptt_enabled o) then with_ptt o (_ptt_enabled o) false else o in
    let o := _apply_listening_mode o in
    let o := if ui_has o has_set_ptt_state
             then emit o (Ui_set_ptt_state (_ptt_enabled o)) else o in
    let o := _log o ("PTT " ++ (if _ptt_enabled o then "ativado" else "desativado")) in
    if speak
    then _speak o (if _ptt_enabled o then "PTT ativado." else "PTT desativado.")
    else o.

(** What can happen to the orchestrator and its engine: a mode setter or a
    key hook runs, the capture thread processes a frame, or a TTS wrapper
    calls the engine's [set_speaking]. *)
Inductive Event :=
| Set_standby (enabled : bool) (loop_time : option Q)
| Set_snooze (enabled speak : bool) (loop_time : option Q)
| Ptt_down
| Ptt_up
| Set_ptt_enabled (enabled speak : bool)
| Capture (frame : STS.Frame) (energy t_cool t_guard : Q)
| Tts (speaking : bool) (now : Q).

Definition step (o : Orchestrator) (ev : Event) : Orchestrator :=
  match ev with
  | Set_standby enabled loop_time => set_standby o enabled loop_time
  | Set_snooze enabled speak loop_time => set_snooze o enabled speak loop_time
  | Ptt_down => _on_ptt_down o
  | Ptt_up => _on_ptt_up o
  | Set_ptt_enabled enabled speak => set_ptt_enabled o enabled speak
  | Capture frame energy t_cool t_guard =>
      with_engine o (STS.audio_loop_step cfg (sts_engine o) frame energy t_cool t_guard)
  | Tts speaking now => with_engine o (STS.set_speaking (sts_engine o) speaking now)
  end.

Definition run (o : Orchestrator) (evs : list Event) : Orchestrator :=
  fold_left step evs o.

(** The attributes the listening mode is made of. *)
Definition core (o : Orchestrator) : bool * bool * bool * bool * STS.Engine :=
  (standby o, snooze o, _ptt_enabled o, _ptt_is_down o, sts_engine o).



End Operations.

(** The attributes as [__init__] leaves them: no stand-by, no snooze,
    push-to-talk enabled if the [keyboard] module is there and the hooks
    could be registered, the key up, and the listening mode applied to a new
    engine with its callbacks assigned. *)
Definition init (kb registered : bool) (u : option Ui) (key : string) (now : Q)
  : Orchestrator :=
  _apply_listening_mode
    {| ui := u; standby := false; snooze := false;
       _ptt_enabled := kb && registered; _ptt_is_down := false;
       _ptt_key := key; last_interaction_time := now;
       sts_engine := STS.with_callbacks STS.init true true; effects := [] |}.

(** Push-to-talk: the key goes down, two frames start a recording, a third
    one is recorded. *)
Definition held_key_speech : list Event :=
  [Ptt_down;
   Capture [1] 300 1 1; Capture [2] 1000 1 1; Capture [3] 1000 1 1].

End Mode.

(** ** Timer durations, [src/sts_orchestrator.py] *)

Module Timer.

(** [str(n)] for an [int], as an f-string prints it. *)
Definition py_str (n : Z) : string := NilZero.string_of_int (Z.to_int n).

(** [("s" if n != 1 else "")] *)
Definition plural (n : Z) : string := if negb (n =? 1) then "s" else "".

(** [CronoSTSOrchestrator._human_duration_pt_br], on the [int] its caller
    passes. *)
Definition _human_duration_pt_br (total_seconds : Z) : string :=
  let total_seconds := Z.max 0 total_seconds in
  let hours := total_seconds / 3600 in
  let minutes := (total_seconds mod 3600) / 60 in
  let seconds := total_seconds mod 60 in
  let parts : list string := [] in
  let parts :=
    if negb (hours =? 0)
    then parts ++ [py_str hours ++ " hora" ++ plural hours]%string else parts in
  let parts :=
    if negb (minutes =? 0)
    then parts ++ [py_str minutes ++ " minuto" ++ plural minutes]%string else parts in
  let parts :=
    if (length parts =? 0)%nat && negb (seconds =? 0)
    then parts ++ [py_str seconds ++ " segundo" ++ plural seconds]%string else parts in
  if negb (length parts =? 0)%nat then py_join " e " parts else "0 segundos".

End Timer.

(** * Properties *)

(** ** Facts about the helpers *)

Lemma Qltb_lt (a b : Q) : Qltb a b = true <-> (a < b)%Q.
Proof.
  unfold Qltb. rewrite negb_true_iff.
  split; intro H.
  - apply Qnot_le_lt. intro L. apply Qle_bool_iff in L. congruence.
  - destruct (Qle_bool b a) eqn:E; [|reflexivity].
    apply Qle_bool_iff in E. exfalso. apply (Qlt_not_le _ _ H E).
Qed.

Lemma Qltb_ge (a b : Q) : Qltb a b = false <-> (b <= a)%Q.
Proof.
  unfold Qltb. rewrite negb_false_iff. apply Qle_bool_iff.
Qed.

Lemma py_max_Qmax (a b : Q) : (py_max a b == Qmax a b)%Q.
Proof.
  unfold py_max. destruct (Qltb a b) eqn:E.
  - apply Qltb_lt in E. symmetry. apply Q.max_r. apply Qlt_le_weak, E.
  - apply Qltb_ge in E. symmetry. apply Q.max_l, E.
Qed.

Lemma py_max_ge_l (a b : Q) : (a <= py_max a b)%Q.
Proof. rewrite py_max_Qmax. apply Q.le_max_l. Qed.

Lemma py_max_ge_r (a b : Q) : (b <= py_max a b)%Q.
Proof. rewrite py_max_Qmax. apply Q.le_max_r. Qed.

(** *** Rounding *)

Lemma pow2_pos (e : Z) : (0 < pow2 e)%Q.
Proof. unfold pow2. apply Qpower_0_lt. reflexivity. Qed.

Lemma pow2_plus (a b : Z) : (pow2 (a + b) == pow2 a * pow2 b)%Q.
Proof. unfold pow2. apply Qpower_plus. discriminate. Qed.

Lemma pow2_Z (a : Z) : 0 <= a -> (pow2 a == inject_Z (2 ^ a))%Q.
Proof. intros H. unfold pow2. rewrite Zpower_Qpower by exact H. reflexivity. Qed.

Lemma floor_log2_le (q : Q) : (0 < q)%Q -> (pow2 (floor_log2 q) <= q)%Q.
Proof.
  intros Hq. unfold floor_log2.
  set (e0 := Z.log2 (Qnum q) - Z.log2 (Z.pos (Qden q))).
  destruct (Qle_bool (pow2 e0) q) eqn:E; [apply Qle_bool_iff; exact E|].
  destruct q as [n d]. cbn [Qnum Qden] in *.
  assert (Hn : 0 < n) by (unfold Qlt in Hq; cbn in Hq; lia).
  set (a := Z.log2 n) in *. set (b := Z.log2 (Z.pos d)) in *.
  assert (Ha : 2 ^ a <= n) by (apply Z.log2_spec; exact Hn).
  assert (Hb : Z.pos d < 2 ^ (b + 1)).
  { replace (b + 1) with (Z.succ b) by lia. apply Z.log2_spec. lia. }
  assert (Hb0 : 0 <= b) by apply Z.log2_nonneg.
  assert (Ha0 : 0 <= a) by apply Z.log2_nonneg.
  (* pow2 (e0 - 1) * d <= pow2 (e0-1) * 2^(b+1) = 2^a <= n *)
  assert (P : (pow2 (e0 - 1) * pow2 (b + 1) == pow2 a)%Q).
  { rewrite <- pow2_plus. unfold e0. replace (a - b - 1 + (b + 1)) with a by lia.
    reflexivity. }
  assert (D : (inject_Z (Z.pos d) <= pow2 (b + 1))%Q).
  { rewrite pow2_Z by lia. rewrite <- Zle_Qle. lia. }
  assert (N : (pow2 a <= inject_Z n)%Q).
  { rewrite pow2_Z by lia. rewrite <- Zle_Qle. exact Ha. }
  assert (Q1 : (pow2 (e0 - 1) * inject_Z (Z.pos d) <= inject_Z n)%Q).
  { eapply Qle_trans; [|exact N]. rewrite <- P.
    apply Qmult_le_l; [apply pow2_pos | exact D]. }
  assert (Eq : (n # d == inject_Z n / inject_Z (Z.pos d))%Q) by apply Qmake_Qdiv.
  rewrite Eq. apply Qle_shift_div_l; [reflexivity | exact Q1].
Qed.

Lemma round_half_even_err (x : Q) :
  (Qabs (inject_Z (round_half_even x) - x) <= 1 # 2)%Q.
Proof.
  unfold round_half_even.
  pose proof (Qfloor_le x) as L. pose proof (Qlt_floor x) as U.
  set (f := Qfloor x) in *.
  rewrite inject_Z_plus in U. change (inject_Z 1) with 1%Q in U.
  apply Qabs_Qle_condition.
  destruct (x - inject_Z f ?= 1 # 2)%Q eqn:E.
  - apply Qeq_alt in E.
    destruct (Z.even f);
      [|rewrite inject_Z_plus; change (inject_Z 1) with 1%Q]; lra.
  - apply Qlt_alt in E. lra.
  - apply Qgt_alt in E. rewrite inject_Z_plus. change (inject_Z 1) with 1%Q. lra.
Qed.

Lemma round_half_even_nonneg (x : Q) : (0 <= x)%Q -> 0 <= round_half_even x.
Proof.
  intros H. unfold round_half_even.
  assert (F : 0 <= Qfloor x).
  { change 0 with (Qfloor 0). apply Qfloor_resp_le. exact H. }
  destruct (_ ?= _)%Q; [destruct (Z.even _)| |]; lia.
Qed.

Lemma Qabs_pos_of_nonzero (q : Q) : ~ (q == 0)%Q -> (0 < Qabs q)%Q.
Proof.
  intros H. apply Qabs_case; intros L.
  - apply Qle_lteq in L. destruct L as [L|L]; [exact L|]. exfalso. apply H. symmetry. exact L.
  - apply Qle_lteq in L. destruct L as [L|L]; [lra|]. exfalso. apply H. exact L.
Qed.

(** The rounding error: half a unit in the last place. *)
Lemma fl_error (q : Q) :
  (Qabs (fl q - q) <= unit_roundoff * Qabs q + eta)%Q.
Proof.
  assert (Hu : (0 < unit_roundoff)%Q) by apply pow2_pos.
  assert (He : (0 < eta)%Q) by apply pow2_pos.
  unfold fl. destruct (Qeq_bool q 0) eqn:Z0.
  { apply Qeq_bool_iff in Z0. rewrite Z0.
    change (Qabs (0 - 0)) with 0%Q. change (Qabs 0) with 0%Q. lra. }
  apply Qeq_bool_neq in Z0.
  pose proof (Qabs_pos_of_nonzero q Z0) as Hq.
  set (e := Z.max (floor_log2 (Qabs q)) (-1022)).
  set (ulp := pow2 (e - 52)).
  assert (Hulp : (0 < ulp)%Q) by apply pow2_pos.
  rewrite Qred_correct.
  pose proof (round_half_even_err (q / ulp)) as R.
  set (r := inject_Z (round_half_even (q / ulp))) in *.
  assert (E1 : (r * ulp - q == (r - q / ulp) * ulp)%Q) by (field; lra).
  rewrite E1, Qabs_Qmult, (Qabs_pos ulp) by lra.
  assert (H2 : (ulp * (1 # 2) <= unit_roundoff * Qabs q + eta)%Q).
  { assert (Eh : (ulp * (1 # 2) == pow2 (e - 53))%Q).
    { unfold ulp. change (1 # 2)%Q with (pow2 (-1)). rewrite <- pow2_plus.
      replace (e - 52 + -1) with (e - 53) by lia. reflexivity. }
    rewrite Eh. unfold e.
    destruct (Z.max_spec (floor_log2 (Qabs q)) (-1022)) as [[_ ->]|[_ ->]].
    - change (pow2 (-1022 - 53)) with eta.
      assert (0 <= unit_roundoff * Qabs q)%Q by (apply Qmult_le_0_compat; lra). lra.
    - replace (floor_log2 (Qabs q) - 53) with (-53 + floor_log2 (Qabs q)) by lia.
      rewrite pow2_plus. fold unit_roundoff.
      pose proof (floor_log2_le (Qabs q) Hq) as F.
      assert (unit_roundoff * pow2 (floor_log2 (Qabs q)) <= unit_roundoff * Qabs q)%Q
        by (apply Qmult_le_l; assumption).
      lra. }
  eapply Qle_trans; [|exact H2].
  rewrite (Qmult_comm ulp). apply Qmult_le_compat_r; lra.
Qed.

Lemma fl_nonneg (q : Q) : (0 <= q)%Q -> (0 <= fl q)%Q.
Proof.
  intros H. unfold fl. destruct (Qeq_bool q 0); [lra|].
  rewrite Qred_correct.
  set (ulp := pow2 _). assert (Hulp : (0 < ulp)%Q) by apply pow2_pos.
  apply Qmult_le_0_compat; [|lra].
  change 0%Q with (inject_Z 0). rewrite <- Zle_Qle.
  apply round_half_even_nonneg. apply Qle_shift_div_l; lra.
Qed.

Lemma fl_bounds (q : Q) :
  (0 <= q)%Q ->
  (q * (1 - unit_roundoff) - eta <= fl q <= q * (1 + unit_roundoff) + eta)%Q.
Proof.
  intros H. pose proof (fl_error q) as E.
  rewrite (Qabs_pos q H) in E. apply Qabs_Qle_condition in E. lra.
Qed.

Lemma unit_roundoff_val : unit_roundoff = (1 # 9007199254740992)%Q.
Proof. reflexivity. Qed.

Lemma eta_small : (0 < eta)%Q /\ (eta <= 1 # 1000000000000000000000000000000)%Q.
Proof. split; [apply pow2_pos|]. vm_compute. discriminate. Qed.

Lemma deque_append_nonempty {A : Type} (n : nat) (d : list A) (x : A) :
  n <> 0%nat -> deque_append n d x <> [].
Proof.
  intros Hn. unfold deque_append.
  destruct (Nat.eqb_spec n 0); [contradiction|].
  destruct (n <=? length d)%nat; intro H; apply app_eq_nil in H; destruct H; discriminate.
Qed.

Lemma deque_append_length {A : Type} (n : nat) (d : list A) (x : A) :
  n <> 0%nat -> (length d < n)%nat ->
  deque_append n d x = d ++ [x].
Proof.
  intros Hn Hl. unfold deque_append.
  destruct (Nat.eqb_spec n 0); [contradiction|].
  destruct (Nat.leb_spec n (length d)); [lia | reflexivity].
Qed.

Lemma app_cons_not_nil_self {A : Type} (l : list A) (x : A) : l ++ [x] <> l.
Proof.
  intro H. apply (f_equal (@length A)) in H. rewrite length_app in H. cbn in H. lia.
Qed.

(** ** Strings *)

Section StringFacts.

Local Open Scope nat_scope.

Lemma list_ascii_of_string_app (s1 s2 : string) :
  list_ascii_of_string (s1 ++ s2) = list_ascii_of_string s1 ++ list_ascii_of_string s2.
Proof. induction s1 as [|c s1 IH]; cbn; [reflexivity | rewrite IH; reflexivity]. Qed.

Lemma head_ok_app (a b : list ascii) : head_ok a -> head_ok (a ++ b).
Proof. destruct a; cbn; [tauto | auto]. Qed.

Lemma drop_spaces_id (l : list ascii) : head_ok l -> drop_spaces l = l.
Proof. destruct l as [|c l]; cbn; [tauto|]. intros ->. reflexivity. Qed.

Lemma drop_spaces_split (l : list ascii) :
  exists p, l = p ++ drop_spaces l /\ Forall (fun c => is_space c = true) p.
Proof.
  induction l as [|c l (p & E & F)]; [exists []; auto|].
  cbn. destruct (is_space c) eqn:S.
  - exists (c :: p). cbn. rewrite <- E. auto.
  - exists []. auto.
Qed.

Lemma drop_spaces_head_ok (l : list ascii) :
  drop_spaces l <> [] -> head_ok (drop_spaces l).
Proof.
  induction l as [|c l IH]; cbn; [congruence|].
  destruct (is_space c) eqn:S; [exact IH|]. intros _. exact S.
Qed.

Lemma head_ok_not_spaces (l : list ascii) :
  head_ok l -> Forall (fun c => is_space c = true) l -> False.
Proof.
  destruct l as [|c l]; cbn; [tauto|]. intros H F. inversion F. congruence.
Qed.

Lemma strip_list_clean (l : list ascii) : strip_list l = [] \/ clean (strip_list l).
Proof.
  unfold strip_list.
  destruct (drop_spaces l) as [|c m] eqn:M; [left; reflexivity|].
  assert (Hm : head_ok (c :: m)).
  { rewrite <- M. apply drop_spaces_head_ok. rewrite M. discriminate. }
  destruct (drop_spaces_split (rev (c :: m))) as (p & E & F).
  set (r := drop_spaces (rev (c :: m))) in *.
  assert (Em : c :: m = rev r ++ rev p).
  { rewrite <- rev_app_distr, <- E, rev_involutive. reflexivity. }
  destruct r as [|d r'] eqn:R.
  - exfalso. cbn in Em. rewrite Em in Hm.
    apply (head_ok_not_spaces _ Hm). apply Forall_rev. exact F.
  - right. split.
    + destruct (rev (d :: r')) as [|x y] eqn:X.
      * apply (f_equal (@length ascii)) in X. rewrite length_rev in X. discriminate.
      * cbn in Em. injection Em as <- _. exact Hm.
    + rewrite rev_involutive. rewrite <- R. unfold r.
      apply drop_spaces_head_ok. fold r. rewrite R. discriminate.
Qed.

Lemma strip_list_id (l : list ascii) : clean l -> strip_list l = l.
Proof.
  intros [H1 H2]. unfold strip_list.
  rewrite (drop_spaces_id l H1), (drop_spaces_id _ H2). apply rev_involutive.
Qed.

Lemma clean_app (a sep b : list ascii) : clean a -> clean b -> clean (a ++ sep ++ b).
Proof.
  intros [A1 A2] [B1 B2]. split.
  - apply head_ok_app, A1.
  - rewrite !rev_app_distr, <- app_assoc. apply head_ok_app, B2.
Qed.

Lemma py_strip_list (s : string) :
  list_ascii_of_string (py_strip s) = strip_list (list_ascii_of_string s).
Proof. unfold py_strip. apply list_ascii_of_string_of_list_ascii. Qed.

(** A fragment that survives [strip()] is clean. *)
Lemma py_strip_clean (s : string) :
  py_strip s <> ""%string -> clean (list_ascii_of_string (py_strip s)).
Proof.
  intros H. rewrite py_strip_list.
  destruct (strip_list_clean (list_ascii_of_string s)) as [E|C]; [|exact C].
  exfalso. apply H. unfold py_strip. fold (strip_list (list_ascii_of_string s)).
  rewrite E. reflexivity.
Qed.

Lemma py_join_clean (sep : string) (parts : list string) :
  parts <> [] ->
  Forall (fun p => clean (list_ascii_of_string p)) parts ->
  clean (list_ascii_of_string (py_join sep parts)).
Proof.
  unfold py_join.
  induction parts as [|x parts IH]; [congruence|].
  intros _ F. inversion F as [|? ? Fx Fp]; subst.
  destruct parts as [|y parts]; [exact Fx|].
  change (String.concat sep (x :: y :: parts))
    with (x ++ sep ++ String.concat sep (y :: parts))%string.
  rewrite !list_ascii_of_string_app. apply clean_app; [exact Fx|].
  apply IH; [discriminate | exact Fp].
Qed.

(** Stripping a clean string changes nothing, and a clean string is not
    empty. *)
Lemma py_strip_of_clean (s : string) :
  clean (list_ascii_of_string s) -> py_strip s = s /\ s <> ""%string.
Proof.
  intros C. split.
  - unfold py_strip. fold (strip_list (list_ascii_of_string s)).
    rewrite strip_list_id by exact C. apply string_of_list_ascii_of_string.
  - intros ->. destruct C as [C _]. exact C.
Qed.

Lemma str_truthy_true (s : string) : str_truthy s = true <-> s <> ""%string.
Proof.
  unfold str_truthy. rewrite negb_true_iff. split.
  - intros H E. apply String.eqb_eq in E. congruence.
  - intros H. apply String.eqb_neq. exact H.
Qed.

End StringFacts.

(** ** The segmenter *)

Section ConstantFacts.

Import STS.

(** The binary64 values of the decimal literals of the source. *)
Lemma NOISE_FLOOR_MULTIPLIER_val :
  NOISE_FLOOR_MULTIPLIER = (8106479329266893 # 4503599627370496)%Q.
Proof. vm_compute. reflexivity. Qed.

Lemma NOISE_FLOOR_EMA_ALPHA_val :
  NOISE_FLOOR_EMA_ALPHA = (5764607523034235 # 72057594037927936)%Q
  /\ fsub 1 NOISE_FLOOR_EMA_ALPHA = (8286623314361713 # 9007199254740992)%Q.
Proof. split; vm_compute; reflexivity. Qed.

Lemma TTS_BASELINE_EMA_ALPHA_val :
  TTS_BASELINE_EMA_ALPHA = (5404319552844595 # 36028797018963968)%Q
  /\ fsub 1 TTS_BASELINE_EMA_ALPHA = (7656119366529843 # 9007199254740992)%Q.
Proof. split; vm_compute; reflexivity. Qed.

Lemma BARGE_IN_MULTIPLIER_val :
  BARGE_IN_MULTIPLIER = (3602879701896397 # 2251799813685248)%Q.
Proof. vm_compute. reflexivity. Qed.

(** Bounds on a rounded value that linear arithmetic can use. *)
Lemma fl_lin (q : Q) :
  (0 <= q)%Q ->
  (q * (1 - (1 # 9007199254740992)) - eta <= fl q
   /\ fl q <= q * (1 + (1 # 9007199254740992)) + eta
   /\ 0 <= fl q)%Q.
Proof.
  intros H. pose proof (fl_bounds q H) as B. rewrite unit_roundoff_val in B.
  pose proof (fl_nonneg q H). tauto.
Qed.

End ConstantFacts.

(** ** The segmenter *)

Section EngineFacts.

Import STS.

Variable cfg : Config.

Local Arguments Nat.ltb : simpl never.
Local Arguments Nat.leb : simpl never.
Local Arguments Z.leb : simpl never.
Local Arguments Z.add : simpl never.
Local Arguments Z.max : simpl never.
Local Arguments deque_append : simpl never.

Ltac split_ifs :=
  repeat match goal with
  | |- context [if ?b then _ else _] => destruct b eqn:?; cbn in *
  end.

Lemma MAX_RECORDING_FRAMES_pos : MAX_RECORDING_FRAMES <> 0%nat.
Proof. discriminate. Qed.

Lemma dispatched_app (a b : list Effect) :
  dispatched (a ++ b) = dispatched a ++ dispatched b.
Proof.
  induction a as [|e a IH]; [reflexivity|].
  destruct e; cbn; rewrite IH; reflexivity.
Qed.

(** *** Buffer exclusivity *)

Lemma excl_intro (st : Engine) :
  (_is_recording st = true /\ audio_buffer st <> []) \/
  (_is_recording st = false /\ audio_buffer st = []) -> buffer_exclusive st.
Proof.
  unfold buffer_exclusive.
  intros [[H1 H2]|[H1 H2]]; rewrite H1, ?H2; split; intro; congruence.
Qed.

Lemma excl_elim (st : Engine) :
  buffer_exclusive st ->
  (_is_recording st = true /\ audio_buffer st <> []) \/
  (_is_recording st = false /\ audio_buffer st = []).
Proof.
  unfold buffer_exclusive. intros [H1 H2]. destruct (_is_recording st).
  - left. auto.
  - right. split; [reflexivity|]. destruct (audio_buffer st); [reflexivity|].
    assert (false = true) by (apply H2; discriminate). discriminate.
Qed.

Lemma reset_segmenter_excl st :
  buffer_exclusive st -> buffer_exclusive (reset_segmenter st).
Proof.
  intros H. apply excl_elim in H. apply excl_intro. unfold reset_segmenter.
  destruct H as [[H1 H2]|[H1 H2]]; rewrite H1; cbn; auto.
Qed.

Lemma finish_recording_excl st : buffer_exclusive (_finish_recording st).
Proof.
  apply excl_intro. right. unfold _finish_recording. cbn.
  destruct (5 <? length (audio_buffer st))%nat; cbn; auto.
Qed.

Lemma segment_excl st frame sp :
  buffer_exclusive st -> buffer_exclusive (segment cfg st frame sp).
Proof.
  intros H. unfold segment.
  destruct (is_speaking st && negb sp) eqn:E1; [apply reset_segmenter_excl, H|].
  destruct (negb (_is_recording st)) eqn:E2.
  - destruct sp.
    + cbn. destruct (SPEECH_START_FRAMES cfg <=? _speech_frames st + 1) eqn:E3.
      * apply excl_intro. left. cbn. unfold request_interrupt, emit.
        split_ifs; split; try reflexivity; discriminate.
      * apply excl_elim in H. apply excl_intro. cbn. exact H.
    + apply excl_elim in H. apply excl_intro. cbn. exact H.
  - cbn.
    match goal with |- buffer_exclusive (if ?c then _ else ?x) =>
      destruct c; [apply finish_recording_excl|] end.
    apply negb_false_iff in E2.
    destruct sp.
    + apply excl_intro. left. cbn. split; [exact E2|].
      apply deque_append_nonempty, MAX_RECORDING_FRAMES_pos.
    + cbn. destruct (SILENCE_END_FRAMES cfg <=? _silence_frames st + 1);
        [apply finish_recording_excl|].
      apply excl_intro. left. cbn. split; [exact E2|].
      apply deque_append_nonempty, MAX_RECORDING_FRAMES_pos.
Qed.

(** The steps before the segmenter leave flag and buffer alone. *)
Lemma classify_vad st energy threshold t :
  let st' := snd (classify st energy threshold t) in
  _is_recording st' = _is_recording st /\ audio_buffer st' = audio_buffer st
  /\ _speech_frames st' = _speech_frames st /\ _silence_frames st' = _silence_frames st
  /\ is_speaking st' = is_speaking st /\ effects st' = effects st
  /\ on_speech_start st' = on_speech_start st /\ on_interrupt st' = on_interrupt st.
Proof.
  unfold classify, _is_barge_in_speech. cbn.
  split_ifs; repeat split; congruence.
Qed.

Lemma update_noise_floor_vad st energy :
  let st' := update_noise_floor cfg st energy in
  _is_recording st' = _is_recording st /\ audio_buffer st' = audio_buffer st
  /\ _speech_frames st' = _speech_frames st /\ _silence_frames st' = _silence_frames st
  /\ is_speaking st' = is_speaking st /\ effects st' = effects st
  /\ on_speech_start st' = on_speech_start st /\ on_interrupt st' = on_interrupt st.
Proof.
  unfold update_noise_floor. cbn.
  split_ifs; repeat split; congruence.
Qed.

Lemma process_frame_excl st frame energy threshold t_cool t_guard :
  buffer_exclusive st ->
  buffer_exclusive (_process_frame cfg st frame energy threshold t_cool t_guard).
Proof.
  intros H. unfold _process_frame.
  set (st1 := with_out st _ _ _ _ _).
  assert (H1 : buffer_exclusive st1) by exact H.
  clearbody st1. clear H.
  destruct (negb (is_listening st1)); [apply reset_segmenter_excl, H1|].
  destruct (Qtruthy (_ignore_until st1) && Qltb t_cool (_ignore_until st1));
    [apply reset_segmenter_excl, H1|].
  destruct (classify (update_noise_floor cfg st1 energy) energy threshold t_guard)
    as [sp st2] eqn:E.
  apply segment_excl.
  pose proof (classify_vad (update_noise_floor cfg st1 energy) energy threshold t_guard) as C.
  pose proof (update_noise_floor_vad st1 energy) as U.
  rewrite E in C. cbn in C, U.
  destruct C as (C1 & C2 & _), U as (U1 & U2 & _).
  unfold buffer_exclusive in *. rewrite C1, C2, U1, U2. exact H1.
Qed.

Lemma step_excl st ev : buffer_exclusive st -> buffer_exclusive (step cfg st ev).
Proof.
  intros H. destruct ev as [frame energy tc tg | speaking now | listening | cs ci]; cbn.
  - unfold audio_loop_step. destruct (length frame =? 0)%nat; [exact H|].
    apply process_frame_excl. exact H.
  - unfold set_speaking. destruct speaking; exact H.
  - unfold set_listening. cbn. destruct listening; cbn; [exact H|].
    apply excl_intro. right. split; reflexivity.
  - exact H.
Qed.

Lemma run_excl evs : forall st, buffer_exclusive st -> buffer_exclusive (run cfg st evs).
Proof.
  induction evs as [|ev evs IH]; intros st H; [exact H|].
  change (run cfg st (ev :: evs)) with (run cfg (step cfg st ev) evs).
  apply IH, step_excl, H.
Qed.

(** C2. Buffer exclusivity: after any sequence of frame-processing steps,
    setter calls ([set_listening], [set_speaking]) and callback registrations
    on a fresh engine, the audio buffer is non-empty exactly when the engine
    is recording; when it is not recording the buffer is empty. As [evs]
    ranges over all sequences, this covers every point between two steps. *)
Theorem buffer_exclusivity (evs : list Event) :
  let st := run cfg init evs in
  (_is_recording st = true <-> audio_buffer st <> [])
  /\ (_is_recording st = false -> audio_buffer st = []).
Proof.
  assert (H : buffer_exclusive (run cfg init evs)).
  { apply run_excl. apply excl_intro. right. split; reflexivity. }
  cbn. split; [exact H|].
  intros Hr. apply excl_elim in H. destruct H as [[H _]|[_ H]]; [congruence|exact H].
Qed.

(** *** Finalize *)

Lemma finish_recording_spec st :
  let st' := _finish_recording st in
  effects st' =
    effects st ++
    (if (5 <? length (audio_buffer st))%nat
     then [Submit_transcribe (audio_buffer st) (np_concatenate (audio_buffer st))]
     else [])
  /\ audio_buffer st' = []
  /\ _speech_frames st' = 0 /\ _silence_frames st' = 0
  /\ _is_recording st' = false.
Proof.
  unfold _finish_recording. cbn.
  destruct (5 <? length (audio_buffer st))%nat; cbn; repeat split.
  symmetry. apply app_nil_r.
Qed.

Lemma finish_recording_idem st :
  audio_buffer st = [] -> _speech_frames st = 0 -> _silence_frames st = 0 ->
  _is_recording st = false -> _finish_recording st = st.
Proof.
  destruct st. cbn. intros -> -> -> ->. reflexivity.
Qed.

(** The recording branch of [segment], when one of the two finalize
    conditions holds, is [_finish_recording] applied once to the state with
    the frame appended. *)
Lemma segment_finalizes st frame is_speech :
  _is_recording st = true ->
  is_speaking st && negb is_speech = false ->
  let buf := deque_append MAX_RECORDING_FRAMES (audio_buffer st) frame in
  (is_speech = false /\ SILENCE_END_FRAMES cfg <= _silence_frames st + 1)
  \/ (MAX_RECORDING_FRAMES <= length buf)%nat ->
  segment cfg st frame is_speech =
  _finish_recording
    (with_vad st true buf (_speech_frames st)
       (if is_speech then 0 else _silence_frames st + 1)).
Proof.
  intros Hrec Hsp buf Hfin. unfold segment. rewrite Hsp, Hrec. cbn.
  fold buf.
  destruct is_speech; cbn.
  - destruct Hfin as [[? _]|Hfin]; [discriminate|].
    apply Nat.leb_le in Hfin. rewrite Hfin. reflexivity.
  - destruct (SILENCE_END_FRAMES cfg <=? _silence_frames st + 1) eqn:E.
    + match goal with |- (if ?c then _ else _) = _ => destruct c end.
      * apply finish_recording_idem;
          apply (finish_recording_spec (with_vad st true buf (_speech_frames st) (_silence_frames st + 1))).
      * reflexivity.
    + destruct Hfin as [[_ Hfin]|Hfin]; [apply Z.leb_gt in E; lia|].
      apply Nat.leb_le in Hfin. cbn. rewrite Hfin. reflexivity.
Qed.

(** *** [_process_frame] by cases on the class of the frame *)

Lemma process_frame_skipped st frame energy threshold t_cool t_guard :
  frame_class cfg st energy threshold t_cool t_guard = Skipped ->
  _process_frame cfg st frame energy threshold t_cool t_guard =
  reset_segmenter
    (with_out st (interrupt_requested st) (_total_frames st)
       (_detected_speech_count st) energy (effects st)).
Proof.
  unfold frame_class, _process_frame.
  set (st1 := with_out st _ _ _ _ _). clearbody st1.
  destruct (negb (is_listening st1)); [reflexivity|].
  destruct (Qtruthy (_ignore_until st1) && Qltb t_cool (_ignore_until st1));
    [reflexivity|].
  destruct (fst (classify _ _ _ _)); discriminate.
Qed.

Lemma process_frame_classified st frame energy threshold t_cool t_guard :
  frame_class cfg st energy threshold t_cool t_guard <> Skipped ->
  _process_frame cfg st frame energy threshold t_cool t_guard =
  segment cfg (classified cfg st energy threshold t_guard) frame
    (Class_eqb (frame_class cfg st energy threshold t_cool t_guard) Speech).
Proof.
  unfold frame_class, _process_frame, classified.
  set (st1 := with_out st _ _ _ _ _). clearbody st1.
  destruct (negb (is_listening st1)); [congruence|].
  destruct (Qtruthy (_ignore_until st1) && Qltb t_cool (_ignore_until st1));
    [congruence|].
  intros _.
  destruct (classify (update_noise_floor cfg st1 energy) energy threshold t_guard)
    as [sp st2].
  destruct sp; reflexivity.
Qed.

Lemma classified_vad st energy threshold t_guard :
  let st' := classified cfg st energy threshold t_guard in
  _is_recording st' = _is_recording st /\ audio_buffer st' = audio_buffer st
  /\ _speech_frames st' = _speech_frames st /\ _silence_frames st' = _silence_frames st
  /\ is_speaking st' = is_speaking st /\ effects st' = effects st
  /\ on_speech_start st' = on_speech_start st /\ on_interrupt st' = on_interrupt st.
Proof.
  unfold classified.
  set (st1 := with_out st _ _ _ _ _).
  pose proof (classify_vad (update_noise_floor cfg st1 energy) energy threshold t_guard) as C.
  pose proof (update_noise_floor_vad st1 energy) as U.
  cbv zeta in *.
  destruct C as (C1 & C2 & C3 & C4 & C5 & C6 & C7 & C8).
  destruct U as (U1 & U2 & U3 & U4 & U5 & U6 & U7 & U8).
  rewrite C1, C2, C3, C4, C5, C6, C7, C8, U1, U2, U3, U4, U5, U6, U7, U8.
  repeat split; reflexivity.
Qed.

(** C6. Finalize minimum-viable-length rule: whenever a frame finalizes a
    recording (it is classified as silence and brings the silence count to
    [SILENCE_END_FRAMES], or it brings the buffer to [MAX_RECORDING_FRAMES]),
    the concatenated buffer is submitted to transcription if and only if it
    holds more than 5 frames; otherwise nothing is submitted; either way the
    buffer is left empty, both counters are 0 and the engine is no longer
    recording. *)
Theorem finalize_minimum_viable_length st frame energy threshold t_cool t_guard :
  _is_recording st = true ->
  let c := frame_class cfg st energy threshold t_cool t_guard in
  let buf := deque_append MAX_RECORDING_FRAMES (audio_buffer st) frame in
  (c = Silence /\ is_speaking st = false
   /\ SILENCE_END_FRAMES cfg <= _silence_frames st + 1)
  \/ (c = Speech /\ (MAX_RECORDING_FRAMES <= length buf)%nat)
  \/ (c = Silence /\ is_speaking st = false
      /\ (MAX_RECORDING_FRAMES <= length buf)%nat) ->
  let st' := _process_frame cfg st frame energy threshold t_cool t_guard in
  effects st' =
    effects st ++
    (if (5 <? length buf)%nat
     then [Submit_transcribe buf (np_concatenate buf)] else [])
  /\ (dispatched (effects st') = dispatched (effects st) ++ [buf]
      <-> (5 < length buf)%nat)
  /\ (dispatched (effects st') = dispatched (effects st)
      <-> (length buf <= 5)%nat)
  /\ audio_buffer st' = []
  /\ _speech_frames st' = 0 /\ _silence_frames st' = 0
  /\ _is_recording st' = false.
Proof.
  intros Hrec c buf Hfin st'.
  pose proof (classified_vad st energy threshold t_guard) as V. cbv zeta in V.
  destruct V as (V1 & V2 & V3 & V4 & V5 & V6 & _).
  set (st2 := classified cfg st energy threshold t_guard) in *.
  set (sp := Class_eqb c Speech).
  assert (Hc : c <> Skipped)
    by (destruct Hfin as [[-> _]|[[-> _]|[-> _]]]; discriminate).
  assert (E0 : st' = segment cfg st2 frame sp)
    by (apply process_frame_classified; exact Hc).
  assert (Hsp : is_speaking st2 && negb sp = false).
  { rewrite V5. unfold sp.
    destruct Hfin as [(-> & -> & _)|[(-> & _)|(-> & -> & _)]];
      cbn; auto using andb_false_r. }
  assert (E : st' = _finish_recording
                (with_vad st2 true buf (_speech_frames st2)
                   (if sp then 0 else _silence_frames st2 + 1))).
  { rewrite E0. unfold buf. rewrite <- V2.
    apply segment_finalizes; [congruence | exact Hsp |].
    rewrite V2, V4. fold buf. unfold sp.
    destruct Hfin as [(-> & _ & H)|[(-> & H)|(-> & _ & H)]]; cbn; auto. }
  pose proof (finish_recording_spec
                (with_vad st2 true buf (_speech_frames st2)
                   (if sp then 0 else _silence_frames st2 + 1))) as S.
  cbv zeta in S. rewrite <- E in S. clearbody st' st2. cbn in S.
  rewrite V6 in S.
  destruct S as (S1 & S2 & S3 & S4 & S5).
  repeat split; try assumption.
  - intros D. rewrite S1, dispatched_app in D.
    destruct (Nat.ltb_spec 5 (length buf)); [assumption|].
    cbn in D. rewrite app_nil_r in D.
    exfalso. symmetry in D. revert D. apply app_cons_not_nil_self.
  - intros L. apply Nat.ltb_lt in L. rewrite S1, L, dispatched_app. reflexivity.
  - intros D. rewrite S1, dispatched_app in D.
    destruct (Nat.ltb_spec 5 (length buf)); [|assumption].
    cbn in D. exfalso. revert D. apply app_cons_not_nil_self.
  - intros L. apply Nat.ltb_ge in L. rewrite S1, L, app_nil_r. reflexivity.
Qed.

(** *** Where a dispatch can come from *)

Lemma reset_segmenter_spec st :
  let st' := reset_segmenter st in
  _is_recording st' = false
  /\ audio_buffer st' = (if _is_recording st then [] else audio_buffer st)
  /\ _speech_frames st' = 0 /\ _silence_frames st' = 0
  /\ effects st' = effects st.
Proof.
  unfold reset_segmenter. destruct (_is_recording st) eqn:E; cbn; auto.
Qed.

Lemma finish_recording_dispatched st :
  dispatched (effects (_finish_recording st)) =
  dispatched (effects st) ++
  (if (5 <? length (audio_buffer st))%nat then [audio_buffer st] else []).
Proof.
  destruct (finish_recording_spec st) as (E & _). rewrite E, dispatched_app.
  destruct (5 <? length (audio_buffer st))%nat; reflexivity.
Qed.

(** A call of [segment] submits a buffer only from the recording state, and
    only through one of the two finalize conditions. *)
Lemma segment_dispatch st frame sp :
  dispatched (effects (segment cfg st frame sp)) <> dispatched (effects st) ->
  _is_recording st = true
  /\ ((sp = false /\ is_speaking st = false
       /\ SILENCE_END_FRAMES cfg <= _silence_frames st + 1)
      \/ (MAX_RECORDING_FRAMES
          <= length (deque_append MAX_RECORDING_FRAMES (audio_buffer st) frame))%nat).
Proof.
  unfold segment.
  destruct (is_speaking st && negb sp) eqn:E1.
  { intros H. exfalso. apply H.
    destruct (reset_segmenter_spec st) as (_ & _ & _ & _ & ->). reflexivity. }
  destruct (_is_recording st) eqn:Hrec; cbn.
  - intros H. split; [reflexivity|].
    destruct (MAX_RECORDING_FRAMES
              <=? length (deque_append MAX_RECORDING_FRAMES (audio_buffer st) frame))%nat
      eqn:Hcap; [right; apply Nat.leb_le; exact Hcap|].
    left. destruct sp; cbn in H.
    + exfalso. apply H. rewrite Hcap. reflexivity.
    + destruct (is_speaking st); [discriminate|].
      destruct (Z.leb_spec (SILENCE_END_FRAMES cfg) (_silence_frames st + 1));
        [auto|].
      exfalso. apply H. cbn. rewrite Hcap. reflexivity.
  - intros H. exfalso. apply H. clear H. destruct sp; cbn; [|reflexivity].
    destruct (SPEECH_START_FRAMES cfg <=? _speech_frames st + 1); [|reflexivity].
    destruct st as [spk lst irq buf tap oss oi sf sif rec etb tee tei tsa iu
                    nfe nfi tf dsc le effs]; cbn.
    unfold request_interrupt, emit; cbn.
    destruct spk, oi, oss; cbn; rewrite ?dispatched_app; cbn;
      rewrite ?app_nil_r; reflexivity.
Qed.

Lemma process_frame_tts st frame energy th tc tg :
  is_speaking st = true ->
  buffer_exclusive st ->
  let st' := _process_frame cfg st frame energy th tc tg in
  let c := frame_class cfg st energy th tc tg in
  (c <> Speech ->
     _is_recording st' = false /\ audio_buffer st' = []
     /\ _speech_frames st' = 0 /\ _silence_frames st' = 0
     /\ effects st' = effects st)
  /\ (dispatched (effects st') <> dispatched (effects st) ->
      c = Speech /\ _is_recording st = true
      /\ (MAX_RECORDING_FRAMES
          <= length (deque_append MAX_RECORDING_FRAMES (audio_buffer st) frame))%nat).
Proof.
  intros Hsp Hex st' c.
  pose proof (classified_vad st energy th tg) as V. cbv zeta in V.
  destruct V as (V1 & V2 & V3 & V4 & V5 & V6 & _).
  apply excl_elim in Hex.
  assert (Hbuf : (if _is_recording st then [] else audio_buffer st) = [])
    by (destruct Hex as [[-> _]|[-> H]]; [reflexivity|exact H]).
  destruct c eqn:C; subst c.
  - (* skipped *)
    assert (E : st' = reset_segmenter
              (with_out st (interrupt_requested st) (_total_frames st)
                 (_detected_speech_count st) energy (effects st)))
      by (apply process_frame_skipped; exact C).
    clearbody st'. subst st'.
    match goal with |- context [reset_segmenter ?s] =>
      pose proof (reset_segmenter_spec s) as R end.
    cbv zeta in R. destruct R as (R1 & R2 & R3 & R4 & R5).
    split.
    + intros _. repeat split; try assumption. rewrite R2. exact Hbuf.
    + intros H. exfalso. apply H. rewrite R5. reflexivity.
  - (* speech *)
    assert (E : st' = segment cfg (classified cfg st energy th tg) frame true).
    { unfold st'. rewrite process_frame_classified; rewrite C;
        [reflexivity|discriminate]. }
    clearbody st'. subst st'. split.
    + intros Hn. congruence.
    + intros H. rewrite <- V6 in H. apply segment_dispatch in H.
      destruct H as (Hrec & [(F & _)|Hcap]); [discriminate|].
      repeat split.
      * rewrite <- V1. exact Hrec.
      * rewrite <- V2. exact Hcap.
  - (* silence *)
    assert (E : st' = segment cfg (classified cfg st energy th tg) frame false).
    { unfold st'. rewrite process_frame_classified; rewrite C;
        [reflexivity|discriminate]. }
    clearbody st'. subst st'.
    set (st2 := classified cfg st energy th tg) in *. clearbody st2.
    assert (E : segment cfg st2 frame false = reset_segmenter st2).
    { unfold segment. rewrite V5, Hsp. reflexivity. }
    rewrite E.
    pose proof (reset_segmenter_spec st2) as R.
    cbv zeta in R. destruct R as (R1 & R2 & R3 & R4 & R5).
    rewrite V6 in R5. rewrite V1, V2 in R2. split.
    + intros _. repeat split; try assumption. rewrite R2. exact Hbuf.
    + intros H. exfalso. apply H. rewrite R5. reflexivity.
Qed.

(** C7. While TTS is active the silence-confirmation exit is unreachable.
    For an engine with [is_speaking] set (and flag and buffer consistent):
    a frame that is not classified as speech drops any recording in progress,
    leaves the buffer empty, zeroes both counters and submits nothing; and a
    step that does submit a buffer to transcription is a frame classified as
    speech, taken while recording, that brings the buffer to
    [MAX_RECORDING_FRAMES]. *)
Theorem tts_silence_exit_unreachable st ev :
  is_speaking st = true ->
  buffer_exclusive st ->
  let st' := step cfg st ev in
  (forall c, event_class cfg st ev = Some c -> c <> Speech ->
     _is_recording st' = false /\ audio_buffer st' = []
     /\ _speech_frames st' = 0 /\ _silence_frames st' = 0
     /\ effects st' = effects st)
  /\ (dispatched (effects st') <> dispatched (effects st) ->
      exists frame energy t_cool t_guard,
        ev = Ev_frame frame energy t_cool t_guard
        /\ event_class cfg st ev = Some Speech
        /\ _is_recording st = true
        /\ (MAX_RECORDING_FRAMES
            <= length (deque_append MAX_RECORDING_FRAMES (audio_buffer st) frame))%nat).
Proof.
  intros Hsp Hex st'.
  destruct ev as [[|x fr] energy tc tg | speaking now | listening | cs ci].
  - (* an empty frame is skipped *)
    split; [intros c Hc; discriminate|].
    intros H. exfalso. apply H. reflexivity.
  - pose proof (process_frame_tts
                  (with_out st (interrupt_requested st) (_total_frames st + 1)
                     (_detected_speech_count st) (last_energy st) (effects st))
                  (x :: fr) energy (_get_effective_threshold cfg st) tc tg Hsp Hex) as P.
    cbv zeta in P. destruct P as (P1 & P2). split.
    + intros c Hc Hn. cbn in Hc. injection Hc as <-. apply P1. exact Hn.
    + intros H. apply P2 in H. destruct H as (H1 & H2 & H3).
      exists (x :: fr), energy, tc, tg. repeat split; try assumption.
      cbn. rewrite H1. reflexivity.
  - split; [intros c Hc; discriminate|].
    intros H. exfalso. apply H. subst st'. cbn. unfold set_speaking.
    destruct speaking; reflexivity.
  - split; [intros c Hc; discriminate|].
    intros H. exfalso. apply H. subst st'. cbn. unfold set_listening. cbn.
    destruct listening; reflexivity.
  - split; [intros c Hc; discriminate|].
    intros H. exfalso. apply H. reflexivity.
Qed.

(** *** The effective threshold *)

Lemma finish_recording_boost st :
  _echo_threshold_boost (_finish_recording st) = _echo_threshold_boost st.
Proof.
  unfold _finish_recording. cbn.
  destruct (5 <? length (audio_buffer st))%nat; reflexivity.
Qed.

Lemma reset_segmenter_boost st :
  _echo_threshold_boost (reset_segmenter st) = _echo_threshold_boost st.
Proof. unfold reset_segmenter. destruct (_is_recording st); reflexivity. Qed.

Lemma segment_boost st frame sp :
  _echo_threshold_boost (segment cfg st frame sp) = _echo_threshold_boost st.
Proof.
  unfold segment.
  destruct (is_speaking st && negb sp); [apply reset_segmenter_boost|].
  destruct (negb (_is_recording st)).
  - destruct sp; [|reflexivity]. cbn.
    destruct (SPEECH_START_FRAMES cfg <=? _speech_frames st + 1); [|reflexivity].
    destruct st as [spk lst irq buf tap oss oi sf sif rec etb tee tei tsa iu
                    nfe nfi tf dsc le effs]; cbn.
    unfold request_interrupt, emit; cbn.
    destruct spk, oi, oss; reflexivity.
  - cbn.
    match goal with |- context [if ?c then _ else _] => destruct c end;
      rewrite ?finish_recording_boost;
      destruct sp; cbn; try reflexivity;
      destruct (SILENCE_END_FRAMES cfg <=? _silence_frames st + 1);
      rewrite ?finish_recording_boost; reflexivity.
Qed.

Lemma process_frame_boost st frame energy th tc tg :
  _echo_threshold_boost (_process_frame cfg st frame energy th tc tg)
  = _echo_threshold_boost st.
Proof.
  unfold _process_frame.
  set (st1 := with_out st _ _ _ _ _).
  assert (H1 : _echo_threshold_boost st1 = _echo_threshold_boost st) by reflexivity.
  clearbody st1. rewrite <- H1. clear H1.
  destruct (negb (is_listening st1)); [apply reset_segmenter_boost|].
  destruct (Qtruthy (_ignore_until st1) && Qltb tc (_ignore_until st1));
    [apply reset_segmenter_boost|].
  destruct (classify (update_noise_floor cfg st1 energy) energy th tg)
    as [sp st2] eqn:E.
  rewrite segment_boost.
  replace st2 with (snd (classify (update_noise_floor cfg st1 energy) energy th tg))
    by (rewrite E; reflexivity).
  unfold classify, _is_barge_in_speech, update_noise_floor. cbn.
  split_ifs; reflexivity.
Qed.

Lemma run_boost evs :
  forall st, _echo_threshold_boost (run cfg st evs) = _echo_threshold_boost st.
Proof.
  induction evs as [|ev evs IH]; intros st; [reflexivity|].
  change (run cfg st (ev :: evs)) with (run cfg (step cfg st ev) evs).
  rewrite IH.
  destruct ev as [frame energy tc tg | speaking now | listening | cs ci]; cbn.
  - unfold audio_loop_step. destruct (length frame =? 0)%nat; [reflexivity|].
    rewrite process_frame_boost. reflexivity.
  - unfold set_speaking. destruct speaking; reflexivity.
  - unfold set_listening. cbn. destruct listening; reflexivity.
  - reflexivity.
Qed.

(** The adaptive term is the real-number formula up to rounding. *)
Lemma adaptive_threshold_close st :
  (0 <= _noise_floor_ema st)%Q ->
  (Qabs (adaptive_threshold st - (_noise_floor_ema st * 1.8 + 40))
   <= (_noise_floor_ema st * 1.8 + 40) * (1 # 2251799813685248))%Q.
Proof.
  intros H. unfold adaptive_threshold, fadd, fmul, NOISE_FLOOR_MARGIN.
  rewrite NOISE_FLOOR_MULTIPLIER_val.
  set (nf := _noise_floor_ema st) in *.
  destruct (fl_lin (nf * (8106479329266893 # 4503599627370496))) as (A1 & A2 & A3);
    [nra|].
  set (t := fl (nf * (8106479329266893 # 4503599627370496))) in *.
  destruct (fl_lin (t + 40)) as (B1 & B2 & _); [lra|].
  destruct eta_small as [E0 E1].
  apply Qabs_Qle_condition. split; lra.
Qed.

(** C5. Effective-threshold formula, in the program's arithmetic
    (binary64). In every reachable state of a fresh engine whose noise floor
    is initialized, [get_vad_threshold] returns
    [max(SILENCE_THRESHOLD, noise_floor_ema * 1.8 + 40)] when TTS is not
    active, and that value plus the echo boost 200 when TTS is active (an
    exact sum when [max] returned the integer, a rounded one when it returned
    the float). For a noise floor [>= 0] the value is the real-number
    formula up to a relative error of [2^-50]. *)
Theorem effective_threshold_formula (evs : list Event) :
  let st := run cfg init evs in
  _noise_floor_initialized st = true ->
  let static := inject_Z (SILENCE_THRESHOLD cfg) in
  let adaptive := fadd (fmul (_noise_floor_ema st) (fl 1.8)) 40 in
  let base := py_max static adaptive in
  (is_speaking st = false -> get_vad_threshold cfg st = base)
  /\ (is_speaking st = true ->
      get_vad_threshold cfg st
      = if Qltb static adaptive then fadd base 200 else (base + 200)%Q)
  /\ ((0 <= _noise_floor_ema st)%Q ->
      let ideal := (Qmax static (_noise_floor_ema st * 1.8 + 40)
                    + (if is_speaking st then 200 else 0))%Q in
      (Qabs (get_vad_threshold cfg st - ideal) <= ideal * (1 # 1125899906842624))%Q).
Proof.
  intros st Hnf static adaptive base.
  assert (B : _echo_threshold_boost st = 200%Q) by (unfold st; apply run_boost).
  assert (Ea : adaptive = adaptive_threshold st) by reflexivity.
  assert (G : get_vad_threshold cfg st
              = if is_speaking st
                then if Qltb static adaptive then fadd base 200 else (base + 200)%Q
                else base).
  { unfold get_vad_threshold, _get_effective_threshold.
    rewrite Hnf, B. cbn [andb]. reflexivity. }
  split; [intros Hs; rewrite G, Hs; reflexivity|].
  split; [intros Hs; rewrite G, Hs; reflexivity|].
  intros H0 ideal. rewrite G.
  pose proof (adaptive_threshold_close st H0) as C. rewrite <- Ea in C.
  set (real := (_noise_floor_ema st * 1.8 + 40)%Q) in *.
  apply Qabs_Qle_condition in C.
  assert (R0 : (40 <= real)%Q) by (unfold real; lra).
  assert (Hb : (Qabs (base - Qmax static real) <= Qmax static real * (1 # 2251799813685248))%Q
               /\ (real <= Qmax static real)%Q).
  { split; [|apply Q.le_max_r].
    unfold base. rewrite py_max_Qmax.
    apply Qabs_Qle_condition.
    destruct (Q.max_spec static adaptive) as [[L1 ->]|[L1 ->]];
      destruct (Q.max_spec static real) as [[L2 ->]|[L2 ->]]; lra. }
  destruct Hb as [Hb Hr]. apply Qabs_Qle_condition in Hb.
  set (m := Qmax static real) in *.
  unfold ideal. destruct (is_speaking st).
  - destruct (Qltb static adaptive) eqn:L.
    + apply Qltb_lt in L.
      assert (Pb : (0 <= base + 200)%Q) by lra.
      unfold fadd. destruct (fl_lin (base + 200) Pb) as (F1 & F2 & _).
      destruct eta_small as [E0 E1].
      apply Qabs_Qle_condition. split; lra.
    + apply Qabs_Qle_condition. split; lra.
  - apply Qabs_Qle_condition. split; lra.
Qed.

(** *** Hysteresis *)

Lemma history_app evs : forall st past ev,
  history cfg st (evs ++ [ev]) past =
  match event_class cfg (run cfg st evs) ev with
  | Some c => c :: history cfg st evs past
  | None => history cfg st evs past
  end.
Proof.
  induction evs as [|e evs IH]; intros st past ev; [reflexivity|].
  change (run cfg st (e :: evs)) with (run cfg (step cfg st e) evs).
  cbn [app history]. apply IH.
Qed.

Lemma segment_enter st frame sp :
  _is_recording st = false ->
  _is_recording (segment cfg st frame sp) = true ->
  sp = true /\ SPEECH_START_FRAMES cfg <= _speech_frames st + 1.
Proof.
  intros Hrec. unfold segment.
  destruct (is_speaking st && negb sp).
  { destruct (reset_segmenter_spec st) as (-> & _). discriminate. }
  rewrite Hrec. cbn.
  destruct sp; cbn; [|congruence].
  destruct (Z.leb_spec (SPEECH_START_FRAMES cfg) (_speech_frames st + 1)); [auto|].
  cbn. congruence.
Qed.

Lemma segment_exit st frame sp :
  _is_recording st = true ->
  _is_recording (segment cfg st frame sp) = false ->
  (is_speaking st = true /\ sp = false)
  \/ (sp = false /\ SILENCE_END_FRAMES cfg <= _silence_frames st + 1)
  \/ (MAX_RECORDING_FRAMES
      <= length (deque_append MAX_RECORDING_FRAMES (audio_buffer st) frame))%nat.
Proof.
  intros Hrec. unfold segment.
  destruct (is_speaking st && negb sp) eqn:E.
  { intros _. left. apply andb_true_iff in E. destruct E as [E1 E2].
    apply negb_true_iff in E2. auto. }
  rewrite Hrec. cbn.
  destruct (MAX_RECORDING_FRAMES
            <=? length (deque_append MAX_RECORDING_FRAMES (audio_buffer st) frame))%nat
    eqn:Hcap; [intros _; right; right; apply Nat.leb_le; exact Hcap|].
  destruct sp; cbn.
  - rewrite Hcap. cbn. congruence.
  - destruct (Z.leb_spec (SILENCE_END_FRAMES cfg) (_silence_frames st + 1));
      [intros _; right; left; auto|].
    cbn. rewrite Hcap. cbn. congruence.
Qed.

Lemma credit_nonneg (h : list Class) : 0 <= credit h.
Proof.
  induction h as [|c h IH]; [reflexivity|].
  destruct c; cbn [credit]; lia.
Qed.

Lemma credit_spec (h : list Class) :
  (exists k, Forall (fun c => c <> Skipped) (firstn k h)
             /\ credit h = surplus (firstn k h))
  /\ (forall k, Forall (fun c => c <> Skipped) (firstn k h) ->
                surplus (firstn k h) <= credit h).
Proof.
  induction h as [|c h [[k [F E]] M]].
  - split; [exists 0%nat; split; [constructor|reflexivity]|].
    intros k _. rewrite firstn_nil. reflexivity.
  - pose proof (credit_nonneg h) as P. destruct c.
    + split; [exists 0%nat; split; [constructor|reflexivity]|].
      intros [|k'] H; [reflexivity|]. cbn [firstn] in H.
      inversion H; congruence.
    + split.
      * exists (S k). cbn [firstn credit surplus].
        split; [constructor; [discriminate|exact F] | lia].
      * intros [|k'] H; cbn [firstn credit surplus] in *; [lia|].
        inversion H as [|? ? _ H']; subst. specialize (M k' H'). lia.
    + split.
      * destruct (Z.max_spec 0 (credit h - 1)) as [[L Em]|[L Em]].
        -- exists (S k). cbn [firstn credit surplus]. rewrite Em.
           split; [constructor; [discriminate|exact F] | lia].
        -- exists 0%nat. cbn [firstn credit surplus]. rewrite Em.
           split; [constructor|reflexivity].
      * intros [|k'] H; cbn [firstn credit surplus] in *; [lia|].
        inversion H as [|? ? _ H']; subst. specialize (M k' H'). lia.
Qed.

Lemma finish_recording_inv st h : hysteresis_inv cfg (_finish_recording st) h.
Proof.
  destruct (finish_recording_spec st) as (_ & _ & S3 & _ & S5).
  pose proof (credit_nonneg h).
  split; [congruence|]. intros _. rewrite S3. split; [lia|left; reflexivity].
Qed.

Lemma reset_segmenter_inv st h : hysteresis_inv cfg (reset_segmenter st) h.
Proof.
  destruct (reset_segmenter_spec st) as (S1 & _ & S3 & _).
  pose proof (credit_nonneg h).
  split; [congruence|]. intros _. rewrite S3. split; [lia|left; reflexivity].
Qed.

Lemma segment_inv st frame sp h :
  hysteresis_inv cfg st h ->
  hysteresis_inv cfg (segment cfg st frame sp) ((if sp then Speech else Silence) :: h).
Proof.
  intros [I1 I2]. unfold segment.
  destruct (is_speaking st && negb sp); [apply reset_segmenter_inv|].
  destruct (_is_recording st) eqn:Hrec; cbn.
  - match goal with |- hysteresis_inv _ (if ?c then _ else _) _ =>
      destruct c; [apply finish_recording_inv|] end.
    destruct sp; cbn.
    + split; cbn; [lia | congruence].
    + destruct (SILENCE_END_FRAMES cfg <=? _silence_frames st + 1);
        [apply finish_recording_inv|].
      split; cbn; [|congruence]. intros _. specialize (I1 eq_refl). lia.
  - destruct (I2 eq_refl) as [C D]. pose proof (credit_nonneg h) as Hc.
    destruct sp; cbn.
    + destruct (Z.leb_spec (SPEECH_START_FRAMES cfg) (_speech_frames st + 1)).
      * destruct st as [spk lst irq buf tap oss oi sf sif rec etb tee tei tsa iu
                        nfe nfi tf dsc le effs]; cbn in *.
        unfold request_interrupt, emit; cbn.
        destruct spk, oi, oss; (split; cbn; [lia | congruence]).
      * split; cbn; [congruence|]. intros _. split; [lia|].
        right. split; [lia|]. intros _. lia.
    + split; cbn; [congruence|]. intros _. split; [lia|].
      destruct D as [D|[D1 D2]]; [left; lia|].
      destruct (Z.max_spec 0 (_speech_frames st - 1)) as [[_ E]|[_ E]]; rewrite E;
        [|left; reflexivity].
      right. split; [lia|]. intros F. lia.
Qed.

Lemma hysteresis_inv_ext st st' h :
  _is_recording st' = _is_recording st ->
  _speech_frames st' = _speech_frames st ->
  _silence_frames st' = _silence_frames st ->
  hysteresis_inv cfg st h -> hysteresis_inv cfg st' h.
Proof. unfold hysteresis_inv. intros -> -> -> H. exact H. Qed.

Lemma process_frame_inv st frame energy th tc tg h :
  hysteresis_inv cfg st h ->
  hysteresis_inv cfg (_process_frame cfg st frame energy th tc tg)
    (frame_class cfg st energy th tc tg :: h).
Proof.
  intros I.
  destruct (frame_class cfg st energy th tc tg) eqn:C.
  - rewrite process_frame_skipped by exact C. apply reset_segmenter_inv.
  - rewrite process_frame_classified by (rewrite C; discriminate).
    rewrite C. apply (segment_inv _ frame true).
    destruct (classified_vad st energy th tg) as (V1 & _ & V3 & V4 & _).
    apply (hysteresis_inv_ext st); assumption.
  - rewrite process_frame_classified by (rewrite C; discriminate).
    rewrite C. apply (segment_inv _ frame false).
    destruct (classified_vad st energy th tg) as (V1 & _ & V3 & V4 & _).
    apply (hysteresis_inv_ext st); assumption.
Qed.

Lemma step_inv st ev h :
  hysteresis_inv cfg st h ->
  hysteresis_inv cfg (step cfg st ev)
    (match event_class cfg st ev with Some c => c :: h | None => h end).
Proof.
  intros I. destruct ev as [frame energy tc tg | speaking now | listening | cs ci].
  - cbn. unfold audio_loop_step. destruct (length frame =? 0)%nat; [exact I|].
    apply process_frame_inv. exact I.
  - cbn. unfold set_speaking. destruct speaking; exact I.
  - cbn. unfold set_listening. cbn. destruct listening; cbn; [exact I|].
    pose proof (credit_nonneg h).
    split; cbn; [congruence|]. intros _. split; [lia|left; reflexivity].
  - exact I.
Qed.

Lemma run_inv evs : forall st h,
  hysteresis_inv cfg st h ->
  hysteresis_inv cfg (run cfg st evs) (history cfg st evs h).
Proof.
  induction evs as [|ev evs IH]; intros st h I; [exact I|].
  change (run cfg st (ev :: evs)) with (run cfg (step cfg st ev) evs).
  cbn [history]. apply IH, step_inv, I.
Qed.

Lemma init_inv : hysteresis_inv cfg init [].
Proof. split; cbn; [congruence|]. intros _. split; [lia|left; reflexivity]. Qed.

(** C1 (amended). Hysteresis of the utterance segmenter, for every run of a
    fresh engine followed by one more frame.
    Entry: the frame takes the engine into RECORDING only if it is classified
    as speech, the last [min(SPEECH_START_FRAMES, 2)] frames, this one
    included, were all classified as speech (so never on a single frame's
    classification when [SPEECH_START_FRAMES >= 2], and only after
    [SPEECH_START_FRAMES] consecutive speech frames when it is at most 2, the
    default), and over some stretch of frames ending with this one the speech
    frames outnumber the silence frames by at least [SPEECH_START_FRAMES].
    Exit: the frame takes the engine out of RECORDING only if it went through
    a reset path (not classified at all because listening is off or the
    post-TTS cooldown runs, or classified as silence while TTS is active), or
    the last [SILENCE_END_FRAMES] frames, this one included, were all
    classified as silence, or the buffer reached [MAX_RECORDING_FRAMES]. *)
Theorem segmenter_hysteresis (evs : list Event) (frame : Frame) (energy t_cool t_guard : Q) :
  let ev := Ev_frame frame energy t_cool t_guard in
  let st := run cfg init evs in
  let st' := step cfg st ev in
  let h := history cfg init (evs ++ [ev]) [] in
  (_is_recording st = false -> _is_recording st' = true ->
   hd Skipped h = Speech
   /\ Z.min (SPEECH_START_FRAMES cfg) 2 <= Z.of_nat (streak Speech h)
   /\ SPEECH_START_FRAMES cfg <= credit h)
  /\ (_is_recording st = true -> _is_recording st' = false ->
      hd Skipped h = Skipped
      \/ (hd Skipped h = Silence /\ is_speaking st = true)
      \/ SILENCE_END_FRAMES cfg <= Z.of_nat (streak Silence h)
      \/ (MAX_RECORDING_FRAMES
          <= length (deque_append MAX_RECORDING_FRAMES (audio_buffer st) frame))%nat).
Proof.
  destruct frame as [|x fr].
  { (* an empty frame is skipped: the engine does not move *)
    intros ev st st' h. change st' with st.
    split; intros; congruence. }
  set (frame := x :: fr).
  intros ev st st' h.
  assert (I : hysteresis_inv cfg st (history cfg init evs [])).
  { apply run_inv, init_inv. }
  destruct I as [I1 I2].
  set (st0 := with_out st (interrupt_requested st) (_total_frames st + 1)
                (_detected_speech_count st) (last_energy st) (effects st)).
  set (th := _get_effective_threshold cfg st).
  set (c := frame_class cfg st0 energy th t_cool t_guard).
  assert (Eh : h = c :: history cfg init evs []).
  { unfold h. rewrite history_app. reflexivity. }
  assert (Est : st' = _process_frame cfg st0 frame energy th t_cool t_guard)
    by reflexivity.
  pose proof (classified_vad st0 energy th t_guard) as V. cbv zeta in V.
  destruct V as (V1 & V2 & V3 & V4 & V5 & _).
  change (_is_recording st0) with (_is_recording st) in V1.
  change (audio_buffer st0) with (audio_buffer st) in V2.
  change (_speech_frames st0) with (_speech_frames st) in V3.
  change (_silence_frames st0) with (_silence_frames st) in V4.
  change (is_speaking st0) with (is_speaking st) in V5.
  clearbody st' h st0 th. rewrite Eh. cbn [hd].
  destruct c eqn:C; subst c.
  - (* skipped: the frame resets the segmenter *)
    rewrite process_frame_skipped in Est by exact C.
    match type of Est with _ = reset_segmenter ?s =>
      destruct (reset_segmenter_spec s) as (R1 & _) end.
    rewrite <- Est in R1. split; [congruence|]. intros _ _. left. reflexivity.
  - (* speech *)
    rewrite process_frame_classified in Est by (rewrite C; discriminate).
    rewrite C in Est. cbn [Class_eqb] in Est. split.
    + intros Hrec Hrec'. split; [reflexivity|].
      rewrite Est in Hrec'. apply segment_enter in Hrec'; [|congruence].
      destruct Hrec' as [_ Hn]. rewrite V3 in Hn.
      destruct (I2 Hrec) as [Hc Hs]. cbn [streak Class_eqb credit].
      split; [|lia].
      destruct Hs as [Hs|[Hs1 Hs2]]; [lia|].
      assert (Hs3 : _speech_frames st = SPEECH_START_FRAMES cfg - 1) by lia.
      specialize (Hs2 Hs3). lia.
    + intros Hrec Hrec'.
      rewrite Est in Hrec'. apply segment_exit in Hrec'; [|congruence].
      destruct Hrec' as [[_ F]|[[F _]|Hcap]]; try discriminate.
      right. right. right. rewrite <- V2. exact Hcap.
  - (* silence *)
    rewrite process_frame_classified in Est by (rewrite C; discriminate).
    rewrite C in Est. cbn [Class_eqb] in Est. split.
    + intros Hrec Hrec'.
      rewrite Est in Hrec'. apply segment_enter in Hrec'; [|congruence].
      destruct Hrec' as [F _]. discriminate.
    + intros Hrec Hrec'.
      rewrite Est in Hrec'. apply segment_exit in Hrec'; [|congruence].
      destruct Hrec' as [[Hsp _]|[[_ Hm]|Hcap]].
      * right. left. split; [reflexivity|congruence].
      * right. right. left. rewrite V4 in Hm. specialize (I1 Hrec).
        cbn [streak Class_eqb]. lia.
      * right. right. right. rewrite <- V2. exact Hcap.
Qed.

(** *** A normal turn *)

Lemma step_frame_segment st frame energy tc tg c :
  event_class cfg st (Ev_frame frame energy tc tg) = Some c ->
  c <> Skipped ->
  exists st2,
    step cfg st (Ev_frame frame energy tc tg)
    = segment cfg st2 frame (Class_eqb c Speech)
    /\ view st2 = view st.
Proof.
  intros Hc Hn. destruct frame as [|x fr]; [discriminate|].
  cbn in Hc. injection Hc as Hc.
  eexists. split.
  - cbn. unfold audio_loop_step. cbn [length Nat.eqb].
    rewrite process_frame_classified by congruence.
    rewrite Hc. reflexivity.
  - match goal with |- view (classified cfg ?s ?e ?th ?t) = _ =>
      destruct (classified_vad s e th t) as (V1 & V2 & V3 & V4 & V5 & V6 & _) end.
    unfold view. rewrite V1, V2, V3, V4, V5, V6. reflexivity.
Qed.

Lemma view_inv st rec buf sp si spk d :
  view st = (rec, buf, sp, si, spk, d) ->
  _is_recording st = rec /\ audio_buffer st = buf /\ _speech_frames st = sp
  /\ _silence_frames st = si /\ is_speaking st = spk /\ dispatched (effects st) = d.
Proof. unfold view. intros H. injection H as <- <- <- <- <- <-. repeat split. Qed.

Lemma seg_idle_speech st f buf sp si d :
  view st = (false, buf, sp, si, false, d) ->
  sp + 1 < SPEECH_START_FRAMES cfg ->
  view (segment cfg st f true) = (false, buf, sp + 1, si, false, d).
Proof.
  intros V Hn. apply view_inv in V. destruct V as (V1 & V2 & V3 & V4 & V5 & V6).
  unfold segment. rewrite V5, V1. cbn. rewrite V3.
  apply Z.leb_gt in Hn. rewrite Hn. unfold view. cbn. congruence.
Qed.

Lemma seg_enter st f buf sp si d :
  view st = (false, buf, sp, si, false, d) ->
  SPEECH_START_FRAMES cfg <= sp + 1 ->
  view (segment cfg st f true) = (true, [f], sp + 1, 0, false, d).
Proof.
  intros V Hn. apply view_inv in V. destruct V as (V1 & V2 & V3 & V4 & V5 & V6).
  unfold segment. rewrite V5, V1. cbn. rewrite V3.
  apply Z.leb_le in Hn. rewrite Hn. cbn. rewrite V5.
  unfold view.
  destruct st as [spk lst irq b tap oss oi sf sif rec etb tee tei tsa iu
                  nfe nfi tf dsc le effs]; cbn in *.
  unfold emit; cbn. subst.
  destruct oss; cbn; rewrite ?dispatched_app, ?app_nil_r; reflexivity.
Qed.

Lemma seg_rec_speech st f buf sp si spk d :
  view st = (true, buf, sp, si, spk, d) ->
  (length buf + 1 < MAX_RECORDING_FRAMES)%nat ->
  view (segment cfg st f true) = (true, buf ++ [f], sp, 0, spk, d).
Proof.
  intros V Hn. apply view_inv in V. destruct V as (V1 & V2 & V3 & V4 & V5 & V6).
  unfold segment. rewrite andb_false_r, V1. cbn.
  rewrite V2, deque_append_length by (try apply MAX_RECORDING_FRAMES_pos; lia).
  assert (L : (MAX_RECORDING_FRAMES <=? length (buf ++ [f]))%nat = false).
  { apply Nat.leb_gt. rewrite length_app. cbn. lia. }
  rewrite L. unfold view. cbn. congruence.
Qed.

Lemma seg_rec_silence st f buf sp si d :
  view st = (true, buf, sp, si, false, d) ->
  si + 1 < SILENCE_END_FRAMES cfg ->
  (length buf + 1 < MAX_RECORDING_FRAMES)%nat ->
  view (segment cfg st f false) = (true, buf ++ [f], sp, si + 1, false, d).
Proof.
  intros V Hm Hn. apply view_inv in V. destruct V as (V1 & V2 & V3 & V4 & V5 & V6).
  unfold segment. rewrite V5, V1. cbn.
  rewrite V2, V4, deque_append_length by (try apply MAX_RECORDING_FRAMES_pos; lia).
  apply Z.leb_gt in Hm. rewrite Hm. cbn.
  assert (L : (MAX_RECORDING_FRAMES <=? length (buf ++ [f]))%nat = false).
  { apply Nat.leb_gt. rewrite length_app. cbn. lia. }
  rewrite L. unfold view. cbn. congruence.
Qed.

Lemma finish_recording_view st :
  view (_finish_recording st)
  = (false, [], 0, 0, is_speaking st,
     dispatched (effects st) ++
     (if (5 <? length (audio_buffer st))%nat then [audio_buffer st] else [])).
Proof.
  unfold view. rewrite finish_recording_dispatched.
  unfold _finish_recording. cbn.
  destruct (5 <? length (audio_buffer st))%nat; reflexivity.
Qed.

Lemma seg_rec_final st f buf sp si d :
  view st = (true, buf, sp, si, false, d) ->
  SILENCE_END_FRAMES cfg <= si + 1 ->
  (length buf + 1 < MAX_RECORDING_FRAMES)%nat ->
  view (segment cfg st f false)
  = (false, [], 0, 0, false,
     d ++ (if (5 <? length (buf ++ [f]))%nat then [buf ++ [f]] else [])).
Proof.
  intros V Hm Hn. apply view_inv in V. destruct V as (V1 & V2 & V3 & V4 & V5 & V6).
  rewrite segment_finalizes;
    [| exact V1 | rewrite V5; reflexivity | left; split; [reflexivity|lia]].
  rewrite V2, deque_append_length by (try apply MAX_RECORDING_FRAMES_pos; lia).
  rewrite finish_recording_view. cbn. rewrite V5, V6. reflexivity.
Qed.

Lemma run_app evs1 evs2 st :
  run cfg st (evs1 ++ evs2) = run cfg (run cfg st evs1) evs2.
Proof. unfold run. apply fold_left_app. Qed.

Lemma classes_split l1 : forall st evs l2,
  classes cfg st evs = l1 ++ l2 ->
  exists evs1 evs2,
    evs = evs1 ++ evs2 /\ classes cfg st evs1 = l1
    /\ classes cfg (run cfg st evs1) evs2 = l2.
Proof.
  induction l1 as [|a l1 IH]; intros st evs l2 H.
  - exists [], evs. auto.
  - destruct evs as [|ev evs]; [discriminate|].
    cbn [classes app] in H. injection H as Ha H.
    destruct (IH _ _ _ H) as (evs1 & evs2 & -> & H1 & H2).
    exists (ev :: evs1), evs2. repeat split.
    + cbn [classes]. rewrite Ha, H1. reflexivity.
    + exact H2.
Qed.

Lemma classes_single st evs c :
  classes cfg st evs = [Some c] ->
  exists frame energy tc tg,
    evs = [Ev_frame frame energy tc tg]
    /\ event_class cfg st (Ev_frame frame energy tc tg) = Some c
    /\ frames_of evs = [frame].
Proof.
  destruct evs as [|ev [|ev' evs]]; try discriminate.
  cbn [classes]. intros H. injection H as H.
  destruct ev as [[|x fr] energy tc tg| | |]; try discriminate.
  exists (x :: fr), energy, tc, tg. auto.
Qed.

Lemma classes_repeat_frames c n : forall st evs,
  classes cfg st evs = repeat (Some c) n ->
  length evs = n /\ length (frames_of evs) = n.
Proof.
  induction n as [|n IH]; intros st evs H.
  - destruct evs; [auto|discriminate].
  - destruct evs as [|ev evs]; [discriminate|].
    cbn [classes repeat] in H. injection H as Ha H.
    destruct (IH _ _ H) as [L1 L2].
    destruct ev as [[|x fr] ? ? ?| | |]; try discriminate. cbn. auto.
Qed.

(** A run of speech frames while recording only grows the buffer. *)
Lemma run_rec_speech evs : forall st buf sp spk d,
  view st = (true, buf, sp, 0, spk, d) ->
  classes cfg st evs = repeat (Some Speech) (length evs) ->
  (length buf + length evs < MAX_RECORDING_FRAMES)%nat ->
  view (run cfg st evs) = (true, buf ++ frames_of evs, sp, 0, spk, d).
Proof.
  induction evs as [|ev evs IH]; intros st buf sp spk d V H L.
  - cbn. rewrite app_nil_r. exact V.
  - cbn [classes repeat length] in H. injection H as Ha H.
    destruct ev as [[|x fr] energy tc tg| | |]; try discriminate.
    set (frame := x :: fr) in *.
    destruct (step_frame_segment _ _ _ _ _ _ Ha) as (st2 & E & V2);
      [discriminate|].
    change (run cfg st (Ev_frame frame energy tc tg :: evs))
      with (run cfg (step cfg st (Ev_frame frame energy tc tg)) evs).
    change (frames_of (Ev_frame frame energy tc tg :: evs))
      with (frame :: frames_of evs).
    cbn [length] in *.
    replace (buf ++ frame :: frames_of evs) with ((buf ++ [frame]) ++ frames_of evs)
      by (rewrite <- app_assoc; reflexivity).
    apply IH; [| exact H | rewrite length_app; cbn; lia].
    rewrite E. cbn [Class_eqb].
    eapply seg_rec_speech; [rewrite V2; exact V | lia].
Qed.

(** A run of silence frames while recording, too short to confirm the end,
    grows the buffer and the silence counter. *)
Lemma run_rec_silence evs : forall st buf sp si d,
  view st = (true, buf, sp, si, false, d) ->
  classes cfg st evs = repeat (Some Silence) (length evs) ->
  si + Z.of_nat (length evs) < SILENCE_END_FRAMES cfg ->
  (length buf + length evs < MAX_RECORDING_FRAMES)%nat ->
  view (run cfg st evs)
  = (true, buf ++ frames_of evs, sp, si + Z.of_nat (length evs), false, d).
Proof.
  induction evs as [|ev evs IH]; intros st buf sp si d V H M L.
  - cbn. rewrite app_nil_r, Z.add_0_r. exact V.
  - cbn [classes repeat length] in H. injection H as Ha H.
    destruct ev as [[|x fr] energy tc tg| | |]; try discriminate.
    set (frame := x :: fr) in *.
    destruct (step_frame_segment _ _ _ _ _ _ Ha) as (st2 & E & V2);
      [discriminate|].
    change (run cfg st (Ev_frame frame energy tc tg :: evs))
      with (run cfg (step cfg st (Ev_frame frame energy tc tg)) evs).
    change (frames_of (Ev_frame frame energy tc tg :: evs))
      with (frame :: frames_of evs).
    cbn [length] in *.
    replace (buf ++ frame :: frames_of evs) with ((buf ++ [frame]) ++ frames_of evs)
      by (rewrite <- app_assoc; reflexivity).
    replace (si + Z.of_nat (S (length evs))) with ((si + 1) + Z.of_nat (length evs))
      by lia.
    apply IH; [| exact H | lia | rewrite length_app; cbn; lia].
    rewrite E. cbn [Class_eqb].
    eapply seg_rec_silence; [rewrite V2; exact V | lia | lia].
Qed.

Lemma frames_of_app evs1 evs2 :
  frames_of (evs1 ++ evs2) = frames_of evs1 ++ frames_of evs2.
Proof.
  induction evs1 as [|ev evs1 IH]; [reflexivity|].
  destruct ev as [[|x fr] ? ? ?| | |]; cbn; rewrite IH; reflexivity.
Qed.

(** C4 (amended). Normal turn: from an idle engine (not recording, empty
    buffer, zero counters, TTS inactive) with the default confirmation counts
    2 and 16, twelve frames classified as speech followed by sixteen frames
    classified as silence end with the engine idle again and exactly one
    buffer submitted to transcription. That buffer holds every frame but the
    first one, hence 1 + 10 + 16 = 27 frames: recording starts on the second
    speech frame and the buffer starts with that frame. *)
Theorem normal_turn_frame_count (st0 : Engine) (evs : list Event) :
  SPEECH_START_FRAMES cfg = 2 ->
  SILENCE_END_FRAMES cfg = 16 ->
  _is_recording st0 = false -> audio_buffer st0 = [] ->
  _speech_frames st0 = 0 -> _silence_frames st0 = 0 ->
  is_speaking st0 = false ->
  classes cfg st0 evs = repeat (Some Speech) 12 ++ repeat (Some Silence) 16 ->
  view (run cfg st0 evs)
  = (false, [], 0, 0, false, dispatched (effects st0) ++ [tl (frames_of evs)])
  /\ length (tl (frames_of evs)) = 27%nat.
Proof.
  intros HN HM Hrec Hbuf Hsp Hsi Hspk H.
  assert (V0 : view st0 = (false, [], 0, 0, false, dispatched (effects st0)))
    by (unfold view; congruence).
  clear Hrec Hbuf Hsp Hsi Hspk.
  change (repeat (Some Speech) 12 ++ repeat (Some Silence) 16)
    with ([Some Speech] ++ [Some Speech] ++ repeat (Some Speech) 10
          ++ repeat (Some Silence) 15 ++ [Some Silence]) in H.
  apply classes_split in H. destruct H as (evA & evs1 & -> & HA & H).
  apply classes_split in H. destruct H as (evB & evs2 & -> & HB & H).
  apply classes_split in H. destruct H as (evC & evs3 & -> & HC & H).
  apply classes_split in H. destruct H as (evD & evE & -> & HD & HE).
  apply classes_single in HA. destruct HA as (f1 & e1 & c1 & g1 & EA & HA & FA).
  apply classes_single in HB. destruct HB as (f2 & e2 & c2 & g2 & EB & HB & FB).
  apply classes_single in HE. destruct HE as (f3 & e3 & c3 & g3 & EE & HE & FE).
  destruct (classes_repeat_frames _ _ _ _ HC) as [LC LC'].
  destruct (classes_repeat_frames _ _ _ _ HD) as [LD LD'].
  rewrite !run_app. rewrite !frames_of_app, FA, FB, FE. subst evA evB evE.
  cbn [run fold_left] in *.
  set (stA := step cfg st0 (Ev_frame f1 e1 c1 g1)) in *.
  assert (VA : view stA = (false, [], 0 + 1, 0, false, dispatched (effects st0))).
  { destruct (step_frame_segment _ _ _ _ _ _ HA) as (s & E & V); [discriminate|].
    unfold stA. rewrite E. cbn [Class_eqb].
    eapply seg_idle_speech; [rewrite V; exact V0 | lia]. }
  clearbody stA.
  set (stB := step cfg stA (Ev_frame f2 e2 c2 g2)) in *.
  assert (VB : view stB = (true, [f2], 0 + 1 + 1, 0, false, dispatched (effects st0))).
  { destruct (step_frame_segment _ _ _ _ _ _ HB) as (s & E & V); [discriminate|].
    unfold stB. rewrite E. cbn [Class_eqb].
    eapply seg_enter; [rewrite V; exact VA | lia]. }
  clearbody stB.
  fold (run cfg stB evC) in *.
  set (stC := run cfg stB evC) in *.
  assert (VC : view stC
               = (true, [f2] ++ frames_of evC, 0 + 1 + 1, 0, false,
                  dispatched (effects st0))).
  { apply run_rec_speech; [exact VB | rewrite LC; exact HC |].
    rewrite LC. cbn. unfold MAX_RECORDING_FRAMES. lia. }
  clearbody stC.
  fold (run cfg stC evD) in *.
  set (stD := run cfg stC evD) in *.
  assert (VD : view stD
               = (true, ([f2] ++ frames_of evC) ++ frames_of evD, 0 + 1 + 1,
                  0 + Z.of_nat (length evD), false, dispatched (effects st0))).
  { apply run_rec_silence; [exact VC | rewrite LD; exact HD | lia |].
    rewrite length_app, LC', LD. cbn. unfold MAX_RECORDING_FRAMES. lia. }
  clearbody stD.
  assert (LB : length (([f2] ++ frames_of evC) ++ frames_of evD) = 26%nat)
    by (rewrite !length_app, LC', LD'; reflexivity).
  destruct (step_frame_segment _ _ _ _ _ _ HE) as (s & E & V); [discriminate|].
  rewrite E. cbn [Class_eqb].
  rewrite (seg_rec_final s f3 _ _ _ _ (eq_trans V VD));
    [| lia | rewrite LB; unfold MAX_RECORDING_FRAMES; lia].
  cbn [frames_of app tl].
  assert (L5 : (5 <? length ((f2 :: frames_of evC ++ frames_of evD) ++ [f3]))%nat = true).
  { apply Nat.ltb_lt. rewrite length_app. cbn [app] in LB. rewrite LB. cbn. lia. }
  cbn [app] in *. rewrite L5. split.
  - rewrite <- !app_assoc. reflexivity.
  - cbn [length]. rewrite !length_app, LC', LD'. reflexivity.
Qed.

(** *** Barge-in *)

(** One call with the guard window over: the verdict is false when the
    frame initializes the baseline or its energy is at most
    [baseline * 1.78 + 263]; it is true when the energy is above the base
    threshold and at least [baseline * 1.79 + 264]. *)
Lemma barge_in_margin st e base now :
  guard_expired st now = true ->
  (0 <= e)%Q ->
  (_tts_energy_initialized st = true -> (0 <= _tts_energy_ema st)%Q) ->
  let r := _is_barge_in_speech st e base now in
  _tts_energy_initialized (snd r) = true
  /\ (0 <= _tts_energy_ema (snd r))%Q
  /\ _tts_started_at (snd r) = _tts_started_at st
  /\ (_tts_energy_initialized st = false
      \/ (e <= _tts_energy_ema st * (178 # 100) + 263)%Q -> fst r = false)
  /\ (_tts_energy_initialized st = true ->
      (_tts_energy_ema st * (179 # 100) + 264 <= e)%Q ->
      (base < e)%Q -> fst r = true).
Proof.
  intros Hg He Hema. unfold guard_expired in Hg. apply negb_true_iff in Hg.
  unfold _is_barge_in_speech. rewrite Hg. cbv zeta. cbn [fst snd].
  cbn [_tts_energy_initialized _tts_energy_ema _tts_started_at with_tts].
  destruct eta_small as [E0 E1].
  destruct TTS_BASELINE_EMA_ALPHA_val as [Va Vb].
  unfold fadd, fmul, BARGE_IN_DELTA. rewrite Vb, Va, BARGE_IN_MULTIPLIER_val.
  destruct (_tts_energy_initialized st) eqn:I; cbn [negb].
  - specialize (Hema eq_refl). set (m := _tts_energy_ema st) in *.
    destruct (fl_lin ((7656119366529843 # 9007199254740992) * m)) as (A1 & A2 & A3);
      [nra|].
    set (t1 := fl ((7656119366529843 # 9007199254740992) * m)) in *.
    destruct (fl_lin ((5404319552844595 # 36028797018963968) * e)) as (B1 & B2 & B3);
      [nra|].
    set (t2 := fl ((5404319552844595 # 36028797018963968) * e)) in *.
    destruct (fl_lin (t1 + t2)) as (C1 & C2 & C3); [lra|].
    set (m' := fl (t1 + t2)) in *.
    destruct (fl_lin (m' * (3602879701896397 # 2251799813685248))) as (D1 & D2 & D3);
      [nra|].
    set (t3 := fl (m' * (3602879701896397 # 2251799813685248))) in *.
    destruct (fl_lin (t3 + 200)) as (F1 & F2 & F3); [lra|].
    set (d := fl (t3 + 200)) in *.
    split; [reflexivity|]. split; [exact C3|]. split; [reflexivity|]. split.
    + intros [H|H]; [discriminate|].
      apply Qltb_ge. eapply Qle_trans; [|apply py_max_ge_r]. lra.
    + intros _ H1 H2. apply Qltb_lt. rewrite py_max_Qmax.
      apply Q.max_lub_lt; [exact H2|]. lra.
  - destruct (fl_lin (e * (3602879701896397 # 2251799813685248))) as (D1 & D2 & D3);
      [nra|].
    set (t3 := fl (e * (3602879701896397 # 2251799813685248))) in *.
    destruct (fl_lin (t3 + 200)) as (F1 & F2 & F3); [lra|].
    split; [reflexivity|]. split; [exact He|]. split; [reflexivity|]. split.
    + intros _. apply Qltb_ge. eapply Qle_trans; [|apply py_max_ge_r]. lra.
    + discriminate.
Qed.

(** C3 (amended). Barge-in requires real margin, in the program's
    arithmetic (binary64). With the guard window expired:
    (1) over any simulated echo, that is any sequence of frames each of whose
    energy is the TTS baseline tracked at that moment (the first one
    initializing it, at an energy [>= 0]), [_is_barge_in_speech] returns
    false every time;
    (2) for a frame whose energy is [baseline * 2 + 300], with an initialized
    baseline [>= 0], it returns true provided that energy also exceeds the
    base threshold given to the detector;
    (3) more generally the verdict is false for every energy up to
    [baseline * 1.78 + 263] and for the frame that initializes the baseline,
    and true for every energy from [baseline * 1.79 + 264] on that exceeds
    the base threshold. *)
Theorem barge_in_requires_margin :
  (forall (reads : list (Q * Q)) (st : Engine) (e0 : Q),
     (0 <= e0)%Q ->
     (_tts_energy_initialized st = true -> (0 <= _tts_energy_ema st)%Q) ->
     Forall (fun r => guard_expired st (snd r) = true) reads ->
     Forall (fun v => v = false)
       (fst (barge_in_run st (simulated_echo st e0 reads))))
  /\ (forall (st : Engine) (base now : Q),
        _tts_energy_initialized st = true ->
        (0 <= _tts_energy_ema st)%Q ->
        guard_expired st now = true ->
        let jump := fadd (fmul (_tts_energy_ema st) 2) 300 in
        (base < jump)%Q ->
        fst (_is_barge_in_speech st jump base now) = true)
  /\ (forall (st : Engine) (e base now : Q),
        guard_expired st now = true ->
        (0 <= e)%Q ->
        (_tts_energy_initialized st = true -> (0 <= _tts_energy_ema st)%Q) ->
        (_tts_energy_initialized st = false
         \/ (e <= _tts_energy_ema st * (178 # 100) + 263)%Q ->
         fst (_is_barge_in_speech st e base now) = false)
        /\ (_tts_energy_initialized st = true ->
            (_tts_energy_ema st * (179 # 100) + 264 <= e)%Q ->
            (base < e)%Q ->
            fst (_is_barge_in_speech st e base now) = true)).
Proof.
  split; [|split].
  - induction reads as [|[base now] reads IH]; intros st e0 He Hema Hg;
      [constructor|].
    inversion Hg as [|? ? Hg1 Hg2]; subst. cbn [snd] in Hg1.
    cbn [simulated_echo barge_in_run].
    set (e := if _tts_energy_initialized st then _tts_energy_ema st else e0).
    assert (He' : (0 <= e)%Q).
    { unfold e. destruct (_tts_energy_initialized st); [apply Hema; reflexivity|exact He]. }
    pose proof (barge_in_margin st e base now Hg1 He' Hema) as M. cbv zeta in M.
    destruct M as (M1 & M2 & M3 & M4 & _).
    destruct (_is_barge_in_speech st e base now) as [v st1] eqn:R.
    cbn [fst snd] in *.
    assert (Hv : v = false).
    { apply M4. unfold e. destruct (_tts_energy_initialized st); [right|left; reflexivity].
      specialize (Hema eq_refl). lra. }
    assert (Hg' : Forall (fun r => guard_expired st1 (snd r) = true) reads).
    { eapply Forall_impl; [|exact Hg2]. intros c Hc.
      unfold guard_expired in *. rewrite M3. exact Hc. }
    specialize (IH st1 e0 He (fun _ => M2) Hg').
    destruct (barge_in_run st1 (simulated_echo st1 e0 reads)) as [vs st2].
    cbn [fst] in *. constructor; assumption.
  - intros st base now Hi Hm Hg jump Hb.
    assert (Hj : (0 <= jump)%Q) by (apply fl_nonneg; pose proof (fl_nonneg (_tts_energy_ema st * 2)); unfold fmul; nra).
    pose proof (barge_in_margin st jump base now Hg Hj (fun _ => Hm)) as M.
    cbv zeta in M. destruct M as (_ & _ & _ & _ & M5).
    apply M5; [exact Hi | | exact Hb].
    unfold jump, fadd, fmul. set (m := _tts_energy_ema st) in *.
    destruct eta_small as [E0 E1].
    destruct (fl_lin (m * 2)) as (A1 & A2 & A3); [lra|].
    set (t := fl (m * 2)) in *.
    destruct (fl_lin (t + 300)) as (B1 & B2 & B3); [lra|]. lra.
  - intros st e base now Hg He Hema.
    pose proof (barge_in_margin st e base now Hg He Hema) as M.
    cbv zeta in M. destruct M as (_ & _ & _ & M4 & M5). split; assumption.
Qed.

End EngineFacts.

(** ** The debounce coalescer *)

Section DebounceFacts.

Import Orch.

Local Arguments Z.leb : simpl never.
Local Arguments Z.of_nat : simpl never.

Lemma forwarded_app (a b : list Effect) :
  forwarded (a ++ b) = forwarded a ++ forwarded b.
Proof.
  induction a as [|e a IH]; [reflexivity|].
  destruct e; cbn; rewrite IH; reflexivity.
Qed.

(** A flush forwards the merged string once, unless it is empty, and always
    empties the pending list. *)
Lemma flush_spec (o : Orchestrator) :
  let merged := py_strip (py_join " " (_voice_buffer_parts o)) in
  effects (_flush_voice_buffer o)
  = effects o ++
    (if str_truthy merged && negb (length (_voice_buffer_parts o) =? 0)%nat
     then [Process_user_input merged] else [])
  /\ _voice_buffer_parts (_flush_voice_buffer o) = []
  /\ _voice_debounce_task (_flush_voice_buffer o) = _voice_debounce_task o
  /\ _debounce_window (_flush_voice_buffer o) = _debounce_window o
  /\ _debounce_short_window (_flush_voice_buffer o) = _debounce_short_window o
  /\ _debounce_max_parts (_flush_voice_buffer o) = _debounce_max_parts o.
Proof.
  unfold _flush_voice_buffer.
  destruct (_voice_buffer_parts o) as [|p ps] eqn:P.
  - cbn. rewrite ?andb_false_r, ?app_nil_r. repeat split; auto.
  - cbn [length Nat.eqb negb]. rewrite andb_true_r.
    destruct (str_truthy (py_strip (py_join " " (p :: ps)))); cbn;
      rewrite ?app_nil_r; repeat split; auto.
Qed.

Lemma flush_tasks (o : Orchestrator) :
  _loop_tasks (_flush_voice_buffer o) = _loop_tasks o.
Proof.
  unfold _flush_voice_buffer.
  destruct (_voice_buffer_parts o) as [|p ps]; [reflexivity|].
  destruct (str_truthy _); reflexivity.
Qed.

Lemma flush_empty (o : Orchestrator) :
  _voice_buffer_parts o = [] -> _flush_voice_buffer o = o.
Proof. unfold _flush_voice_buffer. intros ->. reflexivity. Qed.

Lemma flush_idem (o : Orchestrator) :
  _flush_voice_buffer (_flush_voice_buffer o) = _flush_voice_buffer o.
Proof. apply flush_empty. apply (flush_spec o). Qed.

(** However many tasks wake together, the first of them flushes and the
    others find the pending list empty. *)
Lemma fold_flush (woken : list Task) : forall (o : Orchestrator),
  woken <> [] ->
  fold_left (fun o _ => _flush_voice_buffer o) woken o = _flush_voice_buffer o.
Proof.
  induction woken as [|t woken IH]; intros o H; [congruence|].
  cbn [fold_left]. destruct woken as [|t' woken]; [reflexivity|].
  rewrite IH by discriminate. apply flush_idem.
Qed.

Lemma with_tasks_same (o : Orchestrator) :
  with_tasks o (_voice_debounce_task o) (_loop_tasks o) = o.
Proof. destruct o; reflexivity. Qed.

Lemma filter_none (now : Q) (tasks : list Task) :
  existsb (due now) tasks = false ->
  filter (due now) tasks = [] /\ map (wake now) tasks = tasks.
Proof.
  induction tasks as [|t tasks IH]; [auto|].
  cbn [existsb filter map]. intros H. apply orb_false_iff in H. destruct H as [H1 H2].
  destruct (IH H2) as [I1 I2]. unfold wake at 1. rewrite H1, I1, I2. auto.
Qed.

Lemma filter_some (now : Q) (tasks : list Task) :
  existsb (due now) tasks = true -> filter (due now) tasks <> [].
Proof.
  induction tasks as [|t tasks IH]; [discriminate|].
  cbn [existsb filter]. destruct (due now t); [discriminate|exact IH].
Qed.

(** The loop's wake-up: if some task is due, one flush; else nothing. *)
Lemma wake_due_cases (o : Orchestrator) (now : Q) :
  wake_due o now
  = if existsb (due now) (_loop_tasks o)
    then _flush_voice_buffer
           (with_tasks o (_voice_debounce_task o) (map (wake now) (_loop_tasks o)))
    else o.
Proof.
  unfold wake_due. destruct (existsb (due now) (_loop_tasks o)) eqn:E.
  - apply fold_flush, filter_some, E.
  - destruct (filter_none now _ E) as [F M]. rewrite F, M. cbn [fold_left].
    apply with_tasks_same.
Qed.

Lemma wake_due_tasks (o : Orchestrator) (now : Q) :
  _loop_tasks (wake_due o now) = map (wake now) (_loop_tasks o)
  /\ _voice_debounce_task (wake_due o now) = _voice_debounce_task o.
Proof.
  rewrite wake_due_cases. destruct (existsb (due now) (_loop_tasks o)) eqn:E.
  - rewrite flush_tasks. destruct (flush_spec (with_tasks o (_voice_debounce_task o)
                                     (map (wake now) (_loop_tasks o)))) as (_ & _ & F & _).
    rewrite F. auto.
  - destruct (filter_none now _ E) as [_ M]. rewrite M. auto.
Qed.

Lemma due_quiet (now : Q) (t : Task) :
  due now t = negb (task_done t || Qltb now (wakes_at t)).
Proof.
  unfold due, Qltb. destruct (task_done t), (Qle_bool (wakes_at t) now); reflexivity.
Qed.

Lemma quiet_none_due (now : Q) (tasks : list Task) :
  forallb (fun t => task_done t || Qltb now (wakes_at t)) tasks = true ->
  existsb (due now) tasks = false.
Proof.
  induction tasks as [|t tasks IH]; [reflexivity|].
  cbn [forallb existsb]. intros H. apply andb_true_iff in H. destruct H as [H1 H2].
  rewrite due_quiet, H1, (IH H2). reflexivity.
Qed.

Lemma wake_due_quiet (o : Orchestrator) (now : Q) :
  timer_quiet o now = true -> wake_due o now = o.
Proof.
  intros H. rewrite wake_due_cases, (quiet_none_due now _ H). reflexivity.
Qed.

(** Once the due tasks have run, none is due. *)
Lemma quiet_after_wake (o : Orchestrator) (now : Q) :
  timer_quiet (wake_due o now) now = true.
Proof.
  unfold timer_quiet. rewrite (proj1 (wake_due_tasks o now)).
  induction (_loop_tasks o) as [|t tasks IH]; [reflexivity|].
  cbn [map forallb]. rewrite IH, andb_true_r.
  unfold wake. destruct (due now t) eqn:D; [reflexivity|].
  rewrite due_quiet in D. apply negb_false_iff in D. exact D.
Qed.

(** With the pending list empty, a wake-up changes the tasks only. *)
Lemma wake_due_empty (o : Orchestrator) (now : Q) :
  _voice_buffer_parts o = [] ->
  _voice_buffer_parts (wake_due o now) = []
  /\ effects (wake_due o now) = effects o.
Proof.
  intros P. rewrite wake_due_cases.
  destruct (existsb (due now) (_loop_tasks o)); [|auto].
  rewrite flush_empty by exact P. auto.
Qed.

Lemma wake_due_config (o : Orchestrator) (now : Q) :
  _debounce_window (wake_due o now) = _debounce_window o
  /\ _debounce_short_window (wake_due o now) = _debounce_short_window o
  /\ _debounce_max_parts (wake_due o now) = _debounce_max_parts o.
Proof.
  rewrite wake_due_cases.
  destruct (existsb (due now) (_loop_tasks o)); [|auto].
  destruct (flush_spec (with_tasks o (_voice_debounce_task o)
              (map (wake now) (_loop_tasks o)))) as (_ & _ & _ & F4 & F5 & F6).
  rewrite F4, F5, F6. auto.
Qed.

(** *** One timer at a time *)

Lemma all_done_others (tasks : list Task) : forall task,
  forallb task_done tasks = true -> others_done tasks task = true.
Proof.
  induction tasks as [|t tasks IH]; intros task H; [reflexivity|].
  cbn [forallb] in H. apply andb_true_iff in H. destruct H as [H1 H2].
  cbn [others_done]. destruct task as [[|i]|]; rewrite ?H1, ?IH; auto.
Qed.

Lemma others_done_none (tasks : list Task) :
  others_done tasks None = forallb task_done tasks.
Proof.
  induction tasks as [|t tasks IH]; [reflexivity|].
  cbn [others_done forallb]. rewrite IH. reflexivity.
Qed.

Lemma finished_done (t : Task) : task_done t = true -> finished t = t.
Proof. destruct t as [w d]. cbn. intros ->. reflexivity. Qed.

(** After the cancellation of the task in [_voice_debounce_task], if it is
    pending, every task of the loop is done. *)
Lemma cancel_pending_done (tasks : list Task) : forall task,
  others_done tasks task = true ->
  forallb task_done (cancel_pending tasks task) = true.
Proof.
  intros [i|]; [|rewrite others_done_none; auto].
  assert (C : cancel_pending tasks (Some i) = cancel tasks i).
  { unfold cancel_pending. revert i.
    induction tasks as [|t tasks IH]; intros i; [destruct i; reflexivity|].
    destruct i as [|i]; cbn [nth_error cancel].
    - destruct (task_done t) eqn:D; cbn [negb]; [|reflexivity].
      rewrite finished_done by exact D. reflexivity.
    - specialize (IH i). destruct (nth_error tasks i) as [t'|].
      + destruct (negb (task_done t')); [reflexivity | rewrite <- IH; reflexivity].
      + rewrite <- IH. reflexivity. }
  rewrite C. clear C. revert i.
  induction tasks as [|t tasks IH]; intros i H; [destruct i; reflexivity|].
  destruct i as [|i]; cbn [others_done cancel forallb] in *.
  - exact H.
  - apply andb_true_iff in H. destruct H as [H1 H2]. rewrite H1, (IH i H2). reflexivity.
Qed.

Lemma others_done_wake (now : Q) (tasks : list Task) : forall task,
  others_done tasks task = true -> others_done (map (wake now) tasks) task = true.
Proof.
  assert (W : forall t, task_done t = true -> task_done (wake now t) = true).
  { intros t D. unfold wake. destruct (due now t); [reflexivity|exact D]. }
  assert (A : forall ts, forallb task_done ts = true ->
                         forallb task_done (map (wake now) ts) = true).
  { induction ts as [|t ts IH]; [auto|]. cbn [forallb map]. intros H.
    apply andb_true_iff in H. destruct H as [H1 H2]. rewrite (W t H1), (IH H2). auto. }
  induction tasks as [|t tasks IH]; intros task H; [reflexivity|].
  cbn [map others_done] in *. destruct task as [[|i]|].
  - apply A, H.
  - apply andb_true_iff in H. destruct H as [H1 H2]. rewrite (W t H1), (IH _ H2). auto.
  - apply andb_true_iff in H. destruct H as [H1 H2]. rewrite (W t H1), (IH _ H2). auto.
Qed.

Lemma new_task_single (old : list Task) (t : Task) :
  forallb task_done old = true ->
  others_done (old ++ [t]) (Some (length old)) = true.
Proof.
  induction old as [|a old IH]; [reflexivity|].
  cbn [forallb app length others_done]. intros H.
  apply andb_true_iff in H. destruct H as [H1 H2]. rewrite H1, (IH H2). reflexivity.
Qed.

Lemma new_task_quiet (old : list Task) (t : Task) (now : Q) :
  forallb task_done old = true ->
  Qltb now (wakes_at t) = true ->
  forallb (fun t => task_done t || Qltb now (wakes_at t)) (old ++ [t]) = true.
Proof.
  intros H Q. induction old as [|a old IH].
  - cbn. rewrite Q, orb_true_r. reflexivity.
  - cbn [forallb app] in *. apply andb_true_iff in H. destruct H as [H1 H2].
    rewrite H1, (IH H2). reflexivity.
Qed.

Lemma new_task_due (old : list Task) (t : Task) (now : Q) :
  due now t = true -> existsb (due now) (old ++ [t]) = true.
Proof.
  intros D. rewrite existsb_app. cbn. rewrite D, !orb_true_r. reflexivity.
Qed.

Lemma single_timer_wake (o : Orchestrator) (now : Q) :
  single_timer o = true -> single_timer (wake_due o now) = true.
Proof.
  unfold single_timer. destruct (wake_due_tasks o now) as [-> ->].
  apply others_done_wake.
Qed.

Lemma single_timer_flush (o : Orchestrator) :
  single_timer (_flush_voice_buffer o) = single_timer o.
Proof.
  unfold single_timer. rewrite flush_tasks.
  destruct (flush_spec o) as (_ & _ & -> & _). reflexivity.
Qed.

Lemma single_timer_enqueue (o : Orchestrator) (text : string) (now : Q) :
  single_timer o = true -> single_timer (_enqueue_voice_input o text now) = true.
Proof.
  intros H. unfold _enqueue_voice_input.
  destruct (negb (str_truthy (py_strip text))); [exact H|].
  destruct (Qle_bool (_debounce_window o) 0); [exact H|].
  cbv zeta.
  match goal with |- context [if ?c then _ else _] => destruct c end.
  - rewrite single_timer_flush. exact H.
  - unfold single_timer. cbn. apply new_task_single, cancel_pending_done, H.
Qed.

Lemma single_timer_step (o : Orchestrator) (ev : Event) :
  single_timer o = true -> single_timer (step o ev) = true.
Proof.
  intros H. destruct ev as [now text | now]; cbn [step].
  - apply single_timer_enqueue, single_timer_wake, H.
  - apply single_timer_wake, H.
Qed.

Lemma single_timer_run (evs : list Event) : forall (o : Orchestrator),
  single_timer o = true -> single_timer (run o evs) = true.
Proof.
  induction evs as [|ev evs IH]; intros o H; [exact H|].
  change (run o (ev :: evs)) with (run (step o ev) evs).
  apply IH, single_timer_step, H.
Qed.

(** One fragment that does not reach the cap: it is appended, the pending
    timer is cancelled and a new one started, the only one not done. *)
Lemma enqueue_buffers (o : Orchestrator) (text : string) (now : Q) :
  (0 < _debounce_window o)%Q ->
  py_strip text <> ""%string ->
  Z.of_nat (length (_voice_buffer_parts o)) + 1 < _debounce_max_parts o ->
  single_timer o = true ->
  let o' := _enqueue_voice_input o text now in
  effects o' = effects o
  /\ _voice_buffer_parts o' = _voice_buffer_parts o ++ [py_strip text]
  /\ (exists old,
        _loop_tasks o'
        = old ++ [{| wakes_at := (now + window_for o (py_strip text))%Q;
                     task_done := false |}]
        /\ forallb task_done old = true)
  /\ _debounce_window o' = _debounce_window o
  /\ _debounce_short_window o' = _debounce_short_window o
  /\ _debounce_max_parts o' = _debounce_max_parts o.
Proof.
  intros Hw Ht Hn Hs. unfold _enqueue_voice_input.
  apply str_truthy_true in Ht. rewrite Ht. cbn [negb].
  assert (W : Qle_bool (_debounce_window o) 0 = false).
  { destruct (Qle_bool (_debounce_window o) 0) eqn:E; [|reflexivity].
    apply Qle_bool_iff in E. exfalso. apply (Qlt_not_le _ _ Hw E). }
  rewrite W. cbn.
  assert (L : (_debounce_max_parts o
               <=? Z.of_nat (length (_voice_buffer_parts o ++ [py_strip text]))) = false).
  { apply Z.leb_gt. rewrite length_app. cbn [length]. lia. }
  rewrite L. cbn. repeat split.
  exists (cancel_pending (_loop_tasks o) (_voice_debounce_task o)).
  split; [reflexivity|]. apply cancel_pending_done, Hs.
Qed.

Lemma window_for_ext (o o' : Orchestrator) (text : string) :
  _debounce_window o' = _debounce_window o ->
  _debounce_short_window o' = _debounce_short_window o ->
  window_for o' text = window_for o text.
Proof. unfold window_for. intros -> ->. reflexivity. Qed.

Lemma within_window_ext (o o' : Orchestrator) frags T :
  _debounce_window o' = _debounce_window o ->
  _debounce_short_window o' = _debounce_short_window o ->
  within_window o frags T -> within_window o' frags T.
Proof.
  intros E1 E2. induction frags as [|[t text] rest IH]; [auto|].
  cbn [within_window]. rewrite (window_for_ext o o') by assumption.
  destruct rest as [|[t' text'] rest]; [auto|].
  intros [H1 H2]. split; [exact H1 | apply IH, H2].
Qed.

(** Fragments arriving within the window are buffered until the timer of the
    last one fires; that flush sees all of them, in arrival order. *)
Lemma coalesce_run frags : forall (o : Orchestrator) (T : Q),
  frags <> [] ->
  (0 < _debounce_window o)%Q ->
  single_timer o = true ->
  timer_quiet o (fst (hd (0%Q, ""%string) frags)) = true ->
  Forall (fun f => py_strip (snd f) <> ""%string) frags ->
  Z.of_nat (length (_voice_buffer_parts o)) + Z.of_nat (length frags)
    < _debounce_max_parts o ->
  within_window o frags T ->
  let o' := run o (arrivals frags ++ [Idle_until T]) in
  let parts := _voice_buffer_parts o ++ map (fun f => py_strip (snd f)) frags in
  let merged := py_strip (py_join " " parts) in
  effects o' = effects o ++ (if str_truthy merged then [Process_user_input merged] else [])
  /\ _voice_buffer_parts o' = [].
Proof.
  induction frags as [|[t text] rest IH]; intros o T Hne Hw Hst Hq Hs Hn Hwin;
    [congruence|].
  inversion Hs as [|? ? Hs1 Hs2]; subst. cbn [snd fst hd] in *.
  cbn [length] in Hn.
  pose proof (enqueue_buffers o text t Hw Hs1 ltac:(lia) Hst) as E.
  cbv zeta in E. destruct E as (E1 & E2 & (old & E3 & Eold) & E4 & E5 & E6).
  pose proof (single_timer_enqueue o text t Hst) as Hst1.
  cbn [arrivals map app run fold_left step fst snd].
  rewrite (wake_due_quiet o t Hq).
  set (o1 := _enqueue_voice_input o text t) in *. clearbody o1.
  destruct rest as [|[t' text'] rest].
  - (* last fragment: the timer fires at [T] *)
    cbn [map fold_left step app]. cbn [within_window] in Hwin.
    rewrite wake_due_cases, E3.
    rewrite new_task_due
      by (unfold due; cbn [task_done wakes_at negb andb]; apply Qle_bool_iff, Hwin).
    match goal with |- context [_flush_voice_buffer ?x] =>
      pose proof (flush_spec x) as F end.
    cbv zeta in F. cbn [_voice_buffer_parts effects with_tasks] in F.
    destruct F as (F1 & F2 & _).
    rewrite F1, F2, E1, E2.
    assert (L : (length (_voice_buffer_parts o ++ [py_strip text]) =? 0)%nat = false).
    { apply Nat.eqb_neq. rewrite length_app. cbn. lia. }
    rewrite L, andb_true_r. auto.
  - (* more to come: the next fragment arrives before the timer fires *)
    change ((t' < t + window_for o (py_strip text))%Q
            /\ within_window o ((t', text') :: rest) T) in Hwin.
    destruct Hwin as [Hlt Hwin].
    assert (Q1 : timer_quiet o1 t' = true).
    { unfold timer_quiet. rewrite E3. apply new_task_quiet; [exact Eold|].
      cbn [wakes_at]. apply Qltb_lt. exact Hlt. }
    specialize (IH o1 T ltac:(discriminate) ltac:(rewrite E4; exact Hw) Hst1 Q1 Hs2).
    rewrite E2, E6, length_app in IH. cbn [length] in IH.
    specialize (IH ltac:(cbn [length] in Hn; lia)
                   (within_window_ext o o1 _ _ E4 E5 Hwin)).
    cbv zeta in IH. rewrite E1 in IH.
    rewrite <- app_assoc in IH. exact IH.
Qed.

Lemma forwarded_nonempty_flush (o : Orchestrator) :
  Forall (fun t => t <> ""%string) (forwarded (effects o)) ->
  Forall (fun t => t <> ""%string) (forwarded (effects (_flush_voice_buffer o))).
Proof.
  intros H. destruct (flush_spec o) as (E & _). rewrite E, forwarded_app.
  apply Forall_app. split; [exact H|].
  destruct (str_truthy _) eqn:S; cbn; [|constructor].
  destruct (negb _); cbn; constructor; [|constructor].
  apply str_truthy_true. exact S.
Qed.

Lemma forwarded_nonempty_step (o : Orchestrator) (ev : Event) :
  Forall (fun t => t <> ""%string) (forwarded (effects o)) ->
  Forall (fun t => t <> ""%string) (forwarded (effects (step o ev))).
Proof.
  assert (W : forall o now,
             Forall (fun t => t <> ""%string) (forwarded (effects o)) ->
             Forall (fun t => t <> ""%string) (forwarded (effects (wake_due o now)))).
  { intros o0 now H. rewrite wake_due_cases.
    destruct (existsb (due now) (_loop_tasks o0)); [|exact H].
    apply forwarded_nonempty_flush. exact H. }
  intros H. destruct ev as [now text | now]; cbn [step]; [|apply W, H].
  specialize (W o now H). set (o1 := wake_due o now) in *. clearbody o1.
  unfold _enqueue_voice_input.
  destruct (str_truthy (py_strip text)) eqn:S; cbn [negb]; [|exact W].
  destruct (Qle_bool (_debounce_window o1) 0).
  - cbn. rewrite forwarded_app. apply Forall_app. split; [exact W|].
    cbn. constructor; [|constructor]. apply str_truthy_true. exact S.
  - cbn.
    destruct (_debounce_max_parts o1 <=? _); [|exact W].
    apply forwarded_nonempty_flush. exact W.
Qed.

Lemma forwarded_nonempty_run evs : forall (o : Orchestrator),
  Forall (fun t => t <> ""%string) (forwarded (effects o)) ->
  Forall (fun t => t <> ""%string) (forwarded (effects (run o evs))).
Proof.
  induction evs as [|ev evs IH]; intros o H; [exact H|].
  cbn [run fold_left]. apply IH, forwarded_nonempty_step, H.
Qed.

(** C8. Debounce coalescing, with the debounce window greater than 0.
    (1) In any state in which the pending list is empty and at most one
    timer is pending -- before the first burst or after any earlier one --
    fragments (non-empty after [strip()], fewer than the cap) that each
    arrive before the timer started by the previous one fires are buffered:
    each arrival cancels the pending timer on the event loop and starts a
    new one, and when the last timer fires, exactly one utterance is
    forwarded to the intent pipeline: the stripped fragments joined with
    single spaces, in arrival order. (2) A flush forwards at most one
    utterance, the merged string, and only if it is not empty; it always
    empties the pending list. (3) In no run is an empty string forwarded.
    (4) At most one timer is pending in every state reached from one in
    which that holds, such as the initial state, where the loop has no
    task: a timer that was replaced has been cancelled. *)
Theorem debounce_coalescing :
  (forall (o : Orchestrator) (frags : list (Q * string)) (T : Q),
     (0 < _debounce_window o)%Q ->
     _voice_buffer_parts o = [] ->
     single_timer o = true ->
     frags <> [] ->
     Forall (fun f => py_strip (snd f) <> ""%string) frags ->
     Z.of_nat (length frags) < _debounce_max_parts o ->
     within_window o frags T ->
     let o' := run o (arrivals frags ++ [Idle_until T]) in
     let merged := py_join " " (map (fun f => py_strip (snd f)) frags) in
     effects o' = effects o ++ [Process_user_input merged]
     /\ forwarded (effects o') = forwarded (effects o) ++ [merged]
     /\ _voice_buffer_parts o' = [])
  /\ (forall (o : Orchestrator),
        let merged := py_strip (py_join " " (_voice_buffer_parts o)) in
        let o' := _flush_voice_buffer o in
        _voice_buffer_parts o' = []
        /\ (effects o' = effects o
            \/ (effects o' = effects o ++ [Process_user_input merged]
                /\ merged <> ""%string)))
  /\ (forall (o : Orchestrator) (evs : list Event),
        Forall (fun t => t <> ""%string) (forwarded (effects o)) ->
        Forall (fun t => t <> ""%string) (forwarded (effects (run o evs))))
  /\ (forall (o : Orchestrator) (evs : list Event),
        (_loop_tasks o = [] -> single_timer o = true)
        /\ (single_timer o = true -> single_timer (run o evs) = true)).
Proof.
  split; [|split; [|split]].
  - intros o frags T Hw Hp Hst Hne Hs Hn Hwin.
    destruct frags as [|[t text] rest]; [congruence|].
    set (frags := (t, text) :: rest) in *. intros o' merged.
    (* a timer due at the first arrival runs first, on an empty list *)
    set (ow := wake_due o t).
    destruct (wake_due_empty o t Hp) as [Wp We].
    destruct (wake_due_config o t) as (Ww & Wsh & Wm).
    assert (R : o' = run ow (arrivals frags ++ [Idle_until T])).
    { unfold o', frags. cbn [arrivals map app fst snd].
      change (run o (Fragment t text :: ?l)) with (run (step o (Fragment t text)) l).
      change (run ow (Fragment t text :: ?l)) with (run (step ow (Fragment t text)) l).
      cbn [step]. unfold ow at 1.
      rewrite (wake_due_quiet (wake_due o t) t (quiet_after_wake o t)). reflexivity. }
    assert (Hq : timer_quiet ow (fst (hd (0%Q, ""%string) frags)) = true)
      by (unfold frags; cbn [hd fst]; apply quiet_after_wake).
    pose proof (coalesce_run frags ow T Hne ltac:(unfold ow; rewrite Ww; exact Hw)
                  (single_timer_wake o t Hst) Hq Hs
                  ltac:(unfold ow; rewrite Wp, Wm; cbn [length]; lia)
                  (within_window_ext o ow _ _ Ww Wsh Hwin)) as C.
    cbv zeta in C. rewrite <- R in C. unfold ow in C. rewrite Wp, We in C.
    cbn [app] in C. fold merged in C.
    assert (Hc : clean (list_ascii_of_string merged)).
    { apply py_join_clean.
      - unfold frags. discriminate.
      - apply Forall_map. eapply Forall_impl; [|exact Hs].
        intros f Hf. apply py_strip_clean. exact Hf. }
    destruct (py_strip_of_clean merged Hc) as [E Hm].
    rewrite E in C. apply str_truthy_true in Hm. rewrite Hm in C.
    destruct C as [C1 C2]. repeat split; [exact C1 | | exact C2].
    rewrite C1, forwarded_app. reflexivity.
  - intros o merged o'. destruct (flush_spec o) as (F1 & F2 & _).
    split; [exact F2|]. fold merged in F1. fold o' in F1.
    destruct (str_truthy merged) eqn:S; cbn [andb] in F1.
    + destruct (negb _) in F1.
      * right. split; [exact F1|]. apply str_truthy_true. exact S.
      * left. rewrite F1. apply app_nil_r.
    + left. rewrite F1. apply app_nil_r.
  - intros o evs. apply forwarded_nonempty_run.
  - intros o evs. split.
    + unfold single_timer. intros ->. reflexivity.
    + apply single_timer_run.
Qed.

End DebounceFacts.
(** ** The interrupt handler *)

Section InterruptFacts.

Import Orch.

Lemma stops_app (a b : list Effect) : stops (a ++ b) = (stops a + stops b)%nat.
Proof.
  induction a as [|e a IH]; [reflexivity|].
  destruct e; cbn; rewrite IH; reflexivity.
Qed.

(** C10 (amended). Interrupt with no active playback. When neither the
    orchestrator's [_tts_active] nor the engine's [is_speaking] is set,
    [_on_interrupt] returns without raising, does not call
    [stop_speaking()], whatever that call would do, and logs nothing.
    It is not a no-op. (1) Unless the call falls within the cooldown of an
    earlier one, where it changes nothing, it stamps [_last_interrupt_at]
    with its clock read, and changes nothing else. (2) That stamp arms the
    cooldown: an interrupt less than [_interrupt_cooldown_sec] later is
    dropped, playback active or not. (3) Reached through the engine's
    [request_interrupt], the handler behaves in the same way, and the engine's
    [interrupt_requested] is left set, so that the next [_validate] of the
    pipeline drops its request. (4) Conversely, whenever the handler does
    call [stop_speaking()], one of the two flags was set. *)
Theorem interrupt_without_playback_stops_nothing :
  (forall (o : Orchestrator) (now : Q) (stop_raises : bool),
     _tts_active o = false ->
     let r := _on_interrupt o false now stop_raises in
     snd r = Returned
     /\ effects (fst r) = effects o
     /\ stops (effects (fst r)) = stops (effects o)
     /\ fst r = (if Qltb (now - _last_interrupt_at o) (_interrupt_cooldown_sec o)
                 then o else with_interrupt o false now (effects o)))
  /\ (forall (o : Orchestrator) (now : Q) (stop_raises : bool)
             (spk : bool) (now' : Q) (stop_raises' : bool),
        _tts_active o = false ->
        (_interrupt_cooldown_sec o <= now - _last_interrupt_at o)%Q ->
        (now' - now < _interrupt_cooldown_sec o)%Q ->
        let o1 := fst (_on_interrupt o false now stop_raises) in
        _last_interrupt_at o1 = now
        /\ _on_interrupt o1 spk now' stop_raises' = (o1, Returned))
  /\ (forall (e : STS.Engine) (o : Orchestrator) (now : Q) (stop_raises : bool),
        _tts_active o = false -> STS.is_speaking e = false ->
        let '(e', o', r) := request_interrupt e o now stop_raises in
        r = Returned
        /\ effects o' = effects o
        /\ o' = (if STS.on_interrupt e then fst (_on_interrupt o false now stop_raises)
                 else o)
        /\ e' = STS.request_interrupt e
        /\ STS.interrupt_requested e' = true
        /\ snd (_validate e') = false)
  /\ (forall (o : Orchestrator) (spk : bool) (now : Q) (stop_raises : bool),
        stops (effects (fst (_on_interrupt o spk now stop_raises))) <> stops (effects o) ->
        _tts_active o || spk = true).
Proof.
  assert (A : forall (o : Orchestrator) (now : Q) (stop_raises : bool),
             _tts_active o = false ->
             snd (_on_interrupt o false now stop_raises) = Returned
             /\ effects (fst (_on_interrupt o false now stop_raises)) = effects o
             /\ fst (_on_interrupt o false now stop_raises)
                = (if Qltb (now - _last_interrupt_at o) (_interrupt_cooldown_sec o)
                   then o else with_interrupt o false now (effects o))).
  { intros o now sr Ha. unfold _on_interrupt.
    destruct (Qltb (now - _last_interrupt_at o) (_interrupt_cooldown_sec o));
      [auto|].
    cbn. rewrite Ha. cbn. auto. }
  split; [|split; [|split]].
  - intros o now sr Ha r. destruct (A o now sr Ha) as (A1 & A2 & A3).
    unfold r. rewrite A2. auto.
  - intros o now sr spk now' sr' Ha Hc Hn o1.
    destruct (A o now sr Ha) as (_ & _ & A3). unfold o1. rewrite A3.
    apply Qltb_ge in Hc. rewrite Hc. cbn [_last_interrupt_at with_interrupt].
    split; [reflexivity|]. unfold _on_interrupt.
    cbn [_last_interrupt_at _interrupt_cooldown_sec with_interrupt].
    apply Qltb_lt in Hn. rewrite Hn. reflexivity.
  - intros e o now sr Ha Hs. unfold request_interrupt.
    assert (Hs' : STS.is_speaking (STS.request_interrupt e) = false).
    { unfold STS.request_interrupt. cbn.
      destruct (STS.on_interrupt e); cbn; exact Hs. }
    assert (Hi : STS.interrupt_requested (STS.request_interrupt e) = true).
    { unfold STS.request_interrupt. cbn.
      destruct (STS.on_interrupt e); reflexivity. }
    assert (Ho : STS.on_interrupt (STS.request_interrupt e) = STS.on_interrupt e).
    { unfold STS.request_interrupt. cbn.
      destruct (STS.on_interrupt e) eqn:E; cbn; rewrite ?E; reflexivity. }
    assert (Hv : snd (_validate (STS.request_interrupt e)) = false).
    { unfold _validate. rewrite Hi. reflexivity. }
    rewrite Ho. destruct (STS.on_interrupt e); [|auto 7].
    rewrite Hs'. destruct (A o now sr Ha) as (A1 & A2 & _).
    destruct (_on_interrupt o false now sr) as [o' r]. cbn in *. auto 7.
  - intros o spk now sr H.
    destruct (_tts_active o || spk) eqn:F; [reflexivity|].
    exfalso. apply H. unfold _on_interrupt.
    destruct (Qltb (now - _last_interrupt_at o) (_interrupt_cooldown_sec o));
      [reflexivity|].
    cbn. rewrite F. reflexivity.
Qed.

End InterruptFacts.

(** ** The transcription gate *)

Section GateFacts.

Import STS.

Ltac gate_dead :=
  cbn [emitted provider_calls app]; repeat split; intros;
  repeat match goal with
         | H : _ /\ _ |- _ => destruct H
         | H : exists _, _ |- _ => destruct H
         end;
  try discriminate; try congruence; auto.

Lemma in_hallucinations_In (text : string) :
  in_hallucinations text = true <-> In text hallucinations.
Proof.
  unfold in_hallucinations. rewrite existsb_exists. split.
  - intros (x & Hx & E). apply String.eqb_eq in E. subst. exact Hx.
  - intros H. exists text. split; [exact H | apply String.eqb_refl].
Qed.

(** C9. Transcription gate filtering, for an engine with a registered
    [on_speech_end] callback. The callback is invoked (once, with the text)
    if and only if the provider call is made and succeeds and the stripped,
    lower-cased text is not in the hallucination set and has at least 2
    characters. When the provider raises, the error is logged, the callback
    is not invoked and the provider is not called again. (With no callback
    registered there is nothing to invoke.) *)
Theorem transcription_gate_filtering
    (groq_client : bool) (audio_data : list Z) (reply : ProviderReply) :
  let effs := _transcribe_async groq_client true audio_data reply in
  (forall text : string,
     emitted effs = [text]
     <-> (groq_client = true /\ audio_data <> []
          /\ exists raw, reply = Reply raw
               /\ text = py_lower (py_strip raw)
               /\ ~ In text hallucinations
               /\ (2 <= String.length text)%nat))
  /\ (emitted effs = [] \/ exists text, emitted effs = [text])
  /\ (provider_calls effs <= 1)%nat
  /\ (reply = Provider_raises ->
      emitted effs = []
      /\ (groq_client = true -> audio_data <> [] ->
          effs = [Call_provider audio_data; Log_error]))
  /\ emitted (_transcribe_async groq_client false audio_data reply) = [].
Proof.
  intros effs.
  assert (E : emitted (_transcribe_async groq_client false audio_data reply) = []).
  { unfold _transcribe_async.
    destruct groq_client, audio_data as [|a audio], reply as [raw|];
      try reflexivity.
    cbn [negb length Nat.eqb].
    destruct (in_hallucinations _ || _); reflexivity. }
  revert E. generalize (emitted (_transcribe_async groq_client false audio_data reply)).
  intros none E.
  unfold effs, _transcribe_async.
  destruct groq_client; cbn [negb]; [|gate_dead].
  destruct audio_data as [|a audio]; cbn [length Nat.eqb]; [gate_dead|].
  destruct reply as [raw|]; [|gate_dead].
  set (text := py_lower (py_strip raw)).
  destruct (in_hallucinations text) eqn:Hh; cbn [orb].
  { gate_dead. subst. match goal with H : Reply _ = Reply _ |- _ => injection H as <- end.
    match goal with H : ~ In _ _ |- _ => exfalso; apply H end.
    apply in_hallucinations_In. exact Hh. }
  destruct (Nat.ltb_spec (String.length text) 2) as [Hl|Hl].
  { gate_dead. subst. match goal with H : Reply _ = Reply _ |- _ => injection H as <- end.
    unfold text in *. lia. }
  cbn [emitted provider_calls app]. split; [|split; [|split; [|split]]].
  - intros text0. split.
    + intros Hem. injection Hem as <-. repeat split; try discriminate.
      exists raw. repeat split; auto.
      intros Hin. apply in_hallucinations_In in Hin. congruence.
    + intros (_ & _ & raw' & E' & -> & _). injection E' as <-. reflexivity.
  - right. exists text. reflexivity.
  - auto.
  - discriminate.
  - exact E.
Qed.

End GateFacts.

(** ** Concrete runs *)

Section ConcreteRuns.

Import STS.

(** The classes of the normal turn: twelve speech frames, then sixteen
    silence frames. *)
Lemma normal_turn_classes :
  classes default_config init normal_turn
  = repeat (Some Speech) 12 ++ repeat (Some Silence) 16.
Proof. vm_compute. reflexivity. Qed.

(** C1, counterexample. With the default configuration, a recording started
    as barge-in is left on the first frame that is not classified as speech:
    one silence frame (16 are required) and a buffer of one frame (500 is the
    cap). And when three frames confirm speech, a recording starts after
    speech, speech, silence, speech, speech: only two consecutive speech
    frames. *)
Lemma hysteresis_as_stated_fails :
  (let ev := Ev_frame [3] 0 101 101 in
   let st := run default_config init barge_in_turn in
   _is_recording st = true
   /\ _is_recording (step default_config st ev) = false
   /\ history default_config init (barge_in_turn ++ [ev]) []
      = [Silence; Speech; Speech; Silence]
   /\ ~ (SILENCE_END_FRAMES default_config
         <= Z.of_nat (streak Silence
                        (history default_config init (barge_in_turn ++ [ev]) [])))
   /\ ~ (MAX_RECORDING_FRAMES
         <= length (deque_append MAX_RECORDING_FRAMES (audio_buffer st) [3%Z]))%nat)
  /\ (let ev := Ev_frame [5] 1000 1 1 in
      let st := run three_frame_config init attack_with_dip in
      _is_recording st = false
      /\ _is_recording (step three_frame_config st ev) = true
      /\ history three_frame_config init (attack_with_dip ++ [ev]) []
         = [Speech; Speech; Silence; Speech; Speech]
      /\ ~ (SPEECH_START_FRAMES three_frame_config
            <= Z.of_nat (streak Speech
                           (history three_frame_config init (attack_with_dip ++ [ev]) [])))).
Proof.
  cbv zeta. repeat split; try (vm_compute; reflexivity).
  - vm_compute. intros H. apply H. reflexivity.
  - assert (E : length (deque_append MAX_RECORDING_FRAMES
                          (audio_buffer (run default_config init barge_in_turn)) [3])
                = 2%nat) by (vm_compute; reflexivity).
    rewrite E. unfold MAX_RECORDING_FRAMES. lia.
  - vm_compute. intros H. apply H. reflexivity.
Qed.

(** The exit half of the hysteresis property as the specification words it
    does not hold of the default configuration. *)
Lemma exits_after_confirmation_fails : ~ exits_after_confirmation default_config.
Proof.
  intros H.
  specialize (H barge_in_turn [3] 0%Q 101%Q 101%Q). cbv zeta in H.
  assert (E : length (deque_append MAX_RECORDING_FRAMES
                        (audio_buffer (run default_config init barge_in_turn)) [3])
              = 2%nat) by (vm_compute; reflexivity).
  rewrite E in H.
  assert (S : streak Silence
                (history default_config init
                   (barge_in_turn ++ [Ev_frame [3] 0%Q 101%Q 101%Q]) []) = 1%nat)
    by (vm_compute; reflexivity).
  rewrite S in H.
  destruct H as [H|H].
  - vm_compute. reflexivity.
  - vm_compute. reflexivity.
  - cbn in H. lia.
  - unfold MAX_RECORDING_FRAMES in H. lia.
Qed.

(** The entry half does not hold when three frames confirm speech. *)
Lemma enters_after_confirmation_fails : ~ enters_after_confirmation three_frame_config.
Proof.
  intros H.
  specialize (H attack_with_dip [5] 1000%Q 1%Q 1%Q). cbv zeta in H.
  assert (S : streak Speech
                (history three_frame_config init
                   (attack_with_dip ++ [Ev_frame [5] 1000%Q 1%Q 1%Q]) []) = 2%nat)
    by (vm_compute; reflexivity).
  rewrite S in H.
  assert (H' : SPEECH_START_FRAMES three_frame_config <= Z.of_nat 2).
  { apply H; vm_compute; reflexivity. }
  cbn in H'. lia.
Qed.

(** C1, witness: the second speech frame of the normal turn starts the
    recording after two consecutive speech frames, and the sixteenth silence
    frame ends it after sixteen consecutive silence frames. When three
    frames confirm speech, the recording that starts after speech, speech,
    silence, speech, speech starts after two consecutive speech frames, with
    a surplus of three speech frames. *)
Lemma segmenter_hysteresis_witness :
  (let h := history default_config init (firstn 2 normal_turn) [] in
   hd Skipped h = Speech
   /\ Z.min (SPEECH_START_FRAMES default_config) 2 <= Z.of_nat (streak Speech h)
   /\ SPEECH_START_FRAMES default_config <= credit h)
  /\ (let h := history default_config init normal_turn [] in
      let st := run default_config init (firstn 27 normal_turn) in
      hd Skipped h = Skipped
      \/ (hd Skipped h = Silence /\ is_speaking st = true)
      \/ SILENCE_END_FRAMES default_config <= Z.of_nat (streak Silence h)
      \/ (MAX_RECORDING_FRAMES
          <= length (deque_append MAX_RECORDING_FRAMES (audio_buffer st) [28%Z]))%nat)
  /\ (let h := history three_frame_config init
                 (attack_with_dip ++ [Ev_frame [5] 1000 1 1]) [] in
      hd Skipped h = Speech
      /\ Z.min (SPEECH_START_FRAMES three_frame_config) 2 <= Z.of_nat (streak Speech h)
      /\ SPEECH_START_FRAMES three_frame_config <= credit h).
Proof.
  split; [|split]; [| |apply (proj1 (segmenter_hysteresis three_frame_config
                                      attack_with_dip [5] 1000%Q 1%Q 1%Q));
                      vm_compute; reflexivity].
  - apply (proj1 (segmenter_hysteresis default_config [Ev_frame [1] 300%Q 1%Q 1%Q]
                    [2] 1000%Q 1%Q 1%Q)).
    + vm_compute. reflexivity.
    + vm_compute. reflexivity.
  - apply (proj2 (segmenter_hysteresis default_config (firstn 27 normal_turn)
                    [28] 0%Q 1%Q 1%Q)).
    + vm_compute. reflexivity.
    + vm_compute. reflexivity.
Defined.

(** C2, witness: in the middle of the normal turn the engine is recording
    and its buffer is not empty; at its end the buffer is empty. *)
Lemma buffer_exclusivity_witness :
  audio_buffer (run default_config init (firstn 5 normal_turn)) <> []
  /\ audio_buffer (run default_config init normal_turn) = [].
Proof.
  split.
  - apply (proj1 (buffer_exclusivity default_config (firstn 5 normal_turn))).
    vm_compute. reflexivity.
  - apply (proj2 (buffer_exclusivity default_config normal_turn)).
    vm_compute. reflexivity.
Defined.

(** C3, counterexample. TTS is playing, the guard window is over, the
    tracked baseline is 50 and the engine's threshold is 450. A frame whose
    energy jumps to [50 * 2 + 300 = 400] is not a barge-in: 400 is below the
    base threshold. *)
Lemma barge_in_jump_below_base_threshold :
  let st := run default_config init quiet_echo in
  is_speaking st = true
  /\ _tts_energy_initialized st = true
  /\ Qeq_bool (_tts_energy_ema st) 50 = true
  /\ guard_expired st 101 = true
  /\ Qeq_bool (get_vad_threshold default_config st) 450 = true
  /\ fst (_is_barge_in_speech st (_tts_energy_ema st * 2 + 300)
            (get_vad_threshold default_config st) 101) = false.
Proof. vm_compute. repeat split. Qed.

(** C3, witness: a simulated echo that starts at energy 13 is never a
    barge-in, although the tracked baseline drifts away from 13 (to
    12.999999999999998); with a baseline of 100 the jump to 500 is one; so
    is energy 443 over a base threshold of 250, and energy 441 is not. *)
Lemma barge_in_requires_margin_witness :
  (let st := run default_config init [Ev_set_speaking true 100] in
   let reads := [(450, 102); (450, 103); (450, 104); (450, 105)]%Q in
   Forall (fun v => v = false)
     (fst (barge_in_run st (simulated_echo st 13 reads)))
   /\ Qeq_bool (_tts_energy_ema (snd (barge_in_run st (simulated_echo st 13 reads))))
                13 = false)
  /\ (let st := run default_config init
                  [Ev_set_speaking true 100; Ev_frame [0] 100 101 101] in
      fst (_is_barge_in_speech st (fadd (fmul (_tts_energy_ema st) 2) 300) 450 102)
      = true)
  /\ (let st := run default_config init
                  [Ev_set_speaking true 100; Ev_frame [0] 100 101 101] in
      fst (_is_barge_in_speech st 441 250 102) = false
      /\ fst (_is_barge_in_speech st 443 250 102) = true).
Proof.
  split; [split|split].
  - apply (proj1 barge_in_requires_margin
             [(450, 102); (450, 103); (450, 104); (450, 105)]%Q
             (run default_config init [Ev_set_speaking true 100]) 13%Q).
    + intro C. vm_compute in C. discriminate.
    + intros C. vm_compute in C. discriminate.
    + repeat constructor.
  - vm_compute. reflexivity.
  - apply (proj1 (proj2 barge_in_requires_margin)).
    + vm_compute. reflexivity.
    + intro C. vm_compute in C. discriminate.
    + vm_compute. reflexivity.
    + vm_compute. reflexivity.
  - cbv zeta. split.
    + apply (proj2 (proj2 barge_in_requires_margin)).
      * vm_compute. reflexivity.
      * intro C. vm_compute in C. discriminate.
      * intros _ C. vm_compute in C. discriminate.
      * right. intro C. vm_compute in C. discriminate.
    + apply (proj2 (proj2 barge_in_requires_margin)).
      * vm_compute. reflexivity.
      * intro C. vm_compute in C. discriminate.
      * intros _ C. vm_compute in C. discriminate.
      * vm_compute. reflexivity.
      * intro C. vm_compute in C. discriminate.
      * vm_compute. reflexivity.
Defined.

(** C4, counterexample. The normal turn on a fresh engine (twelve speech
    frames, sixteen silence frames) submits one buffer of 27 frames, not 28:
    the first speech frame is not in it. *)
Lemma normal_turn_dispatches_27_frames :
  classes default_config init normal_turn
  = repeat (Some Speech) 12 ++ repeat (Some Silence) 16
  /\ map (@length Frame) (dispatched (effects (run default_config init normal_turn)))
     = [27%nat]
  /\ map (@length Frame) (dispatched (effects (run default_config init normal_turn)))
     <> [28%nat]
  /\ dispatched (effects (run default_config init normal_turn))
     = [tl (frames_of normal_turn)].
Proof.
  repeat split; try (vm_compute; reflexivity). vm_compute. discriminate.
Qed.

(** C4, witness: the normal turn. *)
Lemma normal_turn_frame_count_witness :
  view (run default_config init normal_turn)
  = (false, [], 0, 0, false, [tl (frames_of normal_turn)])
  /\ length (tl (frames_of normal_turn)) = 27%nat.
Proof.
  apply (normal_turn_frame_count default_config init normal_turn);
    vm_compute; reflexivity.
Defined.

(** C5, witness: after one quiet frame at energy 119 the adaptive term
    [119.0 * 1.8 + 40] is above 250 and the threshold is the float
    254.20000000000002; once TTS starts it is that plus 200, rounded. After a
    frame at energy 100 the adaptive term is 220, the threshold is the
    integer 250, and 450 during TTS. *)
Lemma effective_threshold_formula_witness :
  (let st := run default_config init [Ev_frame [0] 119 1 1] in
   let adaptive := fadd (fmul (_noise_floor_ema st) (fl 1.8)) 40 in
   get_vad_threshold default_config st = py_max 250 adaptive
   /\ get_vad_threshold default_config st = (8943867384981095 # 35184372088832)%Q
   /\ Qltb (1271 # 5) (get_vad_threshold default_config st) = true)
  /\ (let st := run default_config init
                  [Ev_frame [0] 119 1 1; Ev_set_speaking true 5] in
      let adaptive := fadd (fmul (_noise_floor_ema st) (fl 1.8)) 40 in
      get_vad_threshold default_config st
      = (if Qltb 250 adaptive then fadd (py_max 250 adaptive) 200
         else (py_max 250 adaptive + 200)%Q)
      /\ get_vad_threshold default_config st = (1997592725343437 # 4398046511104)%Q)
  /\ (let st := run default_config init
                  [Ev_frame [0] 100 1 1; Ev_set_speaking true 5] in
      let adaptive := fadd (fmul (_noise_floor_ema st) (fl 1.8)) 40 in
      get_vad_threshold default_config st
      = (if Qltb 250 adaptive then fadd (py_max 250 adaptive) 200
         else (py_max 250 adaptive + 200)%Q)
      /\ Qeq_bool (get_vad_threshold default_config st) 450 = true)
  /\ (let st := run default_config init
                  [Ev_frame [0] 119 1 1; Ev_set_speaking true 5] in
      let ideal := (Qmax 250 (_noise_floor_ema st * 1.8 + 40)
                    + (if is_speaking st then 200 else 0))%Q in
      (Qabs (get_vad_threshold default_config st - ideal)
       <= ideal * (1 # 1125899906842624))%Q).
Proof.
  split; [|split; [|split]].
  - split; [|split; vm_compute; reflexivity].
    apply (proj1 (effective_threshold_formula default_config
                    [Ev_frame [0] 119%Q 1%Q 1%Q] eq_refl)).
    reflexivity.
  - split; [|vm_compute; reflexivity].
    apply (proj1 (proj2 (effective_threshold_formula default_config
                           [Ev_frame [0] 119%Q 1%Q 1%Q; Ev_set_speaking true 5%Q]
                           eq_refl))).
    reflexivity.
  - split; [|vm_compute; reflexivity].
    apply (proj1 (proj2 (effective_threshold_formula default_config
                           [Ev_frame [0] 100%Q 1%Q 1%Q; Ev_set_speaking true 5%Q]
                           eq_refl))).
    reflexivity.
  - apply (proj2 (proj2 (effective_threshold_formula default_config
                           [Ev_frame [0] 119%Q 1%Q 1%Q; Ev_set_speaking true 5%Q]
                           eq_refl))).
    intro C. vm_compute in C. discriminate.
Defined.

(** C6, witness: the last frame of the normal turn finalizes a buffer of 27
    frames, which is submitted; when three silence frames end a recording,
    two speech frames and three silence frames finalize a buffer of 4 frames,
    which is dropped. *)
Lemma finalize_minimum_viable_length_witness :
  (let st := run default_config init (firstn 27 normal_turn) in
   let st' := _process_frame default_config st [28] 0 580 1 1 in
   dispatched (effects st') = [tl (frames_of normal_turn)]
   /\ audio_buffer st' = [] /\ _is_recording st' = false)
  /\ (let st := run short_silence_config init micro_noise in
      let st' := _process_frame short_silence_config st [5] 0 580 1 1 in
      dispatched (effects st') = dispatched (effects st)
      /\ audio_buffer st' = [] /\ _is_recording st' = false).
Proof.
  split.
  - assert (H1 : _is_recording (run default_config init (firstn 27 normal_turn)) = true)
      by (vm_compute; reflexivity).
    pose proof (finalize_minimum_viable_length default_config
                  (run default_config init (firstn 27 normal_turn))
                  [28] 0%Q 580%Q 1%Q 1%Q H1) as P.
    cbv zeta in P.
    destruct P as (_ & D & _ & B & _ & _ & R).
    + left. vm_compute. repeat split. discriminate.
    + cbv zeta. split; [|split; [exact B|exact R]].
      apply proj2 in D. rewrite D; [vm_compute; reflexivity|].
      vm_compute. lia.
  - cbv zeta.
    assert (H1 : _is_recording (run short_silence_config init micro_noise) = true)
      by (vm_compute; reflexivity).
    pose proof (finalize_minimum_viable_length short_silence_config
                  (run short_silence_config init micro_noise)
                  [5] 0%Q 580%Q 1%Q 1%Q H1) as P.
    cbv zeta in P.
    destruct P as (_ & _ & D & B & _ & _ & R).
    + left. vm_compute. repeat split. discriminate.
    + split; [|split; [exact B|exact R]].
      apply proj2 in D. apply D. vm_compute. lia.
Defined.

(** C7, witness: the recording started by the barge-in turn is dropped by
    the next frame that is not classified as speech; nothing is submitted. *)
Lemma tts_silence_exit_unreachable_witness :
  let st := run default_config init barge_in_turn in
  let st' := step default_config st (Ev_frame [3] 0 101 101) in
  _is_recording st = true
  /\ _is_recording st' = false /\ audio_buffer st' = []
  /\ _speech_frames st' = 0 /\ _silence_frames st' = 0
  /\ effects st' = effects st.
Proof.
  cbv zeta. split; [vm_compute; reflexivity|].
  apply (proj1 (tts_silence_exit_unreachable default_config
                  (run default_config init barge_in_turn)
                  (Ev_frame [3] 0%Q 101%Q 101%Q)
                  eq_refl
                  (run_excl default_config barge_in_turn init
                     (excl_intro init (or_intror (conj eq_refl eq_refl)))))
               Silence).
  - vm_compute. reflexivity.
  - discriminate.
Defined.

(** C9, witness: a greeting passes the gate, a filler does not, and a
    provider error drops the utterance after one call. *)
Lemma transcription_gate_filtering_witness :
  emitted (_transcribe_async true true [1] (Reply " Ola Mundo ")) = ["ola mundo"%string]
  /\ emitted (_transcribe_async true true [1] (Reply " Thank you ")) = []
  /\ _transcribe_async true true [1] Provider_raises = [Call_provider [1]; Log_error].
Proof.
  split; [|split].
  - apply (proj1 (transcription_gate_filtering true [1] (Reply " Ola Mundo "))).
    split; [reflexivity|]. split; [discriminate|].
    exists " Ola Mundo "%string. split; [reflexivity|]. split; [reflexivity|].
    split; [|vm_compute; lia].
    intros H. apply in_hallucinations_In in H. vm_compute in H. discriminate.
  - vm_compute. reflexivity.
  - apply (proj2 (proj1 (proj2 (proj2 (proj2
             (transcription_gate_filtering true [1] Provider_raises)))) eq_refl));
      [reflexivity | discriminate].
Defined.

End ConcreteRuns.

Section OrchRuns.

Import Orch.

(** C8, witness: the fragments "oi", "tudo", "bem?" arrive 200 ms apart and
    the last timer fires at time 2; exactly one utterance is forwarded. A
    second burst after it, when the loop holds three finished tasks, is
    forwarded as one more utterance; so is a burst that starts while a timer
    left behind by a flush at the cap is still pending, and goes on past the
    time at which that timer was due. A blank fragment forwards nothing, and
    after five arrivals a single timer is pending. *)
Lemma debounce_coalescing_witness :
  forwarded (effects (run init (arrivals oi_tudo_bem ++ [Idle_until 2])))
  = ["oi tudo bem?"%string]
  /\ (length (_loop_tasks after_oi_tudo_bem) = 3%nat
      /\ forwarded (effects (run after_oi_tudo_bem (arrivals e_voce ++ [Idle_until 6])))
         = ["oi tudo bem?"%string; "e voce?"%string])
  /\ (existsb (fun t => negb (task_done t)) (_loop_tasks after_cap) = true
      /\ forwarded (effects (run after_cap (arrivals cinco_seis ++ [Idle_until 4])))
         = ["um dois tres quatro"%string; "cinco seis"%string])
  /\ Forall (fun t => t <> ""%string)
       (forwarded (effects (run after_cap [Fragment 1 "  "; Idle_until 4])))
  /\ single_timer (run init (arrivals oi_tudo_bem ++ arrivals e_voce)) = true.
Proof.
  split; [|split; [split|split; [split|split]]];
    [ | vm_compute; reflexivity | | vm_compute; reflexivity | | | ].
  - apply (proj1 debounce_coalescing init oi_tudo_bem 2%Q).
    + vm_compute. reflexivity.
    + reflexivity.
    + reflexivity.
    + discriminate.
    + repeat constructor; vm_compute; discriminate.
    + vm_compute. reflexivity.
    + vm_compute. repeat split; discriminate.
  - apply (proj1 debounce_coalescing after_oi_tudo_bem e_voce 6%Q).
    + vm_compute. reflexivity.
    + vm_compute. reflexivity.
    + vm_compute. reflexivity.
    + discriminate.
    + repeat constructor; vm_compute; discriminate.
    + vm_compute. reflexivity.
    + vm_compute. repeat split; discriminate.
  - apply (proj1 debounce_coalescing after_cap cinco_seis 4%Q).
    + vm_compute. reflexivity.
    + vm_compute. reflexivity.
    + vm_compute. reflexivity.
    + discriminate.
    + repeat constructor; vm_compute; discriminate.
    + vm_compute. reflexivity.
    + vm_compute. repeat split; discriminate.
  - apply (proj1 (proj2 (proj2 debounce_coalescing))).
    vm_compute. repeat constructor. discriminate.
  - apply (proj2 (proj2 (proj2 debounce_coalescing)) init).
    apply (proj2 (proj2 (proj2 debounce_coalescing)) init []). reflexivity.
Defined.

(** C10, witness: on a fresh orchestrator, with the engine silent, an
    interrupt at time 100 returns normally and calls nothing, even if
    [stop_speaking()] would raise, and stamps the time; an interrupt at time
    101, with playback active, is then dropped; through the engine's
    [request_interrupt] the flag is left set and the next [_validate]
    fails; and an interrupt that does stop playback found a flag set. *)
Lemma interrupt_without_playback_stops_nothing_witness :
  (snd (_on_interrupt init false 100 true) = Returned
   /\ effects (fst (_on_interrupt init false 100 true)) = []
   /\ stops (effects (fst (_on_interrupt init false 100 true))) = 0%nat
   /\ fst (_on_interrupt init false 100 true) = with_interrupt init false 100 [])
  /\ (let o1 := fst (_on_interrupt init false 100 true) in
      _last_interrupt_at o1 = 100%Q
      /\ _on_interrupt o1 true 101 false = (o1, Returned))
  /\ (let '(e', o', r) := request_interrupt STS.init init 100 true in
      r = Returned
      /\ effects o' = effects init
      /\ o' = (if STS.on_interrupt STS.init then fst (_on_interrupt init false 100 true)
               else init)
      /\ e' = STS.request_interrupt STS.init
      /\ STS.interrupt_requested e' = true
      /\ snd (_validate e') = false)
  /\ _tts_active playing || false = true.
Proof.
  split; [|split; [|split]].
  - exact (proj1 interrupt_without_playback_stops_nothing init 100%Q true eq_refl).
  - apply (proj1 (proj2 interrupt_without_playback_stops_nothing)
             init 100%Q true true 101%Q false eq_refl).
    + intro C. vm_compute in C. discriminate.
    + vm_compute. reflexivity.
  - exact (proj1 (proj2 (proj2 interrupt_without_playback_stops_nothing))
             STS.init init 100%Q true eq_refl eq_refl).
  - apply (proj2 (proj2 (proj2 interrupt_without_playback_stops_nothing))
             playing false 100%Q false).
    vm_compute. discriminate.
Defined.

(** C10 as stated fails: an interrupt with no playback active is not a
    no-op. On a fresh orchestrator the interrupt at time 100 moves the time
    stamp from 0 to 100. An interrupt at time 101, with playback active by
    then, stops playback if the first one never happened, and is dropped if
    it did. Through [request_interrupt] the engine's flag is left set, and
    the next [_validate], which would have passed, fails. *)
Lemma interrupt_without_playback_leaves_trace :
  _last_interrupt_at init = 0%Q
  /\ _last_interrupt_at (fst (_on_interrupt init false 100 false)) = 100%Q
  /\ stops (effects (fst (_on_interrupt init true 101 false))) = 1%nat
  /\ stops (effects (fst (_on_interrupt (fst (_on_interrupt init false 100 false))
                            true 101 false))) = 0%nat
  /\ snd (_validate STS.init) = true
  /\ snd (_validate (fst (fst (request_interrupt STS.init init 100 false)))) = false.
Proof. vm_compute. repeat split. Qed.

End OrchRuns.

(** ** More on the segmenter *)

Section EngineMoreFacts.

Import STS Runs.

Variable cfg : Config.

Local Arguments Nat.ltb : simpl never.
Local Arguments Nat.leb : simpl never.
Local Arguments Z.leb : simpl never.
Local Arguments Z.add : simpl never.
Local Arguments Z.max : simpl never.
Local Arguments deque_append : simpl never.

(** *** Invariants that only look at the segmenter's view *)

Lemma reset_segmenter_view st :
  view (reset_segmenter st)
  = (false, (if _is_recording st then [] else audio_buffer st), 0, 0,
     is_speaking st, dispatched (effects st)).
Proof.
  unfold view, reset_segmenter.
  destruct (_is_recording st) eqn:E; cbn; rewrite ?E; reflexivity.
Qed.

Lemma step_skipped_view st frame energy tc tg :
  event_class cfg st (Ev_frame frame energy tc tg) = Some Skipped ->
  view (step cfg st (Ev_frame frame energy tc tg))
  = (false, (if _is_recording st then [] else audio_buffer st), 0, 0,
     is_speaking st, dispatched (effects st)).
Proof.
  intros H. destruct frame as [|x fr]; [discriminate|].
  cbn in H. injection H as H.
  cbn [step]. unfold audio_loop_step. cbn [length Nat.eqb].
  rewrite process_frame_skipped by exact H.
  rewrite reset_segmenter_view. reflexivity.
Qed.

(** Every step is a setter, a skipped frame, a reset, or one call of
    [segment] on an engine with the same view. *)
Lemma step_view_cases st ev :
  step cfg st ev = st
  \/ (exists b now, ev = Ev_set_speaking b now)
  \/ (exists b, ev = Ev_set_listening b)
  \/ (exists b1 b2, ev = Ev_set_callbacks b1 b2)
  \/ view (step cfg st ev) = view (reset_segmenter st)
  \/ (exists st2 frame sp,
        view st2 = view st /\ step cfg st ev = segment cfg st2 frame sp).
Proof.
  destruct ev as [frame energy tc tg | b now | b | b1 b2];
    [| right; left; exists b, now; reflexivity
     | right; right; left; exists b; reflexivity
     | right; right; right; left; exists b1, b2; reflexivity].
  destruct (event_class cfg st (Ev_frame frame energy tc tg)) as [c|] eqn:C.
  - destruct c.
    + right. right. right. right. left.
      rewrite step_skipped_view by exact C. symmetry. apply reset_segmenter_view.
    + destruct (step_frame_segment cfg _ _ _ _ _ _ C) as (st2 & E & V);
        [discriminate|]. right. right. right. right. right. eauto.
    + destruct (step_frame_segment cfg _ _ _ _ _ _ C) as (st2 & E & V);
        [discriminate|]. right. right. right. right. right. eauto.
  - left. destruct frame as [|x fr]; [reflexivity|discriminate].
Qed.

(** A property of the view that the segmenter, a reset and the setters keep
    holds in every reachable state. *)
Lemma run_view_invariant
    (P : bool * list Frame * Z * Z * bool * list (list Frame) -> Prop) :
  (forall st frame sp, P (view st) -> P (view (segment cfg st frame sp))) ->
  (forall st, P (view st) -> P (view (reset_segmenter st))) ->
  (forall st b now, P (view st) -> P (view (set_speaking st b now))) ->
  (forall st b, P (view st) -> P (view (set_listening st b))) ->
  forall evs st, P (view st) -> P (view (run cfg st evs)).
Proof.
  intros Hseg Hreset Hspk Hlis.
  induction evs as [|ev evs IH]; intros st H; [exact H|].
  change (run cfg st (ev :: evs)) with (run cfg (step cfg st ev) evs).
  apply IH.
  destruct (step_view_cases st ev)
    as [E|[(b & now & ->)|[(b & ->)|[(b1 & b2 & ->)|[E|(st2 & f & sp & V & E)]]]]].
  - rewrite E. exact H.
  - apply Hspk, H.
  - apply Hlis, H.
  - exact H.
  - rewrite E. apply Hreset, H.
  - rewrite E. apply Hseg. rewrite V. exact H.
Qed.

Lemma set_speaking_view st b now :
  view (set_speaking st b now)
  = (_is_recording st, audio_buffer st, _speech_frames st, _silence_frames st,
     b, dispatched (effects st)).
Proof. unfold set_speaking, view. destruct b; reflexivity. Qed.

Lemma set_listening_view st b :
  view (set_listening st b)
  = if b then view st
    else (false, [], 0, 0, is_speaking st, dispatched (effects st)).
Proof. unfold set_listening, view. destruct b; reflexivity. Qed.

(** The view of [segment]'s result, branch by branch. *)
Lemma segment_view st frame sp :
  let buf := deque_append MAX_RECORDING_FRAMES (audio_buffer st) frame in
  let d := dispatched (effects st) in
  view (segment cfg st frame sp)
  = if is_speaking st && negb sp then view (reset_segmenter st)
    else if negb (_is_recording st) then
      if sp then
        if SPEECH_START_FRAMES cfg <=? _speech_frames st + 1
        then (true, deque_append MAX_RECORDING_FRAMES [] frame,
              _speech_frames st + 1, 0, is_speaking st, d)
        else (false, audio_buffer st, _speech_frames st + 1, _silence_frames st,
              is_speaking st, d)
      else (false, audio_buffer st, Z.max 0 (_speech_frames st - 1),
            _silence_frames st, is_speaking st, d)
    else if negb sp && (SILENCE_END_FRAMES cfg <=? _silence_frames st + 1)
         || (MAX_RECORDING_FRAMES <=? length buf)%nat
    then (false, [], 0, 0, is_speaking st,
          d ++ (if (5 <? length buf)%nat then [buf] else []))
    else (true, buf, _speech_frames st, (if sp then 0 else _silence_frames st + 1),
          is_speaking st, d).
Proof.
  intros buf d.
  destruct (is_speaking st && negb sp) eqn:E1;
    [unfold segment; rewrite E1; reflexivity|].
  destruct (_is_recording st) eqn:Hrec; cbn [negb].
  - destruct (negb sp && (SILENCE_END_FRAMES cfg <=? _silence_frames st + 1)
              || (MAX_RECORDING_FRAMES <=? length buf)%nat) eqn:F.
    + rewrite (segment_finalizes cfg st frame sp Hrec E1).
      * rewrite finish_recording_view. reflexivity.
      * apply orb_true_iff in F. destruct F as [F|F].
        -- apply andb_true_iff in F. destruct F as [F1 F2].
           left. split; [destruct sp; [discriminate|reflexivity]|].
           apply Z.leb_le. exact F2.
        -- right. apply Nat.leb_le. exact F.
    + apply orb_false_iff in F. destruct F as [F1 F2].
      unfold segment. rewrite E1, ?Hrec. cbn. fold buf.
      destruct sp; cbn in *.
      * rewrite F2. unfold view. cbn. rewrite ?Hrec. reflexivity.
      * rewrite F1. cbn. rewrite F2. unfold view. cbn. rewrite ?Hrec. reflexivity.
  - unfold segment. rewrite E1, ?Hrec. cbn.
    destruct sp; [|unfold view; cbn; rewrite ?Hrec; reflexivity].
    cbn. destruct (SPEECH_START_FRAMES cfg <=? _speech_frames st + 1);
      [|unfold view; cbn; rewrite ?Hrec; reflexivity].
    destruct st as [spk lst irq b tap oss oi sf sif rec etb tee tei tsa iu
                    nfe nfi tf dsc le effs]; cbn in *.
    unfold request_interrupt, emit, view; cbn.
    destruct spk, oi, oss; cbn; rewrite ?dispatched_app; cbn;
      rewrite ?app_nil_r; reflexivity.
Qed.

(** *** The buffer stays below the cap *)

(** X1. In every reachable state of a fresh engine the buffer holds fewer
    than [MAX_RECORDING_FRAMES] frames (so the deque never has to drop one),
    and every buffer that was submitted to transcription held more than 5
    and at most [MAX_RECORDING_FRAMES] frames. *)
Theorem buffer_below_cap_and_submissions_bounded (evs : list Event) :
  let st := run cfg init evs in
  (length (audio_buffer st) < MAX_RECORDING_FRAMES)%nat
  /\ Forall submittable (dispatched (effects st)).
Proof.
  pose (P := fun v : bool * list Frame * Z * Z * bool * list (list Frame) =>
               let '(_, buf, _, _, _, d) := v in
               (length buf < MAX_RECORDING_FRAMES)%nat /\ Forall submittable d).
  assert (Hreset : forall st, P (view st) -> P (view (reset_segmenter st))).
  { intros st. rewrite reset_segmenter_view. unfold view, P.
    destruct (_is_recording st); [|auto].
    intros [_ H]. split; [cbn; unfold MAX_RECORDING_FRAMES; lia | exact H]. }
  assert (H : P (view (run cfg init evs))).
  { apply run_view_invariant; try exact Hreset.
    - intros st frame sp HP. pose proof (segment_view st frame sp) as V.
      cbv zeta in V. rewrite V. clear V.
      destruct (is_speaking st && negb sp); [apply Hreset, HP|].
      unfold view, P in HP. destruct HP as [Hlen Hd].
      assert (Eb : deque_append MAX_RECORDING_FRAMES (audio_buffer st) frame
                   = audio_buffer st ++ [frame])
        by (apply deque_append_length; [apply MAX_RECORDING_FRAMES_pos | exact Hlen]).
      rewrite Eb.
      assert (Lb : length (audio_buffer st ++ [frame]) = S (length (audio_buffer st)))
        by (rewrite length_app; cbn; lia).
      destruct (negb (_is_recording st)).
      + destruct sp; [|unfold P; auto].
        destruct (SPEECH_START_FRAMES cfg <=? _speech_frames st + 1); unfold P;
          [|auto].
        rewrite (deque_append_length MAX_RECORDING_FRAMES [] frame
                   MAX_RECORDING_FRAMES_pos)
          by (cbn; unfold MAX_RECORDING_FRAMES; lia).
        split; [cbn; unfold MAX_RECORDING_FRAMES; lia | exact Hd].
      + destruct (negb sp && (SILENCE_END_FRAMES cfg <=? _silence_frames st + 1)
                  || (MAX_RECORDING_FRAMES <=? length (audio_buffer st ++ [frame]))%nat)
          eqn:F; unfold P.
        * split; [cbn; unfold MAX_RECORDING_FRAMES; lia|].
          apply Forall_app. split; [exact Hd|].
          destruct (Nat.ltb_spec 5 (length (audio_buffer st ++ [frame])));
            [|constructor].
          constructor; [|constructor]. unfold submittable. lia.
        * apply orb_false_iff in F. destruct F as [_ F].
          apply Nat.leb_gt in F. auto.
    - intros st b now. rewrite set_speaking_view. unfold view, P. auto.
    - intros st b. rewrite set_listening_view. destruct b; [auto|].
      unfold view, P. intros [_ Hd].
      split; [cbn; unfold MAX_RECORDING_FRAMES; lia | exact Hd].
    - unfold view, P. cbn. split; [unfold MAX_RECORDING_FRAMES; lia | constructor]. }
  exact H.
Qed.

(** *** The counters *)

(** X2. In every reachable state of a fresh engine both counters are
    non-negative; while not recording the silence counter is 0 and the speech
    counter is 0 or below [SPEECH_START_FRAMES]; while recording the silence
    counter is 0 or below [SILENCE_END_FRAMES]. *)
Theorem counters_stay_in_range (evs : list Event) :
  let st := run cfg init evs in
  0 <= _speech_frames st /\ 0 <= _silence_frames st
  /\ (_is_recording st = false ->
      _silence_frames st = 0
      /\ (_speech_frames st = 0 \/ _speech_frames st < SPEECH_START_FRAMES cfg))
  /\ (_is_recording st = true ->
      _silence_frames st = 0 \/ _silence_frames st < SILENCE_END_FRAMES cfg).
Proof.
  pose (P := fun v : bool * list Frame * Z * Z * bool * list (list Frame) =>
               let '(rec, _, sp, si, _, _) := v in
               0 <= sp /\ 0 <= si
               /\ (rec = false ->
                   si = 0 /\ (sp = 0 \/ sp < SPEECH_START_FRAMES cfg))
               /\ (rec = true -> si = 0 \/ si < SILENCE_END_FRAMES cfg)).
  assert (Hzero : forall buf spk d, P (false, buf, 0, 0, spk, d)).
  { intros. unfold P. repeat split; try lia; auto. }
  assert (Hreset : forall st, P (view st) -> P (view (reset_segmenter st))).
  { intros st _. rewrite reset_segmenter_view. apply Hzero. }
  assert (H : P (view (run cfg init evs))).
  { apply run_view_invariant; try exact Hreset.
    - intros st frame sp HP. pose proof (segment_view st frame sp) as V.
      cbv zeta in V. rewrite V. clear V.
      destruct (is_speaking st && negb sp); [apply Hreset, HP|].
      unfold view, P in HP. destruct HP as (H1 & H2 & H3 & H4).
      destruct (_is_recording st) eqn:Hrec; cbn [negb].
      + specialize (H4 eq_refl).
        destruct (negb sp && (SILENCE_END_FRAMES cfg <=? _silence_frames st + 1)
                  || _) eqn:F; [apply Hzero|].
        apply orb_false_iff in F. destruct F as [F _].
        unfold P. destruct sp; cbn in F.
        * repeat split; intros; try discriminate; lia.
        * apply Z.leb_gt in F. repeat split; intros; try discriminate; lia.
      + destruct (H3 eq_refl) as [H5 H6].
        destruct sp.
        * destruct (Z.leb_spec (SPEECH_START_FRAMES cfg) (_speech_frames st + 1));
            unfold P; repeat split; intros; try discriminate; lia.
        * unfold P. repeat split; intros; try discriminate; lia.
    - intros st b now. rewrite set_speaking_view. unfold view, P. auto.
    - intros st b. rewrite set_listening_view. destruct b; [auto|].
      intros _. apply Hzero.
    - apply Hzero. }
  exact H.
Qed.

(** *** The maximum length *)

Lemma run_rec_speech_any evs : forall st buf sp si spk d,
  evs <> [] ->
  view st = (true, buf, sp, si, spk, d) ->
  classes cfg st evs = repeat (Some Speech) (length evs) ->
  (length buf + length evs < MAX_RECORDING_FRAMES)%nat ->
  view (run cfg st evs) = (true, buf ++ frames_of evs, sp, 0, spk, d).
Proof.
  intros st buf sp si spk d Hne V H L.
  destruct evs as [|ev evs]; [congruence|].
  cbn [classes repeat length] in H. injection H as Ha H.
  destruct ev as [[|x fr] energy tc tg| | |]; try discriminate.
  set (frame := x :: fr) in *.
  destruct (step_frame_segment cfg _ _ _ _ _ _ Ha) as (st2 & E & V2);
    [discriminate|].
  change (run cfg st (Ev_frame frame energy tc tg :: evs))
    with (run cfg (step cfg st (Ev_frame frame energy tc tg)) evs).
  change (frames_of (Ev_frame frame energy tc tg :: evs))
    with (frame :: frames_of evs).
  cbn [length] in L.
  replace (buf ++ frame :: frames_of evs) with ((buf ++ [frame]) ++ frames_of evs)
    by (rewrite <- app_assoc; reflexivity).
  apply run_rec_speech; [| exact H | rewrite length_app; cbn; lia].
  rewrite E. cbn [Class_eqb].
  eapply seg_rec_speech; [rewrite V2; exact V | lia].
Qed.

(** X3. Max-length force-finish: while recording, a stream of frames that
    are all classified as speech and that brings the buffer to
    [MAX_RECORDING_FRAMES] frames ends the recording on the last of them
    and submits the whole buffer, with no silence frame seen. *)
Theorem max_length_force_finish (st : Engine) (evs : list Event)
    (buf : list Frame) (sp si : Z) (spk : bool) (d : list (list Frame)) :
  view st = (true, buf, sp, si, spk, d) ->
  (length buf < MAX_RECORDING_FRAMES)%nat ->
  classes cfg st evs = repeat (Some Speech) (length evs) ->
  (length buf + length evs = MAX_RECORDING_FRAMES)%nat ->
  view (run cfg st evs) = (false, [], 0, 0, spk, d ++ [buf ++ frames_of evs]).
Proof.
  intros V Hb H L.
  destruct (exists_last (l := evs)) as (evs0 & ev & ->).
  { intros ->. cbn in L. lia. }
  rewrite length_app in H, L. cbn [length] in H, L.
  rewrite Nat.add_1_r in H.
  change (repeat (Some Speech) (S (length evs0)))
    with (Some Speech :: repeat (Some Speech) (length evs0)) in H.
  rewrite repeat_cons in H.
  apply classes_split in H. destruct H as (e1 & e2 & EE & H1 & H2).
  assert (L1 : length e1 = length evs0).
  { destruct (classes_repeat_frames cfg _ _ _ _ H1) as [L1 _]. exact L1. }
  apply classes_single in H2.
  destruct H2 as (f & en & tc & tg & -> & H2 & F2).
  apply app_inj_tail in EE. destruct EE as [<- ->].
  rewrite run_app, frames_of_app, F2.
  assert (V1 : exists si', view (run cfg st evs0)
                           = (true, buf ++ frames_of evs0, sp, si', spk, d)).
  { destruct evs0 as [|e0 evs0'].
    - exists si. cbn. rewrite app_nil_r. exact V.
    - exists 0. apply (run_rec_speech_any _ _ _ _ si); try assumption;
        [discriminate | lia]. }
  destruct V1 as (si' & V1).
  set (st1 := run cfg st evs0) in *. clearbody st1.
  destruct (step_frame_segment cfg _ _ _ _ _ _ H2) as (st2 & E & V2);
    [discriminate|].
  cbn [run fold_left]. rewrite E. cbn [Class_eqb].
  pose proof (segment_view st2 f true) as S. cbv zeta in S. rewrite S. clear S.
  rewrite V1 in V2. apply view_inv in V2.
  destruct V2 as (R1 & R2 & R3 & R4 & R5 & R6).
  rewrite R1, R2, R3, R4, R5, R6, andb_false_r. cbn [negb andb orb].
  assert (Lf : length (frames_of evs0) = length evs0).
  { destruct (classes_repeat_frames cfg _ _ _ _ H1) as [_ Lf]. exact Lf. }
  assert (Lb : (length (buf ++ frames_of evs0) < MAX_RECORDING_FRAMES)%nat)
    by (rewrite length_app, Lf; lia).
  rewrite deque_append_length by (try apply MAX_RECORDING_FRAMES_pos; exact Lb).
  assert (Lc : length ((buf ++ frames_of evs0) ++ [f]) = MAX_RECORDING_FRAMES)
    by (rewrite !length_app, Lf; cbn; lia).
  rewrite Lc, Nat.leb_refl. cbn [orb].
  replace (5 <? MAX_RECORDING_FRAMES)%nat with true by reflexivity.
  rewrite <- app_assoc. reflexivity.
Qed.

(** *** A quiet room *)

Lemma quiet_threshold st e :
  (e <= inject_Z (SILENCE_THRESHOLD cfg))%Q ->
  is_speaking st = false ->
  Qltb (_get_effective_threshold cfg st) e = false.
Proof.
  intros He Hs. unfold _get_effective_threshold. rewrite Hs.
  apply Qltb_ge. destruct (_noise_floor_initialized st); [|exact He].
  eapply Qle_trans; [exact He | apply py_max_ge_l].
Qed.

Lemma quiet_step st frame e tc tg :
  (e <= inject_Z (SILENCE_THRESHOLD cfg))%Q ->
  quiet_idle st ->
  let st' := step cfg st (Ev_frame frame e tc tg) in
  quiet_idle st'
  /\ (frame <> [] \/ _noise_floor_initialized st = true ->
      _noise_floor_initialized st' = true).
Proof.
  intros He (Hs & Hl & Hi & Hr & Hb & Hsp & Hef).
  cbn [step]. unfold audio_loop_step.
  destruct frame as [|x fr];
    [split; [repeat split; assumption | intros [H|H]; [congruence|exact H]]|].
  cbn [length Nat.eqb].
  pose proof (quiet_threshold st e He Hs) as Hth.
  set (th := _get_effective_threshold cfg st) in *. clearbody th.
  unfold _process_frame.
  set (st1 := with_out (with_out st _ _ _ _ _) _ _ _ _ _).
  assert (F1 : is_speaking st1 = false) by exact Hs.
  assert (F2 : is_listening st1 = true) by exact Hl.
  assert (F3 : Qtruthy (_ignore_until st1) = false) by exact Hi.
  assert (F4 : _is_recording st1 = false) by exact Hr.
  assert (F5 : audio_buffer st1 = []) by exact Hb.
  assert (F6 : _speech_frames st1 = 0) by exact Hsp.
  assert (F7 : effects st1 = []) by exact Hef.
  clearbody st1.
  rewrite F2, F3. cbn [negb andb].
  set (st2 := update_noise_floor cfg st1 e).
  assert (G : is_speaking st2 = false /\ is_listening st2 = true
              /\ Qtruthy (_ignore_until st2) = false
              /\ _is_recording st2 = false /\ audio_buffer st2 = []
              /\ _speech_frames st2 = 0 /\ effects st2 = []
              /\ _noise_floor_initialized st2 = true).
  { unfold st2, update_noise_floor. rewrite F1, F4. cbn [negb andb].
    destruct (_noise_floor_initialized st1) eqn:N; cbn [negb].
    - destruct (Qle_bool e _); cbn; repeat split; assumption.
    - cbn. repeat split; assumption. }
  clearbody st2. destruct G as (G1 & G2 & G3 & G4 & G5 & G6 & G7 & G8).
  unfold classify. rewrite G1, Hth.
  unfold segment. rewrite G1, G4. cbn [negb andb].
  split; [|intros _; exact G8].
  unfold quiet_idle. cbn. rewrite G6. repeat split; assumption.
Qed.

(** X4. A quiet room never starts a recording. On a fresh engine, any
    sequence of frames whose energies are all at most [SILENCE_THRESHOLD]
    (they need not be equal) leaves the engine idle with nothing buffered,
    submitted or notified; the noise floor is initialized once a frame has
    been processed. *)
Theorem quiet_room_never_records (evs : list Event) :
  Forall (frame_up_to (inject_Z (SILENCE_THRESHOLD cfg))) evs ->
  let st := run cfg init evs in
  _is_recording st = false /\ audio_buffer st = [] /\ effects st = []
  /\ _speech_frames st = 0
  /\ (existsb processed_frame evs = true -> _noise_floor_initialized st = true).
Proof.
  intros Hev.
  assert (G : forall st0, quiet_idle st0 ->
              quiet_idle (run cfg st0 evs)
              /\ (_noise_floor_initialized st0 = true
                  \/ existsb processed_frame evs = true ->
                  _noise_floor_initialized (run cfg st0 evs) = true)).
  { induction Hev as [|ev evs (f & e & tc & tg & -> & He) _ IH]; intros st0 H0.
    - split; [exact H0|]. intros [H|H]; [exact H|discriminate].
    - change (run cfg st0 (Ev_frame f e tc tg :: evs))
        with (run cfg (step cfg st0 (Ev_frame f e tc tg)) evs).
      destruct (quiet_step st0 f e tc tg He H0) as [H1 H2].
      destruct (IH _ H1) as [I1 I2]. split; [exact I1|].
      intros [H|H].
      + apply I2. left. apply H2. right. exact H.
      + cbn [existsb processed_frame] in H. apply orb_true_iff in H.
        destruct H as [H|H].
        * apply I2. left. apply H2. left. intros ->. discriminate.
        * apply I2. right. exact H. }
  destruct (G init) as [(_ & _ & _ & Hr & Hb & Hsp & Hef) G2].
  { unfold quiet_idle. cbn. repeat split. }
  cbv zeta. repeat split; try assumption.
  intros Hex. apply G2. right. exact Hex.
Qed.

(** *** Listening disabled, cooldown, guard window *)

Lemma frame_class_not_listening st e th tc tg :
  is_listening st = false -> frame_class cfg st e th tc tg = Skipped.
Proof. intros H. unfold frame_class. cbn. rewrite H. reflexivity. Qed.



Lemma step_skipped st frame energy tc tg :
  event_class cfg st (Ev_frame frame energy tc tg) = Some Skipped ->
  let st' := step cfg st (Ev_frame frame energy tc tg) in
  view st' = (false, (if _is_recording st then [] else audio_buffer st), 0, 0,
              is_speaking st, dispatched (effects st))
  /\ effects st' = effects st
  /\ is_listening st' = is_listening st
  /\ _noise_floor_ema st' = _noise_floor_ema st
  /\ _noise_floor_initialized st' = _noise_floor_initialized st.
Proof.
  intros H. split; [apply step_skipped_view; exact H|].
  destruct frame as [|x fr]; [discriminate|].
  cbn in H. injection H as H.
  cbn [step]. unfold audio_loop_step. cbn [length Nat.eqb].
  rewrite process_frame_skipped by exact H.
  unfold reset_segmenter. cbn.
  destruct (_is_recording st); repeat split; reflexivity.
Qed.

(** X5. With listening disabled the microphone is ignored. After
    [set_listening(False)] the engine is idle with an empty buffer and nothing
    submitted for it, and no sequence of frames, however loud, changes that:
    the segmenter stays reset, no effect is produced and the noise floor is
    not updated. *)
Theorem listening_disabled_ignores_frames (st0 : Engine) (evs : list Event) :
  Forall (fun ev => exists f e tc tg, ev = Ev_frame f e tc tg) evs ->
  let st := set_listening st0 false in
  let st' := run cfg st evs in
  view st = (false, [], 0, 0, is_speaking st0, dispatched (effects st0))
  /\ view st' = view st
  /\ effects st' = effects st0
  /\ _noise_floor_ema st' = _noise_floor_ema st0
  /\ _noise_floor_initialized st' = _noise_floor_initialized st0.
Proof.
  intros Hev st. split; [reflexivity|].
  assert (G : forall s, is_listening s = false ->
              view s = (false, [], 0, 0, is_speaking st0, dispatched (effects st0)) ->
              view (run cfg s evs) = view s
              /\ effects (run cfg s evs) = effects s
              /\ _noise_floor_ema (run cfg s evs) = _noise_floor_ema s
              /\ _noise_floor_initialized (run cfg s evs) = _noise_floor_initialized s).
  { induction Hev as [|ev evs (f & e & tc & tg & ->) _ IH]; intros s Hl V;
      [repeat split|].
    change (run cfg s (Ev_frame f e tc tg :: evs))
      with (run cfg (step cfg s (Ev_frame f e tc tg)) evs).
    destruct f as [|x fr]; [apply IH; assumption|].
    assert (C : event_class cfg s (Ev_frame (x :: fr) e tc tg) = Some Skipped).
    { cbn. rewrite frame_class_not_listening by exact Hl. reflexivity. }
    destruct (step_skipped s _ _ _ _ C) as (S1 & S2 & S3 & S4 & S5).
    apply view_inv in V. destruct V as (V1 & V2 & V3 & V4 & V5 & V6).
    rewrite V1, V2, V5, V6 in S1.
    destruct (IH _ (eq_trans S3 Hl) S1) as (I1 & I2 & I3 & I4).
    rewrite I1, I2, I3, I4, S1, S2, S4, S5.
    unfold view. rewrite V1, V2, V3, V4, V5, V6. repeat split. }
  apply (G st); reflexivity.
Qed.


Lemma frame_class_tts_not_speech st e th tc tg :
  is_speaking st = true ->
  fst (_is_barge_in_speech st e th tg) = false ->
  frame_class cfg st e th tc tg <> Speech.
Proof.
  intros Hs Hb. unfold frame_class. cbn.
  destruct (negb (is_listening st)); [discriminate|].
  destruct (Qtruthy (_ignore_until st) && Qltb tc (_ignore_until st));
    [discriminate|].
  unfold update_noise_floor. cbn. rewrite Hs. cbn.
  unfold classify. cbn. rewrite Hs.
  match goal with |- context [fst ?x] =>
    replace (fst x) with (fst (_is_barge_in_speech st e th tg)) end.
  - rewrite Hb. discriminate.
  - unfold _is_barge_in_speech. cbn.
    destruct (Qtruthy (_tts_started_at st) && _); reflexivity.
Qed.

Lemma step_tts_not_speech st frame e tc tg :
  is_speaking st = true ->
  buffer_exclusive st ->
  frame <> [] ->
  fst (_is_barge_in_speech st e (_get_effective_threshold cfg st) tg) = false ->
  let ev := Ev_frame frame e tc tg in
  event_class cfg st ev <> Some Speech
  /\ _is_recording (step cfg st ev) = false
  /\ audio_buffer (step cfg st ev) = []
  /\ effects (step cfg st ev) = effects st.
Proof.
  intros Hs Hex Hf Hb ev. destruct frame as [|x fr]; [congruence|].
  set (st0 := with_out st (interrupt_requested st) (_total_frames st + 1)
                (_detected_speech_count st) (last_energy st) (effects st)).
  assert (C : frame_class cfg st0 e (_get_effective_threshold cfg st) tc tg <> Speech).
  { apply frame_class_tts_not_speech; [exact Hs|].
    rewrite <- Hb. unfold _is_barge_in_speech. cbn.
    destruct (Qtruthy (_tts_started_at st) && _); reflexivity. }
  split; [cbn; intros H; injection H as H; contradiction|].
  destruct (process_frame_tts cfg st0 (x :: fr) e (_get_effective_threshold cfg st)
              tc tg Hs Hex) as [P _].
  destruct (P C) as (P1 & P2 & _ & _ & P5).
  repeat split; assumption.
Qed.

(** X7. Barge-in guard window. While TTS is active and its start time is not
    zero, a frame whose clock read is less than 0.25 s after the start is
    never classified as speech: it leaves the engine not recording with an
    empty buffer and produces no effect (no interrupt, no notification). *)
Theorem barge_in_guard_window (st : Engine) (frame : Frame) (e tc tg : Q) :
  is_speaking st = true ->
  buffer_exclusive st ->
  frame <> [] ->
  ~ (_tts_started_at st == 0)%Q ->
  (tg - _tts_started_at st < BARGE_IN_GUARD_MS / 1000)%Q ->
  let ev := Ev_frame frame e tc tg in
  event_class cfg st ev <> Some Speech
  /\ _is_recording (step cfg st ev) = false
  /\ audio_buffer (step cfg st ev) = []
  /\ effects (step cfg st ev) = effects st.
Proof.
  intros Hs Hex Hf Hnz Hg. apply step_tts_not_speech; try assumption.
  unfold _is_barge_in_speech.
  assert (T : Qtruthy (_tts_started_at st) = true).
  { unfold Qtruthy. apply negb_true_iff.
    destruct (Qeq_bool _ 0) eqn:E; [|reflexivity].
    apply Qeq_bool_iff in E. contradiction. }
  apply Qltb_lt in Hg. rewrite T, Hg. reflexivity.
Qed.

(** X8. The first frame heard after TTS starts is never a barge-in.
    [set_speaking(True)] forgets the TTS baseline, so the next processed
    frame, whatever its non-negative energy, only initializes it: it is not
    classified as speech, the engine is left not recording and no effect is
    produced. *)
Theorem first_frame_after_tts_start_is_not_speech
    (st : Engine) (now : Q) (frame : Frame) (e tc tg : Q) :
  buffer_exclusive st ->
  frame <> [] ->
  (0 <= e)%Q ->
  let st1 := set_speaking st true now in
  let ev := Ev_frame frame e tc tg in
  event_class cfg st1 ev <> Some Speech
  /\ _is_recording (step cfg st1 ev) = false
  /\ audio_buffer (step cfg st1 ev) = []
  /\ effects (step cfg st1 ev) = effects st.
Proof.
  intros Hex Hf He st1 ev.
  apply (step_tts_not_speech st1 frame e tc tg); try assumption; try reflexivity.
  destruct (guard_expired st1 tg) eqn:G.
  - pose proof (barge_in_margin st1 e (_get_effective_threshold cfg st1) tg G He)
      as M. cbv zeta in M.
    destruct M as (_ & _ & _ & M4 & _); [discriminate|].
    apply M4. left. reflexivity.
  - unfold guard_expired in G. apply negb_false_iff in G.
    unfold _is_barge_in_speech. rewrite G. reflexivity.
Qed.

(** *** Interrupt accounting *)

Lemma interrupts_app effs effs' :
  interrupts (effs ++ effs') = (interrupts effs + interrupts effs')%nat.
Proof.
  induction effs as [|e effs IH]; [reflexivity|].
  destruct e; cbn; rewrite IH; reflexivity.
Qed.

Lemma reset_segmenter_interrupts st :
  effects (reset_segmenter st) = effects st
  /\ interrupt_requested (reset_segmenter st) = interrupt_requested st
  /\ _is_recording (reset_segmenter st) = false.
Proof.
  unfold reset_segmenter. destruct (_is_recording st) eqn:E; cbn; rewrite ?E;
    repeat split; reflexivity.
Qed.

Lemma finish_recording_interrupts st :
  interrupts (effects (_finish_recording st)) = interrupts (effects st)
  /\ interrupt_requested (_finish_recording st) = interrupt_requested st
  /\ _is_recording (_finish_recording st) = false.
Proof.
  unfold _finish_recording. cbn.
  destruct (5 <? length (audio_buffer st))%nat; cbn;
    rewrite ?interrupts_app; cbn; repeat split; lia.
Qed.

Lemma segment_interrupts st frame sp :
  let st' := segment cfg st frame sp in
  let barged := enters_recording st st' && is_speaking st in
  interrupts (effects st')
  = (interrupts (effects st) + (if barged && on_interrupt st then 1 else 0))%nat
  /\ interrupt_requested st' = interrupt_requested st || barged.
Proof.
  cbv zeta. unfold enters_recording.
  destruct (is_speaking st && negb sp) eqn:E1.
  { unfold segment. rewrite E1.
    destruct (reset_segmenter_interrupts st) as (R1 & R2 & R3).
    rewrite R1, R2, R3, andb_false_r, orb_false_r. cbn. split; [lia|reflexivity]. }
  destruct (_is_recording st) eqn:Hrec.
  - cbn [negb andb]. rewrite orb_false_r, Nat.add_0_r.
    unfold segment. rewrite E1, Hrec. cbn [negb].
    repeat match goal with
    | |- context [if ?c then _ else _] => destruct c
    | |- context [_finish_recording ?s] =>
        let R1 := fresh in let R2 := fresh in
        destruct (finish_recording_interrupts s) as (R1 & R2 & _);
        rewrite R1, R2; clear R1 R2
    end; cbn; split; reflexivity.
  - unfold segment. rewrite E1, Hrec. cbn [negb].
    destruct sp; [|cbn; rewrite ?Hrec; cbn; split; [lia|apply eq_sym, orb_false_r]].
    cbn.
    destruct (SPEECH_START_FRAMES cfg <=? _speech_frames st + 1);
      [|cbn; rewrite ?Hrec; cbn; split; [lia|apply eq_sym, orb_false_r]].
    unfold request_interrupt, emit.
    destruct (is_speaking st) eqn:Hs; cbn;
      destruct (on_interrupt st) eqn:Hi; cbn;
      destruct (on_speech_start st) eqn:Ho; cbn;
      rewrite ?Hi, ?Ho; cbn;
      rewrite ?interrupts_app; cbn;
      rewrite ?orb_true_r, ?orb_false_r; split; try reflexivity; lia.
Qed.

Lemma classified_interrupts st energy threshold t_guard :
  let st' := classified cfg st energy threshold t_guard in
  interrupt_requested st' = interrupt_requested st.
Proof.
  unfold classified, classify, update_noise_floor, _is_barge_in_speech. cbn.
  repeat match goal with
  | |- context [if ?c then _ else _] => destruct c; cbn
  end; reflexivity.
Qed.

(** X9. Interrupt accounting. Whatever happens to the engine (a frame, a
    setter, a callback assignment), [on_interrupt] is called exactly once if
    that step takes the engine from not recording to recording while TTS is
    active and a callback is registered, and not at all otherwise; the
    [interrupt_requested] flag is raised by exactly those steps that enter
    recording during TTS, callback or not, and is never lowered by the
    engine. *)
Theorem interrupt_accounting (st : Engine) (ev : Event) :
  let st' := step cfg st ev in
  let barged := enters_recording st st' && is_speaking st in
  interrupts (effects st')
  = (interrupts (effects st) + (if barged && on_interrupt st then 1 else 0))%nat
  /\ interrupt_requested st' = interrupt_requested st || barged.
Proof.
  cbv zeta.
  destruct ev as [frame energy tc tg | b now | b | b1 b2].
  - destruct frame as [|x fr].
    { cbn. unfold enters_recording. rewrite andb_negb_l. cbn.
      split; [lia|apply eq_sym, orb_false_r]. }
    cbn [step]. unfold audio_loop_step. cbn [length Nat.eqb].
    set (th := _get_effective_threshold cfg st).
    set (st0 := with_out st _ _ _ _ _).
    destruct (frame_class cfg st0 energy th tc tg) eqn:C.
    + rewrite process_frame_skipped by exact C.
      match goal with |- context [reset_segmenter ?s] =>
        destruct (reset_segmenter_interrupts s) as (R1 & R2 & R3) end.
      unfold enters_recording. rewrite R1, R2, R3, andb_false_r. cbn.
      split; [lia|apply eq_sym, orb_false_r].
    + rewrite process_frame_classified by congruence.
      destruct (classified_vad cfg st0 energy th tg) as (V1 & _ & _ & _ & V5 & V6 & _ & V8).
      pose proof (classified_interrupts st0 energy th tg) as V9. cbv zeta in V9.
      pose proof (segment_interrupts (classified cfg st0 energy th tg) (x :: fr)
                    (Class_eqb (frame_class cfg st0 energy th tc tg) Speech)) as S.
      cbv zeta in S. unfold enters_recording in *.
      rewrite V1, V5, V6, V8, V9 in S. exact S.
    + rewrite process_frame_classified by congruence.
      destruct (classified_vad cfg st0 energy th tg) as (V1 & _ & _ & _ & V5 & V6 & _ & V8).
      pose proof (classified_interrupts st0 energy th tg) as V9. cbv zeta in V9.
      pose proof (segment_interrupts (classified cfg st0 energy th tg) (x :: fr)
                    (Class_eqb (frame_class cfg st0 energy th tc tg) Speech)) as S.
      cbv zeta in S. unfold enters_recording in *.
      rewrite V1, V5, V6, V8, V9 in S. exact S.
  - cbn. unfold enters_recording, set_speaking.
    destruct b; cbn; rewrite andb_negb_l; cbn;
      (split; [lia|apply eq_sym, orb_false_r]).
  - cbn. unfold enters_recording, set_listening.
    destruct b; cbn; rewrite ?andb_negb_l, ?andb_false_r; cbn;
      (split; [lia|apply eq_sym, orb_false_r]).
  - cbn. unfold enters_recording. cbn. rewrite andb_negb_l. cbn.
    split; [lia|apply eq_sym, orb_false_r].
Qed.

(** *** The listening flag *)




(** *** The noise floor *)

Lemma segment_noise_floor st frame sp :
  _noise_floor_ema (segment cfg st frame sp) = _noise_floor_ema st
  /\ _noise_floor_initialized (segment cfg st frame sp) = _noise_floor_initialized st.
Proof.
  unfold segment, reset_segmenter, _finish_recording, request_interrupt, emit.
  cbn.
  repeat match goal with
  | |- context [if ?c then _ else _] => destruct c; cbn
  end; split; reflexivity.
Qed.

Lemma classified_noise_floor st energy threshold t_guard :
  let st' := classified cfg st energy threshold t_guard in
  _noise_floor_ema st' = _noise_floor_ema (update_noise_floor cfg st energy)
  /\ _noise_floor_initialized st'
     = _noise_floor_initialized (update_noise_floor cfg st energy).
Proof.
  unfold classified, classify, update_noise_floor, _is_barge_in_speech. cbn.
  repeat match goal with
  | |- context [if ?c then _ else _] => destruct c; cbn
  end; split; reflexivity.
Qed.

(** What one event does to the noise floor: nothing, or the update of
    [_process_frame] with the frame's energy. *)
Lemma step_noise_floor st ev :
  let st' := step cfg st ev in
  (_noise_floor_ema st' = _noise_floor_ema st
   /\ _noise_floor_initialized st' = _noise_floor_initialized st)
  \/ (exists frame energy tc tg,
        ev = Ev_frame frame energy tc tg
        /\ _noise_floor_ema st' = _noise_floor_ema (update_noise_floor cfg st energy)
        /\ _noise_floor_initialized st'
           = _noise_floor_initialized (update_noise_floor cfg st energy)).
Proof.
  cbv zeta. destruct ev as [frame energy tc tg | b now | b | b1 b2];
    [| left; unfold step, set_speaking; destruct b; split; reflexivity
     | left; unfold step, set_listening; destruct b; split; reflexivity
     | left; split; reflexivity].
  destruct (event_class cfg st (Ev_frame frame energy tc tg)) as [c|] eqn:C.
  - assert (Hcl : c <> Skipped ->
              _noise_floor_ema (step cfg st (Ev_frame frame energy tc tg))
              = _noise_floor_ema (update_noise_floor cfg st energy)
              /\ _noise_floor_initialized (step cfg st (Ev_frame frame energy tc tg))
                 = _noise_floor_initialized (update_noise_floor cfg st energy)).
    { intros Hn. destruct frame as [|x fr]; [discriminate|].
      cbn in C. injection C as C.
      cbn [step]. unfold audio_loop_step. cbn [length Nat.eqb].
      rewrite process_frame_classified by congruence.
      match goal with |- context [segment cfg ?s ?f ?b] =>
        destruct (segment_noise_floor s f b) as [S1 S2] end.
      rewrite S1, S2.
      match goal with |- context [classified cfg ?s ?e ?th ?t] =>
        pose proof (classified_noise_floor s e th t) as K end.
      cbv zeta in K. destruct K as [K1 K2]. rewrite K1, K2.
      unfold update_noise_floor. cbn.
      repeat match goal with
      | |- context [if ?c then _ else _] => destruct c; cbn
      end; split; reflexivity. }
    destruct c.
    + left. destruct (step_skipped st _ _ _ _ C) as (_ & _ & _ & S4 & S5). auto.
    + right. exists frame, energy, tc, tg. split; [reflexivity|].
      apply Hcl. discriminate.
    + right. exists frame, energy, tc, tg. split; [reflexivity|].
      apply Hcl. discriminate.
  - left. destruct frame as [|x fr]; [split; reflexivity|discriminate].
Qed.

(** X18. The noise floor stays within the range of the energies heard, up
    to rounding. If every frame of a run from a new engine has its energy
    between [lo >= 0] and [hi], the noise floor, once initialized, lies
    between [lo * (1 - 2^-48) - 64 eta] and [hi * (1 + 2^-48) + 64 eta]
    ([eta = 2^-1075]; the moving average of a constant signal does drift by a
    few units in the last place), and the effective threshold is at most
    [max(SILENCE_THRESHOLD, hi * 1.8 + 40)], plus 200 during TTS, times
    [1 + 2^-46]. *)
Theorem noise_floor_within_energy_range (lo hi : Q) (evs : list Event) :
  (0 <= lo)%Q -> (lo <= hi)%Q ->
  Forall (fun ev => forall frame energy tc tg,
                      ev = Ev_frame frame energy tc tg -> (lo <= energy <= hi)%Q) evs ->
  let st := run cfg init evs in
  (_noise_floor_initialized st = true ->
   (lo * (1 - (1 # 281474976710656)) - 64 * eta <= _noise_floor_ema st
    /\ _noise_floor_ema st <= hi * (1 + (1 # 281474976710656)) + 64 * eta)%Q)
  /\ (_get_effective_threshold cfg st
      <= (Qmax (inject_Z (SILENCE_THRESHOLD cfg)) (hi * 1.8 + 40)
          + (if is_speaking st then 200 else 0))
         * (1 + (1 # 70368744177664)))%Q.
Proof.
  intros Hlo Hlh Hev st.
  destruct eta_small as [E0 E1].
  set (J := fun s : Engine =>
              _noise_floor_initialized s = true ->
              (0 <= _noise_floor_ema s /\ lo <= hi
               /\ lo * (1 - (1 # 281474976710656)) - 64 * eta <= _noise_floor_ema s
               /\ _noise_floor_ema s <= hi * (1 + (1 # 281474976710656)) + 64 * eta)%Q).
  assert (G : forall st0, J st0 -> J (run cfg st0 evs)).
  { clear st. induction Hev as [|ev evs Hx _ IH]; intros st0 H0; [exact H0|].
    change (run cfg st0 (ev :: evs)) with (run cfg (step cfg st0 ev) evs).
    apply IH. pose proof (step_noise_floor st0 ev) as S. cbv zeta in S.
    unfold J in *.
    destruct S as [[S1 S2]|(frame & energy & tc & tg & -> & S1 & S2)].
    - rewrite S1, S2. exact H0.
    - rewrite S1, S2. specialize (Hx _ _ _ _ eq_refl).
      unfold update_noise_floor.
      destruct (negb (is_speaking st0) && negb (_is_recording st0)); [|exact H0].
      destruct (_noise_floor_initialized st0) eqn:I; cbn [negb].
      + specialize (H0 eq_refl). destruct H0 as (N0 & N1 & N2 & N3).
        destruct (Qle_bool energy _);
          [|cbn; rewrite I; intros _; repeat split; assumption].
        cbn [_noise_floor_initialized _noise_floor_ema with_noise_floor].
        intros _. unfold fadd, fmul.
        destruct NOISE_FLOOR_EMA_ALPHA_val as [Va Vb]. rewrite Vb, Va.
        set (nf := _noise_floor_ema st0) in *.
        destruct (fl_lin ((8286623314361713 # 9007199254740992) * nf))
          as (A1 & A2 & A3); [lra|].
        set (t1 := fl ((8286623314361713 # 9007199254740992) * nf)) in *.
        destruct (fl_lin ((5764607523034235 # 72057594037927936) * energy))
          as (B1 & B2 & B3); [lra|].
        set (t2 := fl ((5764607523034235 # 72057594037927936) * energy)) in *.
        destruct (fl_lin (t1 + t2)) as (C1 & C2 & C3); [lra|].
        repeat split; lra.
      + cbn. intros _. repeat split; lra. }
  assert (R : J st) by (apply G; unfold J; cbn; discriminate).
  unfold J in R. split; [intros H; destruct (R H) as (_ & _ & R2 & R3); auto|].
  assert (B : _echo_threshold_boost st = 200%Q)
    by (unfold st; rewrite run_boost; reflexivity).
  unfold _get_effective_threshold. rewrite B.
  set (static := inject_Z (SILENCE_THRESHOLD cfg)).
  set (real := (hi * 1.8 + 40)%Q).
  pose proof (Q.le_max_l static real) as M1.
  pose proof (Q.le_max_r static real) as M2.
  set (m := Qmax static real) in *.
  destruct (_noise_floor_initialized st) eqn:I; cbn [andb].
  - destruct (R eq_refl) as (N0 & N1 & N2 & N3).
    assert (A : (0 <= adaptive_threshold st
                 /\ adaptive_threshold st <= real * (1 + (1 # 140737488355328)))%Q).
    { unfold adaptive_threshold, fadd, fmul, NOISE_FLOOR_MARGIN, real.
      rewrite NOISE_FLOOR_MULTIPLIER_val.
      set (nf := _noise_floor_ema st) in *.
      destruct (fl_lin (nf * (8106479329266893 # 4503599627370496)))
        as (A1 & A2 & A3); [lra|].
      set (t := fl (nf * (8106479329266893 # 4503599627370496))) in *.
      destruct (fl_lin (t + 40)) as (B1 & B2 & B3); [lra|].
      split; lra. }
    destruct A as [A0 A1].
    assert (R0 : (40 <= real)%Q) by (unfold real; lra).
    assert (Hb : (py_max static (adaptive_threshold st)
                  <= m * (1 + (1 # 140737488355328)))%Q).
    { rewrite py_max_Qmax.
      destruct (Q.max_spec static (adaptive_threshold st)) as [[L ->]|[L ->]]; lra. }
    destruct (is_speaking st).
    + destruct (Qltb static (adaptive_threshold st)) eqn:L.
      * apply Qltb_lt in L.
        assert (Ep : (py_max static (adaptive_threshold st) == adaptive_threshold st)%Q).
        { rewrite py_max_Qmax. apply Q.max_r. lra. }
        unfold fadd.
        destruct (fl_lin (py_max static (adaptive_threshold st) + 200))
          as (F1 & F2 & _); [lra|].
        lra.
      * lra.
    + lra.
  - assert (40 <= m)%Q by (unfold real in *; lra).
    destruct (is_speaking st); lra.
Qed.

(** X19. The noise floor is frozen while TTS plays or a recording is in
    progress: a frame processed in such a state changes neither the floor nor
    its initialization flag, whatever its energy. *)
Theorem noise_floor_frozen_during_tts_and_recording
    (st : Engine) (frame : Frame) (energy tc tg : Q) :
  is_speaking st = true \/ _is_recording st = true ->
  let st' := step cfg st (Ev_frame frame energy tc tg) in
  _noise_floor_ema st' = _noise_floor_ema st
  /\ _noise_floor_initialized st' = _noise_floor_initialized st.
Proof.
  intros H st'.
  pose proof (step_noise_floor st (Ev_frame frame energy tc tg)) as S.
  cbv zeta in S. fold st' in S.
  destruct S as [S|(f & e & c & g & E & S1 & S2)]; [exact S|].
  injection E as <- <- <- <-. rewrite S1, S2. unfold update_noise_floor.
  destruct H as [-> | ->]; rewrite ?andb_false_r; cbn; split; reflexivity.
Qed.

(** *** Speech-start accounting and the statistics *)

Lemma speech_starts_app effs effs' :
  speech_starts (effs ++ effs') = (speech_starts effs + speech_starts effs')%nat.
Proof.
  induction effs as [|e effs IH]; [reflexivity|].
  destruct e; cbn; rewrite IH; reflexivity.
Qed.

Lemma reset_segmenter_stats st :
  _detected_speech_count (reset_segmenter st) = _detected_speech_count st
  /\ _total_frames (reset_segmenter st) = _total_frames st.
Proof.
  unfold reset_segmenter. destruct (_is_recording st); split; reflexivity.
Qed.

Lemma finish_recording_stats st :
  speech_starts (effects (_finish_recording st)) = speech_starts (effects st)
  /\ _detected_speech_count (_finish_recording st) = _detected_speech_count st
  /\ _total_frames (_finish_recording st) = _total_frames st
  /\ _is_recording (_finish_recording st) = false.
Proof.
  unfold _finish_recording. cbn.
  destruct (5 <? length (audio_buffer st))%nat; cbn;
    rewrite ?speech_starts_app; cbn; repeat split; lia.
Qed.

Lemma segment_stats st frame sp :
  let st' := segment cfg st frame sp in
  let entered := enters_recording st st' in
  speech_starts (effects st')
  = (speech_starts (effects st) + (if entered && on_speech_start st then 1 else 0))%nat
  /\ _detected_speech_count st'
     = _detected_speech_count st + (if entered then 1 else 0)
  /\ _total_frames st' = _total_frames st.
Proof.
  cbv zeta. unfold enters_recording.
  destruct (is_speaking st && negb sp) eqn:E1.
  { unfold segment. rewrite E1.
    destruct (reset_segmenter_interrupts st) as (R1 & _ & R3).
    destruct (reset_segmenter_stats st) as (R4 & R5).
    rewrite R1, R3, R4, R5, andb_false_r. cbn. repeat split; lia. }
  destruct (_is_recording st) eqn:Hrec.
  - cbn [negb andb]. rewrite Nat.add_0_r, Z.add_0_r.
    unfold segment. rewrite E1, Hrec. cbn [negb].
    repeat match goal with
    | |- context [if ?c then _ else _] => destruct c
    | |- context [_finish_recording ?s] =>
        let R1 := fresh in let R2 := fresh in let R3 := fresh in
        destruct (finish_recording_stats s) as (R1 & R2 & R3 & _);
        rewrite R1, R2, R3; clear R1 R2 R3
    end; cbn; repeat split; reflexivity.
  - unfold segment. rewrite E1, Hrec. cbn [negb].
    destruct sp; [|cbn; rewrite ?Hrec; cbn; repeat split; lia].
    cbn.
    destruct (SPEECH_START_FRAMES cfg <=? _speech_frames st + 1);
      [|cbn; rewrite ?Hrec; cbn; repeat split; lia].
    unfold request_interrupt, emit.
    destruct (is_speaking st) eqn:Hs; cbn;
      destruct (on_interrupt st) eqn:Hi; cbn;
      destruct (on_speech_start st) eqn:Ho; cbn;
      rewrite ?Hi, ?Ho; cbn;
      rewrite ?speech_starts_app; cbn; repeat split; lia.
Qed.

Lemma classified_stats st energy threshold t_guard :
  let st' := classified cfg st energy threshold t_guard in
  _detected_speech_count st' = _detected_speech_count st
  /\ _total_frames st' = _total_frames st.
Proof.
  unfold classified, classify, update_noise_floor, _is_barge_in_speech. cbn.
  repeat match goal with
  | |- context [if ?c then _ else _] => destruct c; cbn
  end; split; reflexivity.
Qed.

(** X20. Speech-start accounting and the statistics. For any step of the
    engine: if the step does not call [on_interrupt] (it does so when it
    enters recording while TTS is active and the callback is registered; an
    exception of the callback would leave [_process_frame] before the
    submission), [on_speech_start] is handed to the thread pool exactly once
    if the step takes the engine from not recording to recording and a
    callback is registered, and not at all otherwise; no step hands it over
    without entering recording with a callback registered;
    [_detected_speech_count] grows by one exactly on the steps that enter
    recording; [_total_frames] grows by one exactly on the frames that are
    processed (empty reads and setter calls do not count). *)
Theorem speech_start_accounting (st : Engine) (ev : Event) :
  let st' := step cfg st ev in
  let entered := enters_recording st st' in
  (entered && is_speaking st && on_interrupt st = false ->
   speech_starts (effects st')
   = (speech_starts (effects st) + (if entered && on_speech_start st then 1 else 0))%nat)
  /\ (entered && on_speech_start st = false ->
      speech_starts (effects st') = speech_starts (effects st))
  /\ _detected_speech_count st'
     = _detected_speech_count st + (if entered then 1 else 0)
  /\ _total_frames st' = _total_frames st + (if processed_frame ev then 1 else 0).
Proof.
  cbv zeta.
  assert (S : speech_starts (effects (step cfg st ev))
              = (speech_starts (effects st)
                 + (if enters_recording st (step cfg st ev) && on_speech_start st
                    then 1 else 0))%nat
              /\ _detected_speech_count (step cfg st ev)
                 = _detected_speech_count st
                   + (if enters_recording st (step cfg st ev) then 1 else 0)
              /\ _total_frames (step cfg st ev)
                 = _total_frames st + (if processed_frame ev then 1 else 0)).
  { cbv zeta.
    destruct ev as [frame energy tc tg | b now | b | b1 b2].
    - destruct frame as [|x fr].
      { cbn. unfold enters_recording. rewrite andb_negb_l. cbn. repeat split; lia. }
      cbn [step processed_frame length Nat.eqb negb]. unfold audio_loop_step.
      cbn [length Nat.eqb].
      set (th := _get_effective_threshold cfg st).
      set (st0 := with_out st _ _ _ _ _).
      assert (T0 : _total_frames st0 = _total_frames st + 1) by reflexivity.
      destruct (frame_class cfg st0 energy th tc tg) eqn:C.
      + rewrite process_frame_skipped by exact C.
        match goal with |- context [reset_segmenter ?s] =>
          destruct (reset_segmenter_interrupts s) as (R1 & _ & R3);
          destruct (reset_segmenter_stats s) as (R4 & R5) end.
        unfold enters_recording. rewrite R1, R3, R4, R5, andb_false_r. cbn.
        repeat split; lia.
      + rewrite process_frame_classified by congruence.
        destruct (classified_vad cfg st0 energy th tg) as (V1 & _ & _ & _ & _ & V6 & V7 & _).
        pose proof (classified_stats st0 energy th tg) as V9. cbv zeta in V9.
        destruct V9 as [V9 V10].
        pose proof (segment_stats (classified cfg st0 energy th tg) (x :: fr)
                      (Class_eqb (frame_class cfg st0 energy th tc tg) Speech)) as S.
        cbv zeta in S. unfold enters_recording in *.
        rewrite V1, V6, V7, V9, V10, T0 in S. exact S.
      + rewrite process_frame_classified by congruence.
        destruct (classified_vad cfg st0 energy th tg) as (V1 & _ & _ & _ & _ & V6 & V7 & _).
        pose proof (classified_stats st0 energy th tg) as V9. cbv zeta in V9.
        destruct V9 as [V9 V10].
        pose proof (segment_stats (classified cfg st0 energy th tg) (x :: fr)
                      (Class_eqb (frame_class cfg st0 energy th tc tg) Speech)) as S.
        cbv zeta in S. unfold enters_recording in *.
        rewrite V1, V6, V7, V9, V10, T0 in S. exact S.
    - cbn. unfold enters_recording, set_speaking.
      destruct b; cbn; rewrite andb_negb_l; cbn; repeat split; lia.
    - cbn. unfold enters_recording, set_listening.
      destruct b; cbn; rewrite ?andb_negb_l, ?andb_false_r; cbn; repeat split; lia.
    - cbn. unfold enters_recording. cbn. rewrite andb_negb_l. cbn. repeat split; lia. }
  destruct S as (S1 & S2 & S3).
  split; [intros _; exact S1|]. split; [|split; [exact S2|exact S3]].
  intros E. rewrite S1, E. apply Nat.add_0_r.
Qed.

End EngineMoreFacts.

(** ** More on the debounce and the interrupt handler *)

Section OrchMoreFacts.

Import Orch Voice.

Local Arguments Z.leb : simpl never.
Local Arguments Z.of_nat : simpl never.
Local Arguments Z.max : simpl never.

Lemma string_app_assoc (a b c : string) : ((a ++ b) ++ c = a ++ (b ++ c))%string.
Proof. induction a as [|x a IH]; cbn; [reflexivity | rewrite IH; reflexivity]. Qed.

Lemma concat_app (sep : string) (xs ys : list string) :
  xs <> [] -> ys <> [] ->
  String.concat sep (xs ++ ys)
  = (String.concat sep xs ++ sep ++ String.concat sep ys)%string.
Proof.
  induction xs as [|x xs IH]; [congruence|]. intros _ Hy.
  destruct xs as [|x' xs].
  - cbn [app]. destruct ys as [|y ys]; [congruence|]. reflexivity.
  - change (String.concat sep ((x :: x' :: xs) ++ ys))
      with (x ++ sep ++ String.concat sep ((x' :: xs) ++ ys))%string.
    rewrite IH by (assumption || discriminate).
    change (String.concat sep (x :: x' :: xs))
      with (x ++ sep ++ String.concat sep (x' :: xs))%string.
    rewrite !string_app_assoc. reflexivity.
Qed.

(** Joining a list one group of which has already been joined. *)
Lemma py_join_regroup (sep : string) (xs ys zs : list string) :
  ys <> [] ->
  py_join sep (xs ++ [py_join sep ys] ++ zs) = py_join sep (xs ++ ys ++ zs).
Proof.
  unfold py_join. intros Hy.
  assert (M : String.concat sep ([String.concat sep ys] ++ zs)
              = String.concat sep (ys ++ zs)).
  { destruct zs as [|z zs]; [cbn [app]; rewrite app_nil_r; reflexivity|].
    rewrite !concat_app by (assumption || discriminate). reflexivity. }
  destruct xs as [|x xs]; [exact M|].
  rewrite !(concat_app sep (x :: xs)); try discriminate.
  - rewrite M. reflexivity.
  - destruct ys; [congruence|discriminate].
Qed.

Lemma flush_held (o : Orchestrator) (zs : list string) :
  buffer_ok o ->
  py_join " " (forwarded (effects (_flush_voice_buffer o)) ++ zs)
  = py_join " " (forwarded (effects o) ++ _voice_buffer_parts o ++ zs)
  /\ _voice_buffer_parts (_flush_voice_buffer o) = [].
Proof.
  intros [Hc _]. destruct (flush_spec o) as (F1 & F2 & _).
  split; [|exact F2]. rewrite F1, forwarded_app.
  destruct (_voice_buffer_parts o) as [|p ps] eqn:P.
  - rewrite andb_false_r. cbn. rewrite app_nil_r. reflexivity.
  - cbn [length Nat.eqb negb]. rewrite andb_true_r.
    assert (C : clean (list_ascii_of_string (py_join " " (p :: ps))))
      by (apply py_join_clean; [discriminate | exact Hc]).
    destruct (py_strip_of_clean _ C) as [E N]. rewrite E.
    apply str_truthy_true in N. rewrite N. cbn [forwarded].
    rewrite <- app_assoc. apply py_join_regroup. discriminate.
Qed.

Lemma flush_fields (o : Orchestrator) :
  _debounce_window (_flush_voice_buffer o) = _debounce_window o
  /\ _debounce_max_parts (_flush_voice_buffer o) = _debounce_max_parts o
  /\ _voice_debounce_task (_flush_voice_buffer o) = _voice_debounce_task o.
Proof. destruct (flush_spec o) as (_ & _ & F3 & F4 & _ & F6). auto. Qed.

Lemma buffer_ok_nil (o : Orchestrator) : _voice_buffer_parts o = [] -> buffer_ok o.
Proof. intros H. unfold buffer_ok. rewrite H. split; [constructor|auto]. Qed.

Lemma wake_due_held (o : Orchestrator) (now : Q) (zs : list string) :
  buffer_ok o ->
  let o' := wake_due o now in
  py_join " " (forwarded (effects o') ++ _voice_buffer_parts o' ++ zs)
  = py_join " " (forwarded (effects o) ++ _voice_buffer_parts o ++ zs)
  /\ buffer_ok o'
  /\ (_voice_buffer_parts o' = [] \/ _voice_buffer_parts o' = _voice_buffer_parts o)
  /\ _debounce_window o' = _debounce_window o
  /\ _debounce_max_parts o' = _debounce_max_parts o.
Proof.
  intros Hok. rewrite wake_due_cases.
  destruct (existsb (due now) (_loop_tasks o)); [|cbn; auto 6].
  set (o1 := with_tasks o _ _).
  assert (Hok1 : buffer_ok o1) by exact Hok.
  destruct (flush_held o1 zs Hok1) as [T P].
  destruct (flush_fields o1) as (W & M & _).
  cbv zeta. rewrite P, W, M. cbn [app]. rewrite T.
  repeat split; auto. apply buffer_ok_nil, P.
Qed.

Lemma enqueue_held (o : Orchestrator) (text : string) (now : Q) (zs : list string) :
  buffer_ok o ->
  let o' := _enqueue_voice_input o text now in
  py_join " " (forwarded (effects o') ++ _voice_buffer_parts o' ++ zs)
  = py_join " " (forwarded (effects o) ++ _voice_buffer_parts o
                 ++ accepted [Fragment now text] ++ zs)
  /\ buffer_ok o'
  /\ _debounce_window o' = _debounce_window o
  /\ _debounce_max_parts o' = _debounce_max_parts o
  /\ (Z.of_nat (length (_voice_buffer_parts o)) < cap o ->
      Z.of_nat (length (_voice_buffer_parts o')) < cap o).
Proof.
  intros Hok. unfold _enqueue_voice_input, accepted. cbn [flat_map].
  rewrite app_nil_r.
  destruct (str_truthy (py_strip text)) eqn:S; cbn [negb];
    [|cbv zeta; cbn [app]; repeat split; auto; apply Hok].
  destruct (Qle_bool (_debounce_window o) 0) eqn:W.
  - destruct Hok as [Hc Hw]. pose proof (Hw W) as P.
    cbv zeta. unfold buffer_ok. cbn. rewrite P, W. cbn.
    rewrite forwarded_app, <- app_assoc. cbn.
    repeat split; auto.
  - set (o1 := with_voice o (_voice_buffer_parts o ++ [py_strip text]) _).
    assert (Hok1 : buffer_ok o1).
    { split; [|cbn; congruence]. cbn. apply Forall_app. split; [apply Hok|].
      constructor; [|constructor]. apply py_strip_clean.
      apply str_truthy_true. exact S. }
    cbv zeta.
    destruct (_debounce_max_parts o1 <=? Z.of_nat (length (_voice_buffer_parts o1)))
      eqn:L.
    + destruct (flush_held o1 zs Hok1) as [T P].
      destruct (flush_fields o1) as (Wf & Mf & _).
      rewrite P, Wf, Mf. cbn [app]. rewrite T. cbn. rewrite <- !app_assoc.
      repeat split; auto; [apply buffer_ok_nil, P|]. unfold cap. lia.
    + cbn. rewrite <- !app_assoc.
      split; [reflexivity|]. split; [exact Hok1|].
      split; [reflexivity|]. split; [reflexivity|].
      intros _. apply Z.leb_gt in L. cbn in L. unfold cap. cbn. lia.
Qed.

Lemma step_held (o : Orchestrator) (ev : Event) (zs : list string) :
  buffer_ok o ->
  py_join " " (forwarded (effects (step o ev)) ++ _voice_buffer_parts (step o ev) ++ zs)
  = py_join " " (forwarded (effects o) ++ _voice_buffer_parts o ++ accepted [ev] ++ zs)
  /\ buffer_ok (step o ev)
  /\ _debounce_window (step o ev) = _debounce_window o
  /\ _debounce_max_parts (step o ev) = _debounce_max_parts o
  /\ (Z.of_nat (length (_voice_buffer_parts o)) < cap o ->
      Z.of_nat (length (_voice_buffer_parts (step o ev))) < cap o).
Proof.
  intros Hok. destruct ev as [now text | now]; cbn [step].
  - pose proof (wake_due_held o now (accepted [Fragment now text] ++ zs) Hok) as Hw.
    cbv zeta in Hw. destruct Hw as (W1 & W2 & W3 & W4 & W5).
    pose proof (enqueue_held (wake_due o now) text now zs W2) as He.
    cbv zeta in He. destruct He as (E1 & E2 & E3 & E4 & E5).
    rewrite E1, W1, E3, E4, W4, W5.
    split; [reflexivity|]. split; [exact E2|].
    split; [reflexivity|]. split; [reflexivity|].
    intros Hl. unfold cap in *. rewrite W5 in E5. apply E5.
    destruct W3 as [->| ->]; [cbn; lia | exact Hl].
  - pose proof (wake_due_held o now zs Hok) as Hw.
    cbv zeta in Hw. destruct Hw as (W1 & W2 & W3 & W4 & W5).
    cbn [accepted flat_map app].
    split; [exact W1|]. split; [exact W2|].
    split; [exact W4|]. split; [exact W5|].
    intros Hl. destruct W3 as [->| ->]; [unfold cap; cbn; lia | exact Hl].
Qed.

Lemma accepted_cons (ev : Event) (evs : list Event) :
  accepted (ev :: evs) = accepted [ev] ++ accepted evs.
Proof. unfold accepted. cbn [flat_map]. rewrite app_nil_r. reflexivity. Qed.

Lemma run_held evs : forall (o : Orchestrator),
  buffer_ok o ->
  transcript (run o evs)
  = py_join " " (forwarded (effects o) ++ _voice_buffer_parts o ++ accepted evs)
  /\ buffer_ok (run o evs)
  /\ (Z.of_nat (length (_voice_buffer_parts o)) < cap o ->
      Z.of_nat (length (_voice_buffer_parts (run o evs))) < cap o).
Proof.
  induction evs as [|ev evs IH]; intros o Hok.
  - cbn. unfold transcript. rewrite app_nil_r. auto using Hok.
  - change (run o (ev :: evs)) with (run (step o ev) evs).
    destruct (step_held o ev (accepted evs) Hok) as (S1 & S2 & S3 & S4 & S5).
    destruct (IH _ S2) as (I1 & I2 & I3).
    rewrite I1, (accepted_cons ev evs).
    split; [exact S1|]. split; [exact I2|].
    intros Hl. unfold cap in *. rewrite S4 in I3. auto.
Qed.

(** X10. The debounce conserves the transcript. Starting with an empty
    pending list, after any sequence of fragment arrivals and timer wake-ups
    the forwarded utterances followed by the fragments still pending, joined
    with single spaces, spell exactly the accepted fragments (stripped,
    non-empty) joined with single spaces in arrival order after what had been
    forwarded before: the debounce only regroups, it neither drops nor
    reorders nor alters text. *)
Theorem debounce_conserves_transcript (o : Orchestrator) (evs : list Event) :
  _voice_buffer_parts o = [] ->
  transcript (run o evs) = py_join " " (forwarded (effects o) ++ accepted evs).
Proof.
  intros H. destruct (run_held evs o (buffer_ok_nil o H)) as (R & _).
  rewrite R, H. reflexivity.
Qed.

Lemma wake_due_parts (o : Orchestrator) (now : Q) :
  (_voice_buffer_parts (wake_due o now) = []
   \/ _voice_buffer_parts (wake_due o now) = _voice_buffer_parts o)
  /\ _debounce_max_parts (wake_due o now) = _debounce_max_parts o
  /\ _debounce_window (wake_due o now) = _debounce_window o
  /\ (_voice_buffer_parts o = [] -> effects (wake_due o now) = effects o).
Proof.
  rewrite wake_due_cases.
  destruct (existsb (due now) (_loop_tasks o)); [|auto].
  set (o1 := with_tasks o _ _).
  destruct (flush_spec o1) as (F1 & F2 & _ & F4 & _ & F6).
  rewrite F2, F4, F6. repeat split; auto.
  intros P. rewrite F1. cbn. rewrite P. cbn. rewrite ?andb_false_r. apply app_nil_r.
Qed.

Lemma enqueue_cap (o : Orchestrator) (text : string) (now : Q) :
  let o' := _enqueue_voice_input o text now in
  _debounce_max_parts o' = _debounce_max_parts o
  /\ (Z.of_nat (length (_voice_buffer_parts o)) < cap o ->
      Z.of_nat (length (_voice_buffer_parts o')) < cap o).
Proof.
  unfold _enqueue_voice_input.
  destruct (str_truthy (py_strip text)); cbn [negb]; [|auto].
  destruct (Qle_bool (_debounce_window o) 0); [cbn; auto|].
  set (o1 := with_voice o (_voice_buffer_parts o ++ [py_strip text]) _).
  cbv zeta.
  destruct (_debounce_max_parts o1 <=? Z.of_nat (length (_voice_buffer_parts o1)))
    eqn:L.
  - destruct (flush_spec o1) as (_ & F2 & _ & _ & _ & F6).
    rewrite F2, F6. split; [reflexivity|]. unfold cap. cbn. lia.
  - split; [reflexivity|]. intros _. apply Z.leb_gt in L. cbn in *.
    unfold cap. lia.
Qed.

(** X11. The pending list stays below the cap. If fewer than
    [max(1, _debounce_max_parts)] fragments are pending, the same holds after
    any sequence of fragment arrivals and timer wake-ups: the fragment that
    would reach the cap is flushed in the same call. *)
Theorem pending_stays_below_cap (evs : list Event) : forall (o : Orchestrator),
  Z.of_nat (length (_voice_buffer_parts o)) < cap o ->
  Z.of_nat (length (_voice_buffer_parts (run o evs))) < cap o.
Proof.
  induction evs as [|ev evs IH]; intros o H; [exact H|].
  change (run o (ev :: evs)) with (run (step o ev) evs).
  assert (S : _debounce_max_parts (step o ev) = _debounce_max_parts o
              /\ Z.of_nat (length (_voice_buffer_parts (step o ev))) < cap o).
  {    destruct ev as [now text | now]; cbn [step].
    - destruct (wake_due_parts o now) as (W1 & W2 & _).
      pose proof (enqueue_cap (wake_due o now) text now) as E. cbv zeta in E.
      destruct E as [E1 E2]. unfold cap in *. rewrite W2 in E2.
      split; [congruence|]. apply E2.
      destruct W1 as [->| ->]; [cbn; lia | exact H].
    - destruct (wake_due_parts o now) as (W1 & W2 & _).
      split; [exact W2|]. destruct W1 as [->| ->]; [unfold cap; cbn; lia | exact H]. }
  destruct S as [S1 S2]. unfold cap in *. rewrite <- S1. apply IH.
  rewrite S1. exact S2.
Qed.

(** X12. With the debounce switched off ([_debounce_window <= 0]) nothing is
    ever buffered: starting with an empty pending list, every accepted
    fragment is forwarded on arrival, one utterance per fragment, in arrival
    order, and the pending list stays empty. *)
Theorem debounce_disabled_forwards_each_fragment (evs : list Event) :
  forall (o : Orchestrator),
  (_debounce_window o <= 0)%Q ->
  _voice_buffer_parts o = [] ->
  forwarded (effects (run o evs)) = forwarded (effects o) ++ accepted evs
  /\ _voice_buffer_parts (run o evs) = [].
Proof.
  induction evs as [|ev evs IH]; intros o Hw Hp;
    [cbn; rewrite app_nil_r; auto|].
  change (run o (ev :: evs)) with (run (step o ev) evs).
  assert (S : _debounce_window (step o ev) = _debounce_window o
              /\ _voice_buffer_parts (step o ev) = []
              /\ forwarded (effects (step o ev))
                 = forwarded (effects o) ++ accepted [ev]).
  { destruct ev as [now text | now]; cbn [step].
    - destruct (wake_due_parts o now) as (W1 & _ & W3 & W4).
      assert (P : _voice_buffer_parts (wake_due o now) = [])
        by (destruct W1 as [E|E]; [exact E | rewrite E; exact Hp]).
      specialize (W4 Hp). revert W3 W4 P.
      generalize (wake_due o now). intros o1 W3 W4 P.
      unfold _enqueue_voice_input, accepted. cbn [flat_map]. rewrite app_nil_r.
      destruct (str_truthy (py_strip text)); cbn [negb];
        [|rewrite W4, app_nil_r; auto].
      rewrite <- W3 in Hw. apply Qle_bool_iff in Hw. rewrite Hw. cbn.
      rewrite forwarded_app, W4. auto.
    - destruct (wake_due_parts o now) as (W1 & _ & W3 & W4).
      cbn. rewrite app_nil_r, (W4 Hp).
      repeat split; auto. destruct W1 as [E|E]; [exact E | rewrite E; exact Hp]. }
  destruct S as (S1 & S2 & S3).
  destruct (IH (step o ev) ltac:(rewrite S1; exact Hw) S2) as [I1 I2].
  rewrite I1, S3, (accepted_cons ev evs), app_assoc. auto.
Qed.

(** *** The interrupt cooldown *)

(** X13. Interrupt cooldown. Once a call of [_on_interrupt] at time [t1] has
    passed the cooldown test, every later call whose clock read is less than
    [_interrupt_cooldown_sec] after [t1] returns at once and changes
    nothing, whether or not playback is active by then -- also when the
    first call itself found no playback and stopped nothing. *)
Theorem interrupt_cooldown (o : Orchestrator) (spk : bool) (t1 : Q) (raises : bool)
    (calls : list (bool * Q * bool)) :
  (_interrupt_cooldown_sec o <= t1 - _last_interrupt_at o)%Q ->
  Forall (fun c => (snd (fst c) - t1 < _interrupt_cooldown_sec o)%Q) calls ->
  let o1 := fst (_on_interrupt o spk t1 raises) in
  _last_interrupt_at o1 = t1
  /\ interrupt_calls o1 calls = o1
  /\ (stops (effects o1) <= stops (effects o) + 1)%nat.
Proof.
  intros H1 H2 o1.
  assert (A : _last_interrupt_at o1 = t1
              /\ _interrupt_cooldown_sec o1 = _interrupt_cooldown_sec o
              /\ (stops (effects o1) <= stops (effects o) + 1)%nat).
  { unfold o1, _on_interrupt. apply Qltb_ge in H1. rewrite H1. cbn.
    destruct (negb (_tts_active o || spk)); [cbn; repeat split; lia|].
    destruct raises; cbn; rewrite ?stops_app; cbn; repeat split; lia. }
  destruct A as (A1 & A2 & A3). split; [exact A1|]. split; [|exact A3].
  clearbody o1. induction H2 as [|[[s t] r] calls Hc _ IH]; [reflexivity|].
  cbn [interrupt_calls]. cbn [fst snd] in Hc.
  assert (E : _on_interrupt o1 s t r = (o1, Returned)).
  { unfold _on_interrupt. rewrite A1, A2. apply Qltb_lt in Hc. rewrite Hc.
    reflexivity. }
  rewrite E. exact IH.
Qed.

End OrchMoreFacts.

(** ** The listening mode *)

Section ModeFacts.

Import Mode.

Variable kb : bool.
Variable cfg : STS.Config.



Lemma core_emit (o : Orchestrator) (e : Effect) : core (emit o e) = core o.
Proof. reflexivity. Qed.














(** X15. Releasing the push-to-talk key drops the utterance in progress.
    With push-to-talk enabled, the key down and neither stand-by nor snooze
    set, [_on_ptt_up] mutes the engine at once: whatever had been recorded
    is discarded, nothing is submitted for transcription, and the frames that
    follow while the key stays up are ignored. *)
Theorem ptt_release_discards_recording (o : Orchestrator)
    (frames : list (STS.Frame * Q * Q * Q)) :
  _ptt_enabled o = true -> _ptt_is_down o = true ->
  standby o = false -> snooze o = false ->
  let o1 := _on_ptt_up o in
  let o2 := run kb cfg o1
              (map (fun f => Capture (fst (fst (fst f))) (snd (fst (fst f)))
                                     (snd (fst f)) (snd f)) frames) in
  _ptt_is_down o1 = false
  /\ STS.is_listening (sts_engine o2) = false
  /\ STS._is_recording (sts_engine o2) = false
  /\ STS.audio_buffer (sts_engine o2) = []
  /\ STS.effects (sts_engine o2) = STS.effects (sts_engine o).
Proof.
  intros H1 H2 H3 H4 o1 o2.
  assert (E : sts_engine o1 = STS.set_listening (sts_engine o) false
              /\ _ptt_is_down o1 = false).
  { unfold o1, _on_ptt_up, _apply_listening_mode. rewrite H1, H2. cbn.
    rewrite H3, H4. cbn. auto. }
  destruct E as [E D]. split; [exact D|].
  assert (G : forall frames o,
            STS.is_listening (sts_engine o) = false ->
            STS._is_recording (sts_engine o) = false ->
            STS.audio_buffer (sts_engine o) = [] ->
            let o' := run kb cfg o
                        (map (fun f => Capture (fst (fst (fst f))) (snd (fst (fst f)))
                                               (snd (fst f)) (snd f)) frames) in
            STS.is_listening (sts_engine o') = false
            /\ STS._is_recording (sts_engine o') = false
            /\ STS.audio_buffer (sts_engine o') = []
            /\ STS.effects (sts_engine o') = STS.effects (sts_engine o)).
  { clear. induction frames as [|[[[f e] tc] tg] frames IH]; intros o L R B;
      [cbn; auto|].
    cbn [map fst snd]. 
    change (run kb cfg o (Capture f e tc tg :: ?l))
      with (run kb cfg (step kb cfg o (Capture f e tc tg)) l).
    cbv zeta. cbn [step].
    set (st' := STS.audio_loop_step cfg (sts_engine o) f e tc tg).
    assert (S : STS.is_listening st' = false /\ STS._is_recording st' = false
                /\ STS.audio_buffer st' = []
                /\ STS.effects st' = STS.effects (sts_engine o)).
    { unfold st'. destruct f as [|x fr]; [cbn; auto|].
      assert (C : STS.event_class cfg (sts_engine o) (STS.Ev_frame (x :: fr) e tc tg)
                  = Some STS.Skipped).
      { cbn. rewrite frame_class_not_listening by exact L. reflexivity. }
      destruct (step_skipped cfg _ _ _ _ _ C) as (S1 & S2 & S3 & _).
      apply view_inv in S1. destruct S1 as (V1 & V2 & _).
      cbn [STS.step] in *. rewrite V1, V2, S2, S3, R, B. auto. }
    destruct S as (S1 & S2 & S3 & S4).
    specialize (IH (with_engine o st') S1 S2 S3). cbv zeta in IH.
    destruct IH as (I1 & I2 & I3 & I4). rewrite I1, I2, I3, I4. cbn. auto. }
  pose proof (G frames o1) as P. cbv zeta in P. fold o2 in P.
  destruct P as (P1 & P2 & P3 & P4); try (rewrite E; reflexivity).
  rewrite P4, E. auto.
Qed.

End ModeFacts.

(** ** From the transcription gate to the debounce; timer durations *)

Section FlowFacts.

Import Orch Voice.

Lemma is_space_lower_char (c : ascii) : is_space (lower_char c) = is_space c.
Proof.
  destruct c as [b0 b1 b2 b3 b4 b5 b6 b7].
  destruct b0, b1, b2, b3, b4, b5, b6, b7; reflexivity.
Qed.

Lemma head_ok_lower (l : list ascii) : head_ok l -> head_ok (map lower_char l).
Proof.
  destruct l as [|c l]; cbn; [tauto|]. rewrite is_space_lower_char. tauto.
Qed.

Lemma py_lower_clean (s : string) :
  clean (list_ascii_of_string s) -> clean (list_ascii_of_string (py_lower s)).
Proof.
  unfold py_lower. rewrite list_ascii_of_string_of_list_ascii.
  intros [H1 H2]. split; [apply head_ok_lower, H1|].
  rewrite <- map_rev. apply head_ok_lower, H2.
Qed.

Lemma py_lower_empty (s : string) : py_lower s = ""%string -> s = ""%string.
Proof. destruct s; [reflexivity|discriminate]. Qed.

(** What the gate passes on is stripped and not empty. *)
Lemma gate_text_clean (groq_client : bool) (audio_data : list Z)
    (reply : STS.ProviderReply) (text : string) :
  STS.emitted (STS._transcribe_async groq_client true audio_data reply) = [text] ->
  clean (list_ascii_of_string text).
Proof.
  unfold STS._transcribe_async.
  destruct groq_client; cbn [negb]; [|discriminate].
  destruct audio_data as [|a audio]; cbn [length Nat.eqb]; [discriminate|].
  destruct reply as [raw|]; [|discriminate].
  destruct (STS.in_hallucinations _ || _) eqn:F; [discriminate|].
  cbn. intros E. injection E as <-.
  apply orb_false_iff in F. destruct F as [_ F]. apply Nat.ltb_ge in F.
  apply py_lower_clean, py_strip_clean.
  intros E. rewrite E in F. cbn in F. lia.
Qed.

(** X16. What the transcription gate passes on is never lost on the way to
    the debounce. A text the gate hands to [on_speech_end] is stripped and
    not empty, so that [_on_user_speech_end] records it as it is and (with an
    event loop) schedules [_enqueue_voice_input] with it, and that call, at
    whatever time and in whatever state of a well-formed pending list, takes
    it unchanged: the transcript after the call is the transcript before
    followed by the text. *)
Theorem gate_output_reaches_debounce
    (groq_client : bool) (audio_data : list Z) (reply : STS.ProviderReply)
    (text : string) (s : Listener) (o : Orchestrator) (now : Q) :
  STS.emitted (STS._transcribe_async groq_client true audio_data reply) = [text] ->
  _event_loop s = true ->
  buffer_ok o ->
  py_strip text = text
  /\ _on_user_speech_end s text
     = ({| _voice_active := false;
           _recent_transcripts := deque_append 8 (_recent_transcripts s) text;
           _event_loop := true |}, Some text)
  /\ transcript (_enqueue_voice_input o text now)
     = py_join " " (forwarded (effects o) ++ _voice_buffer_parts o ++ [text]).
Proof.
  intros Hg Hl Hok.
  destruct (py_strip_of_clean text (gate_text_clean _ _ _ _ Hg)) as [E N].
  split; [exact E|]. split.
  - unfold _on_user_speech_end. rewrite E.
    apply str_truthy_true in N. rewrite N, Hl. reflexivity.
  - pose proof (enqueue_held o text now [] Hok) as H. cbv zeta in H.
    destruct H as (H & _). unfold transcript.
    rewrite !app_nil_r in H. rewrite H. unfold accepted. cbn [flat_map].
    rewrite E. apply str_truthy_true in N. rewrite N, app_nil_r. reflexivity.
Qed.

Import Timer.

Local Open Scope Z_scope.

(** X17. Durations are reported to the minute. For a minute or more the
    seconds are left out: the text is the one of the duration rounded down
    to the whole minute. For zero or less the text is ["0 segundos"]. *)
Theorem human_duration_drops_seconds (t : Z) :
  (60 <= t -> _human_duration_pt_br t = _human_duration_pt_br (t - t mod 60))
  /\ (t <= 0 -> _human_duration_pt_br t = "0 segundos"%string).
Proof.
  split.
  - intros H. unfold _human_duration_pt_br.
    rewrite !Z.max_r by (pose proof (Z.mod_pos_bound t 60); lia).
    assert (E1 : (t - t mod 60) / 3600 = t / 3600)
      by (Z.div_mod_to_equations; lia).
    assert (E2 : ((t - t mod 60) mod 3600) / 60 = (t mod 3600) / 60)
      by (Z.div_mod_to_equations; lia).
    rewrite E1, E2.
    destruct (t / 3600 =? 0) eqn:Hh; cbn [negb app length Nat.eqb andb];
      destruct ((t mod 3600) / 60 =? 0) eqn:Hm;
      cbn [negb app length Nat.eqb andb]; try reflexivity.
    apply Z.eqb_eq in Hh, Hm. exfalso. Z.div_mod_to_equations. lia.
  - intros H. unfold _human_duration_pt_br. rewrite Z.max_l by lia. reflexivity.
Qed.

End FlowFacts.

(** ** More concrete runs *)

Section MoreRuns.

Import STS Runs.

(** X3, witness: two loud frames start a recording, 499 more fill the buffer
    to 500 frames; the last one submits them all. *)
Lemma max_length_force_finish_witness :
  view (run default_config (run default_config init speech_onset) long_utterance)
  = (false, [], 0, 0, false, [] ++ [[[2]] ++ frames_of long_utterance]).
Proof.
  apply (max_length_force_finish default_config
           (run default_config init speech_onset) long_utterance [[2]] 2 0 false []).
  - vm_compute. reflexivity.
  - unfold MAX_RECORDING_FRAMES. cbn. lia.
  - vm_compute. reflexivity.
  - vm_compute. reflexivity.
Defined.

(** X4, witness: a room whose level moves between 0 and 250. *)
Lemma quiet_room_never_records_witness :
  let st := run default_config init room_tone in
  _is_recording st = false /\ audio_buffer st = [] /\ effects st = []
  /\ _speech_frames st = 0
  /\ (existsb processed_frame room_tone = true -> _noise_floor_initialized st = true).
Proof.
  apply (quiet_room_never_records default_config room_tone).
  unfold room_tone.
  repeat (constructor;
          [do 4 eexists; split; [reflexivity|]; intro C; vm_compute in C; discriminate|]).
  constructor.
Defined.

(** X5, witness: listening is switched off during a recording; two very
    loud frames follow. *)
Lemma listening_disabled_ignores_frames_witness :
  let st0 := run default_config init speech_onset in
  let st := set_listening st0 false in
  let st' := run default_config st [Ev_frame [9] 5000 1 1; Ev_frame [10] 5000 2 2] in
  view st = (false, [], 0, 0, is_speaking st0, dispatched (effects st0))
  /\ view st' = view st
  /\ effects st' = effects st0
  /\ _noise_floor_ema st' = _noise_floor_ema st0
  /\ _noise_floor_initialized st' = _noise_floor_initialized st0.
Proof.
  apply (listening_disabled_ignores_frames default_config
           (run default_config init speech_onset)
           [Ev_frame [9] 5000 1 1; Ev_frame [10] 5000 2 2]).
  constructor; [do 4 eexists; reflexivity|].
  constructor; [do 4 eexists; reflexivity|]. constructor.
Defined.


(** X7, witness: TTS started at 100; a very loud frame at 100.1. *)
Lemma barge_in_guard_window_witness :
  let ev := Ev_frame [1] 5000 100.1 100.1 in
  event_class default_config tts_started ev <> Some Speech
  /\ _is_recording (step default_config tts_started ev) = false
  /\ audio_buffer (step default_config tts_started ev) = []
  /\ effects (step default_config tts_started ev) = effects tts_started.
Proof.
  apply (barge_in_guard_window default_config tts_started [1] 5000 100.1 100.1).
  - reflexivity.
  - apply excl_intro. right. split; reflexivity.
  - discriminate.
  - intro C. vm_compute in C. discriminate.
  - vm_compute. reflexivity.
Defined.

(** X8, witness: TTS starts at 100; a very loud frame at 101, after the
    guard window. *)
Lemma first_frame_after_tts_start_is_not_speech_witness :
  let st1 := set_speaking init true 100 in
  let ev := Ev_frame [1] 5000 101 101 in
  event_class default_config st1 ev <> Some Speech
  /\ _is_recording (step default_config st1 ev) = false
  /\ audio_buffer (step default_config st1 ev) = []
  /\ effects (step default_config st1 ev) = effects init.
Proof.
  apply (first_frame_after_tts_start_is_not_speech default_config init 100
           [1] 5000 101 101).
  - apply excl_intro. right. split; reflexivity.
  - discriminate.
  - intro C. vm_compute in C. discriminate.
Defined.

(** X18, witness: a room at the constant energy 123: the noise floor
    drifts above 123 (to 123.00000000000003) and stays within the bound. *)
Lemma noise_floor_within_energy_range_witness :
  let evs := [Ev_frame [1] 123 1 1; Ev_frame [2] 123 2 2; Ev_frame [3] 123 3 3] in
  let st := run default_config init evs in
  ((_noise_floor_initialized st = true ->
    (123 * (1 - (1 # 281474976710656)) - 64 * eta <= _noise_floor_ema st
     /\ _noise_floor_ema st <= 123 * (1 + (1 # 281474976710656)) + 64 * eta)%Q)
   /\ (_get_effective_threshold default_config st
       <= (Qmax (inject_Z (SILENCE_THRESHOLD default_config)) (123 * 1.8 + 40)
           + (if is_speaking st then 200 else 0))
          * (1 + (1 # 70368744177664)))%Q)
  /\ Qltb 123 (_noise_floor_ema st) = true.
Proof.
  split; [|vm_compute; reflexivity].
  apply (noise_floor_within_energy_range default_config 123 123
           [Ev_frame [1] 123%Q 1%Q 1%Q; Ev_frame [2] 123%Q 2%Q 2%Q;
            Ev_frame [3] 123%Q 3%Q 3%Q]).
  - intro C. vm_compute in C. discriminate.
  - intro C. vm_compute in C. discriminate.
  - repeat (constructor;
            [intros f e tc tg H; injection H as _ <- _ _;
             split; intro C; vm_compute in C; discriminate|]).
    constructor.
Defined.

(** X19, witness: a frame during a recording. *)
Lemma noise_floor_frozen_during_tts_and_recording_witness :
  let st := run default_config init speech_onset in
  let st' := step default_config st (Ev_frame [3] 77 1 1) in
  _noise_floor_ema st' = _noise_floor_ema st
  /\ _noise_floor_initialized st' = _noise_floor_initialized st.
Proof.
  apply (noise_floor_frozen_during_tts_and_recording default_config
           (run default_config init speech_onset) [3] 77 1 1).
  right. vm_compute. reflexivity.
Defined.

End MoreRuns.

Section MoreOrchRuns.

Import Orch Voice.

(** X10, witness. *)
Lemma debounce_conserves_transcript_witness :
  transcript (run init chatter) = py_join " " (forwarded (effects init) ++ accepted chatter).
Proof.
  apply (debounce_conserves_transcript init chatter). reflexivity.
Defined.

(** X11, witness. *)
Lemma pending_stays_below_cap_witness :
  Z.of_nat (length (_voice_buffer_parts (run init chatter))) < cap init.
Proof.
  apply (pending_stays_below_cap chatter init). vm_compute. reflexivity.
Defined.

(** X12, witness. *)
Lemma debounce_disabled_forwards_each_fragment_witness :
  forwarded (effects (run no_debounce chatter))
  = forwarded (effects no_debounce) ++ accepted chatter
  /\ _voice_buffer_parts (run no_debounce chatter) = [].
Proof.
  apply (debounce_disabled_forwards_each_fragment chatter no_debounce).
  - intro C. vm_compute in C. discriminate.
  - reflexivity.
Defined.

(** X13, witness: an interrupt at time 10 that stops playback; two more
    within 1.2 s. *)
Lemma interrupt_cooldown_witness :
  let o1 := fst (_on_interrupt init true 10 false) in
  _last_interrupt_at o1 = 10%Q
  /\ interrupt_calls o1 [(true, 10.5%Q, false); (false, 11%Q, true)] = o1
  /\ (stops (effects o1) <= stops (effects init) + 1)%nat.
Proof.
  apply (interrupt_cooldown init true 10 false
           [(true, 10.5%Q, false); (false, 11%Q, true)]).
  - intro C. vm_compute in C. discriminate.
  - constructor; [vm_compute; reflexivity|].
    constructor; [vm_compute; reflexivity|]. constructor.
Defined.

(** X16, witness: the provider returns ["  Oi Crono "]. *)
Lemma gate_output_reaches_debounce_witness :
  py_strip "oi crono"%string = "oi crono"%string
  /\ _on_user_speech_end listener "oi crono"%string
     = ({| _voice_active := false;
           _recent_transcripts := deque_append 8 (_recent_transcripts listener) "oi crono"%string;
           _event_loop := true |}, Some "oi crono"%string)
  /\ transcript (_enqueue_voice_input init "oi crono"%string 0)
     = py_join " " (forwarded (effects init) ++ _voice_buffer_parts init ++ ["oi crono"%string]).
Proof.
  apply (gate_output_reaches_debounce true [1] (STS.Reply "  Oi Crono "%string) "oi crono"%string
           listener init 0).
  - vm_compute. reflexivity.
  - reflexivity.
  - apply buffer_ok_nil. reflexivity.
Defined.

End MoreOrchRuns.

Section MoreModeRuns.

Import Mode.

(** X15, witness: the key is held while three frames are captured, then
    released; one more loud frame follows. *)
Lemma ptt_release_discards_recording_witness :
  let o := run true STS.default_config (init true true None "insert"%string 0) held_key_speech in
  let o1 := _on_ptt_up o in
  let o2 := run true STS.default_config o1
              (map (fun f => Capture (fst (fst (fst f))) (snd (fst (fst f)))
                                     (snd (fst f)) (snd f))
                   [([4], 1000%Q, 1%Q, 1%Q)]) in
  STS._is_recording (sts_engine o) = true
  /\ _ptt_is_down o1 = false
  /\ STS.is_listening (sts_engine o2) = false
  /\ STS._is_recording (sts_engine o2) = false
  /\ STS.audio_buffer (sts_engine o2) = []
  /\ STS.effects (sts_engine o2) = STS.effects (sts_engine o).
Proof.
  split; [vm_compute; reflexivity|].
  apply (ptt_release_discards_recording true STS.default_config
           (run true STS.default_config (init true true None "insert"%string 0) held_key_speech)
           [([4], 1000%Q, 1%Q, 1%Q)]); vm_compute; reflexivity.
Defined.

End MoreModeRuns.
